(** * Mesh-depth optimisation: a shallow embedding of
    [src/mesh/MeshOptimization.cpp] (Kimera-VIO) and the properties of its
    data association, point-in-triangle test, camera model and solver
    dispatch.

    The C++ code computes on [float] ([cv::Point2f], [cv::Point3f]) and on
    [double] (gtsam).  The embedding is written once, over an interface of
    the two number formats ([Numerics]), and has two instances: exact real
    arithmetic ([R], used for the geometric laws) and IEEE-754
    binary32/binary64 ([SpecFloat], executable, used to run the code on
    concrete inputs).  Logging and drawing ([debug_mode_]) are left out. *)

From Stdlib Require Import ZArith List Bool Lia Reals Lra Psatz.
From Stdlib Require Import Floats.SpecFloat.
From stdpp Require Import base option list gmap.

Set Default Proof Using "Type".

(** ** Number formats *)

(** The arithmetic a C++ scalar type offers to this file: literals, the four
    operations, [std::sqrt] and the comparison [<]. *)
Class Arith (T : Type) := {
  s_ofZ  : Z -> T;
  s_add  : T -> T -> T;
  s_sub  : T -> T -> T;
  s_mul  : T -> T -> T;
  s_div  : T -> T -> T;
  s_sqrt : T -> T;
  s_ltb  : T -> T -> bool
}.

Declare Scope num_scope.
Delimit Scope num_scope with num.
Infix "+" := s_add : num_scope.
Infix "-" := s_sub : num_scope.
Infix "*" := s_mul : num_scope.
Infix "/" := s_div : num_scope.
Infix "<?" := s_ltb : num_scope.

(** [float] (carrier [F]) and [double] (carrier [D]) with the two implicit
    conversions of C++. *)
Class Numerics (F D : Type) := {
  flt_arith :: Arith F;
  dbl_arith :: Arith D;
  to_double : F -> D;
  to_float  : D -> F
}.

(** *** Exact real arithmetic *)

Definition Rltb (a b : R) : bool := if Rlt_dec a b then true else false.

Definition Arith_R : Arith R := {|
  s_ofZ := IZR;
  s_add := Rplus;
  s_sub := Rminus;
  s_mul := Rmult;
  s_div := Rdiv;
  s_sqrt := R_sqrt.sqrt;
  s_ltb := Rltb
|}.

Definition Numerics_R : Numerics R R := {|
  flt_arith := Arith_R;
  dbl_arith := Arith_R;
  to_double := fun a => a;
  to_float := fun a => a
|}.

(** *** IEEE-754 binary32 and binary64 *)

Record float32 := F32 { f32_val : spec_float }.
Record float64 := F64 { f64_val : spec_float }.

Section IEEE.
Variables prec emax : Z.

Definition SF_ofZ (z : Z) : spec_float := binary_normalize prec emax z 0 false.

(** A value of another format brought to this one: rounded to [prec] bits
    when it comes from a wider format, exact (and in canonical form) when
    it comes from a narrower one. *)
Definition SF_round (a : spec_float) : spec_float :=
  match a with
  | S754_finite s m e => binary_normalize prec emax (cond_Zopp s (Zpos m)) e s
  | _ => a
  end.
End IEEE.

Definition lift1 {A} (wrap : spec_float -> A) (unwrap : A -> spec_float)
  (op : spec_float -> spec_float) (a : A) : A := wrap (op (unwrap a)).
Definition lift2 {A} (wrap : spec_float -> A) (unwrap : A -> spec_float)
  (op : spec_float -> spec_float -> spec_float) (a b : A) : A :=
  wrap (op (unwrap a) (unwrap b)).

Definition Arith_float32 : Arith float32 := {|
  s_ofZ := fun z => F32 (SF_ofZ 24 128 z);
  s_add := lift2 F32 f32_val (SFadd 24 128);
  s_sub := lift2 F32 f32_val (SFsub 24 128);
  s_mul := lift2 F32 f32_val (SFmul 24 128);
  s_div := lift2 F32 f32_val (SFdiv 24 128);
  s_sqrt := lift1 F32 f32_val (SFsqrt 24 128);
  s_ltb := fun a b => SFltb (f32_val a) (f32_val b)
|}.

Definition Arith_float64 : Arith float64 := {|
  s_ofZ := fun z => F64 (SF_ofZ 53 1024 z);
  s_add := lift2 F64 f64_val (SFadd 53 1024);
  s_sub := lift2 F64 f64_val (SFsub 53 1024);
  s_mul := lift2 F64 f64_val (SFmul 53 1024);
  s_div := lift2 F64 f64_val (SFdiv 53 1024);
  s_sqrt := lift1 F64 f64_val (SFsqrt 53 1024);
  s_ltb := fun a b => SFltb (f64_val a) (f64_val b)
|}.

Definition Numerics_IEEE : Numerics float32 float64 := {|
  flt_arith := Arith_float32;
  dbl_arith := Arith_float64;
  to_double := fun a => F64 (SF_round 53 1024 (f32_val a));
  to_float := fun a => F32 (SF_round 24 128 (f64_val a))
|}.

(** ** Failure and the CHECK macros *)

(** A failed glog [CHECK] (or [LOG(FATAL)], or an uncaught exception of a
    library) ends the call.  The constructors follow the error taxonomy of
    the specification; [CheckFailed] covers the remaining internal checks. *)
Inductive Failure :=
  | InvalidInput
  | InsufficientData
  | SingularSystem
  | CheckFailed.

Inductive result (A : Type) :=
  | Ok (a : A)
  | Abort (e : Failure).
Arguments Ok {A} a.
Arguments Abort {A} e.

#[export] Instance result_ret : MRet result := fun _ a => Ok a.
#[export] Instance result_bind : MBind result := fun _ _ f m =>
  match m with
  | Ok a => f a
  | Abort e => Abort e
  end.

Definition CHECK (e : Failure) (b : bool) : result unit :=
  if b then Ok tt else Abort e.

Definition is_Ok {A} (r : result A) : bool :=
  match r with
  | Ok _ => true
  | Abort _ => false
  end.

(** ** Points, vectors and matrices *)

Record Point2 (T : Type) := mkPoint2 { px : T; py : T }.
Record Point3 (T : Type) := mkPoint3 { p3x : T; p3y : T; p3z : T }.
Arguments mkPoint2 {T}.
Arguments px {T}.
Arguments py {T}.
Arguments mkPoint3 {T}.
Arguments p3x {T}.
Arguments p3y {T}.
Arguments p3z {T}.

(** A 3x3 matrix, by rows. *)
Record Mat3 (T : Type) := mkMat3 { row0 : Point3 T; row1 : Point3 T; row2 : Point3 T }.
Arguments mkMat3 {T}.
Arguments row0 {T}.
Arguments row1 {T}.
Arguments row2 {T}.

Section LinearAlgebra.
Context {T : Type} {A : Arith T}.
Local Open Scope num_scope.

Definition dot3 (a b : Point3 T) : T :=
  p3x a * p3x b + p3y a * p3y b + p3z a * p3z b.

Definition sub3 (a b : Point3 T) : Point3 T :=
  mkPoint3 (p3x a - p3x b) (p3y a - p3y b) (p3z a - p3z b).

Definition scale3 (k : T) (a : Point3 T) : Point3 T :=
  mkPoint3 (k * p3x a) (k * p3y a) (k * p3z a).

Definition div3 (a : Point3 T) (k : T) : Point3 T :=
  mkPoint3 (p3x a / k) (p3y a / k) (p3z a / k).

Definition norm3 (a : Point3 T) : T := s_sqrt (dot3 a a).

Definition mat3_vec (m : Mat3 T) (v : Point3 T) : Point3 T :=
  mkPoint3 (dot3 (row0 m) v) (dot3 (row1 m) v) (dot3 (row2 m) v).

Definition transpose3 (m : Mat3 T) : Mat3 T :=
  mkMat3 (mkPoint3 (p3x (row0 m)) (p3x (row1 m)) (p3x (row2 m)))
         (mkPoint3 (p3y (row0 m)) (p3y (row1 m)) (p3y (row2 m)))
         (mkPoint3 (p3z (row0 m)) (p3z (row1 m)) (p3z (row2 m))).
End LinearAlgebra.

(** ** Camera model (gtsam) *)

(** The calibration and the pose are gtsam's; [K()], [calibrate],
    [transformTo] and [normalized] below follow the library's definitions. *)

(** [gtsam::Cal3_S2(fx, fy, s, u0, v0)]. *)
Record Cal3_S2 (D : Type) := mkCal3_S2 {
  cal_fx : D; cal_fy : D; cal_s : D; cal_u0 : D; cal_v0 : D }.
Arguments mkCal3_S2 {D}.
Arguments cal_fx {D}.
Arguments cal_fy {D}.
Arguments cal_s {D}.
Arguments cal_u0 {D}.
Arguments cal_v0 {D}.

(** [gtsam::Pose3]: a rotation matrix and a translation. *)
Record Pose3 (D : Type) := mkPose3 { rotation : Mat3 D; translation : Point3 D }.
Arguments mkPose3 {D}.
Arguments rotation {D}.
Arguments translation {D}.

(** [CameraParams]: [intrinsics_] holds fx, fy, u0, v0 at indices 0..3. *)
Record CameraParams (D : Type) := mkCameraParams {
  intrinsics_0 : D; intrinsics_1 : D; intrinsics_2 : D; intrinsics_3 : D;
  body_Pose_cam_ : Pose3 D }.
Arguments mkCameraParams {D}.
Arguments intrinsics_0 {D}.
Arguments intrinsics_1 {D}.
Arguments intrinsics_2 {D}.
Arguments intrinsics_3 {D}.
Arguments body_Pose_cam_ {D}.

Section Camera.
Context {F D : Type} {N : Numerics F D}.
Local Open Scope num_scope.

(** [Cal3_S2::K()]. *)
Definition Cal3_K (c : Cal3_S2 D) : Mat3 D :=
  mkMat3 (mkPoint3 (cal_fx c) (cal_s c) (cal_u0 c))
         (mkPoint3 (s_ofZ 0) (cal_fy c) (cal_v0 c))
         (mkPoint3 (s_ofZ 0) (s_ofZ 0) (s_ofZ 1)).

(** [Cal3_S2::matrix_inverse()], the matrix [calibrate(Vector3)] applies. *)
Definition Cal3_matrix_inverse (c : Cal3_S2 D) : Mat3 D :=
  let fxy := cal_fx c * cal_fy c in
  let sv0 := cal_s c * cal_v0 c in
  let fyu0 := cal_fy c * cal_u0 c in
  mkMat3 (mkPoint3 (s_ofZ 1 / cal_fx c) ((s_ofZ 0 - cal_s c) / fxy) ((sv0 - fyu0) / fxy))
         (mkPoint3 (s_ofZ 0) (s_ofZ 1 / cal_fy c) ((s_ofZ 0 - cal_v0 c) / cal_fy c))
         (mkPoint3 (s_ofZ 0) (s_ofZ 0) (s_ofZ 1)).

Definition Cal3_calibrate (c : Cal3_S2 D) (p : Point3 D) : Point3 D :=
  mat3_vec (Cal3_matrix_inverse c) p.

(** [Pose3::transformTo]: the point in the frame of the pose, [R^T (p - t)]. *)
Definition transformTo (e : Pose3 D) (p : Point3 D) : Point3 D :=
  mat3_vec (transpose3 (rotation e)) (sub3 p (translation e)).

(** [Point3::normalized()]. *)
Definition normalized (v : Point3 D) : Point3 D := div3 v (norm3 v).

Definition widen3 (p : Point3 F) : Point3 D :=
  mkPoint3 (to_double (p3x p)) (to_double (p3y p)) (to_double (p3z p)).

(** The static [gtsam_intrinsics] both functions build from the camera
    parameters: skew 0. *)
Definition make_intrinsics (camera_params : CameraParams D) : Cal3_S2 D :=
  mkCal3_S2 (intrinsics_0 camera_params) (intrinsics_1 camera_params) (s_ofZ 0)
            (intrinsics_2 camera_params) (intrinsics_3 camera_params).

(** [MeshOptimization::generatePixelFromLandmarkGivenCamera]. *)
Definition generatePixelFromLandmarkGivenCamera
    (lmk : Point3 F) (extrinsics : Pose3 D) (intrinsics : Cal3_S2 D) : Point2 F :=
  let v := widen3 lmk in
  let pixel := mat3_vec (Cal3_K intrinsics) (transformTo extrinsics v) in
  mkPoint2 (to_float (p3x pixel / p3z pixel)) (to_float (p3y pixel / p3z pixel)).

(** [MeshOptimization::getBearingVectorFrom2DPixel]. *)
Definition getBearingVectorFrom2DPixel
    (intrinsics : Cal3_S2 D) (pixel : Point2 F) : Point3 F :=
  let bearing :=
    Cal3_calibrate intrinsics
      (mkPoint3 (to_double (px pixel)) (to_double (py pixel)) (s_ofZ 1)) in
  let unit_bearing := normalized bearing in
  mkPoint3 (to_float (p3x unit_bearing)) (to_float (p3y unit_bearing))
           (to_float (p3z unit_bearing)).

(** [MeshOptimization::getBearingVectorFrom3DLmk]: the bearing vector and
    the inverse depth, or a failed [CHECK_GT(norm, 0.0)]. *)
Definition getBearingVectorFrom3DLmk
    (extrinsics : Pose3 D) (lmk : Point3 F) : result (Point3 F * F) :=
  let ray := transformTo extrinsics (widen3 lmk) in
  let norm := norm3 ray in
  _ ← CHECK CheckFailed (s_ofZ 0 <? norm);
  let inverse_depth := to_float (s_ofZ 1 / norm) in
  let bearing := scale3 (to_double inverse_depth) ray in
  mret (mkPoint3 (to_float (p3x bearing)) (to_float (p3y bearing))
                 (to_float (p3z bearing)), inverse_depth).

(** [MeshOptimization::sign]. *)
Definition sign (p1 p2 p3 : Point2 F) : F :=
  (px p1 - px p3) * (py p2 - py p3) - (px p2 - px p3) * (py p1 - py p3).

(** [MeshOptimization::pointInTriangle]; the comparisons convert the
    literal [0] to [float]. *)
Definition pointInTriangle (pt v1 v2 v3 : Point2 F) : bool :=
  let d1 := sign pt v1 v2 in
  let d2 := sign pt v2 v3 in
  let d3 := sign pt v3 v1 in
  let has_neg := (d1 <? s_ofZ 0) || (d2 <? s_ofZ 0) || (d3 <? s_ofZ 0) in
  let has_pos := (s_ofZ 0 <? d1) || (s_ofZ 0 <? d2) || (s_ofZ 0 <? d3) in
  negb (has_neg && has_pos).
End Camera.

(** ** Plane geometry over the reals *)

(** The notions the classifier is specified against, stated independently
    of the edge signs. *)
Section Geometry.
Local Open Scope R_scope.







(** Twice the signed area of the triangle. *)
Definition area2 (v0 v1 v2 : Point2 R) : R :=
  (px v0 - px v2) * (py v1 - py v2) - (px v1 - px v2) * (py v0 - py v2).

Definition nondegenerate (v0 v1 v2 : Point2 R) : Prop := area2 v0 v1 v2 <> 0.

(** The three edge signs are not of mixed sign. *)
Definition signs_agree (d1 d2 d3 : R) : Prop :=
  (0 <= d1 /\ 0 <= d2 /\ 0 <= d3) \/ (d1 <= 0 /\ d2 <= 0 /\ d3 <= 0).
End Geometry.

(** ** Meshes *)

Abbreviation LandmarkId := Z (only parsing).
Abbreviation VertexId := nat (only parsing).

(** [Mesh::VertexType]: a landmark id and a position. *)
Record Vertex (P : Type) := mkVertex { getLmkId : LandmarkId; getVertexPosition : P }.
Arguments mkVertex {P}.
Arguments getLmkId {P}.
Arguments getVertexPosition {P}.

(** A polygon of a mesh of polygon dimension 3 ([polygon.at(0)],
    [polygon.at(1)], [polygon.at(2)]). *)
Record Polygon (P : Type) := mkPolygon { at_0 : Vertex P; at_1 : Vertex P; at_2 : Vertex P }.
Arguments mkPolygon {P}.
Arguments at_0 {P}.
Arguments at_1 {P}.
Arguments at_2 {P}.

(** A [cv::Mat] that is only read: its size and its entries. *)
Record MatView (T : Type) := mkMatView { mat_rows : nat; mat_cols : nat; mat_at : nat -> nat -> T }.
Arguments mkMatView {T}.
Arguments mat_rows {T}.
Arguments mat_cols {T}.
Arguments mat_at {T}.

(** Modelled from the spec: the class [Mesh2D] ([Mesh.h] is not among the
    sources).  A triangulated set of 2D vertices, each with a landmark id and
    a vertex id, the two lookup maps between the ids, and the adjacency
    matrix (vertex-id indexed, 1 iff an edge exists). *)
Record Mesh2D (F : Type) := mkMesh2D {
  polygons_2d : list (Polygon (Point2 F));
  lmk_id_to_vtx_id : gmap Z nat;
  vtx_id_to_lmk_id : gmap nat Z;
  getNumberOfUniqueVertices : nat;
  getAdjacencyMatrix : MatView Z }.
Arguments mkMesh2D {F}.
Arguments polygons_2d {F}.
Arguments lmk_id_to_vtx_id {F}.
Arguments vtx_id_to_lmk_id {F}.
Arguments getNumberOfUniqueVertices {F}.
Arguments getAdjacencyMatrix {F}.

(** Modelled from the spec: the accessors of [Mesh2D] the function calls
    (polygon count, and the two id lookups, which fail on an unknown id). *)
Definition getNumberOfPolygons {F} (mesh_2d : Mesh2D F) : nat :=
  length (polygons_2d mesh_2d).

Definition getVtxIdForLmkId {F} (mesh_2d : Mesh2D F) (lmk_id : LandmarkId) : option VertexId :=
  lmk_id_to_vtx_id mesh_2d !! lmk_id.

Definition getLmkIdForVtxId {F} (mesh_2d : Mesh2D F) (vtx_id : VertexId) : option LandmarkId :=
  vtx_id_to_lmk_id mesh_2d !! vtx_id.

(** A vertex of the output mesh: position and optional colour. *)
Record Vertex3D (F D : Type) := mkVertex3D {
  v3_lmk_id : LandmarkId; v3_position : Point3 F; v3_color : option (Point3 D) }.
Arguments mkVertex3D {F D}.
Arguments v3_lmk_id {F D}.
Arguments v3_position {F D}.
Arguments v3_color {F D}.

(** Modelled from the spec: the class [Mesh3D].  The output mesh, built one
    polygon at a time; its vertices are keyed by landmark id, so a polygon
    that names a known landmark overwrites that vertex. *)
Record Mesh3D (F D : Type) := mkMesh3D {
  vertices_3d : gmap Z (Point3 F * option (Point3 D));
  polygons_3d : list (list Z) }.
Arguments mkMesh3D {F D}.
Arguments vertices_3d {F D}.
Arguments polygons_3d {F D}.

Definition empty_mesh {F D} : Mesh3D F D := mkMesh3D ∅ [].

(** Modelled from the spec: [Mesh3D::addPolygonToMesh], which stores the
    polygon and its vertices, by landmark id. *)
Definition addVertex {F D} (m : gmap Z (Point3 F * option (Point3 D))) (v : Vertex3D F D) :=
  <[v3_lmk_id v := (v3_position v, v3_color v)]> m.

Definition addPolygonToMesh {F D} (mesh : Mesh3D F D) (polygon : list (Vertex3D F D)) : Mesh3D F D :=
  mkMesh3D (foldl addVertex (vertices_3d mesh) polygon)
           (polygons_3d mesh ++ [map v3_lmk_id polygon]).

(** Modelled from the spec: [Mesh3D::setVertexPosition], which moves a
    vertex the mesh has and fails (returns [false]) on an unknown landmark. *)
Definition setVertexPosition {F D} (mesh : Mesh3D F D) (lmk_id : LandmarkId)
    (position : Point3 F) : option (Mesh3D F D) :=
  match vertices_3d mesh !! lmk_id with
  | Some (_, color) =>
      Some (mkMesh3D (<[lmk_id := (position, color)]> (vertices_3d mesh)) (polygons_3d mesh))
  | None => None
  end.

(** Modelled from the spec: the vertex and polygon counts of [Mesh3D]. *)
Definition getNumberOfUniqueVertices3D {F D} (mesh : Mesh3D F D) : nat :=
  size (vertices_3d mesh).

Definition getNumberOfPolygons3D {F D} (mesh : Mesh3D F D) : nat :=
  length (polygons_3d mesh).

(** ** Configuration, inputs and function-local statics *)

Inductive MeshOptimizerType :=
  | kConnectedMesh
  | kDisconnectedMesh
  | kClosedForm
  | kGtsamMesh.

#[export] Instance MeshOptimizerType_eq_dec : EqDecision MeshOptimizerType.
Proof. solve_decision. Defined.

(** The point cloud, a [cv::Mat]: [cols] points when it has one row and
    three channels. *)
Record PointCloud (F : Type) := mkPointCloud {
  pc_rows : nat; pc_channels : nat; pc_points : list (Point3 F) }.
Arguments mkPointCloud {F}.
Arguments pc_rows {F}.
Arguments pc_channels {F}.
Arguments pc_points {F}.

Definition pc_cols {F} (noisy_point_cloud : PointCloud F) : nat :=
  length (pc_points noisy_point_cloud).

(** The three [static] locals of the file.  A slot is [None] until its
    declaration is first executed; from then on it keeps the value it was
    initialised with, for every later call in the process. *)
Record Statics (D : Type) := mkStatics {
  collect_gtsam_intrinsics : option (Cal3_S2 D);
  solve_gtsam_intrinsics : option (Cal3_S2 D);
  static_lmk_id : LandmarkId }.
Arguments mkStatics {D}.
Arguments collect_gtsam_intrinsics {D}.
Arguments solve_gtsam_intrinsics {D}.
Arguments static_lmk_id {D}.

(** The state of a process that has not called the optimiser yet. *)
Definition fresh_statics {D} : Statics D := mkStatics None None 0.

(** [static const T x(init);]: the value the name denotes after the
    declaration has been executed with initialiser [init]. *)
Definition static_const {A} (slot : option A) (init : A) : A := default init slot.

(** ** Data association *)

(** [m[k].push_back(a)] on a map of vectors. *)
Definition push_back {A} (m : gmap nat (list A)) (k : nat) (a : A) : gmap nat (list A) :=
  <[k := default [] (m !! k) ++ [a]]> m.

Section Association.
Context {F D : Type} {N : Numerics F D}.

Definition polygonContains (pixel : Point2 F) (polygon : Polygon (Point2 F)) : bool :=
  pointInTriangle pixel (getVertexPosition (at_0 polygon))
                        (getVertexPosition (at_1 polygon))
                        (getVertexPosition (at_2 polygon)).

(** The inner loop of [collectTriangleDataPoints]: the polygons from index
    [k] on are tried in order; the loop [break]s at the first that contains
    the pixel. *)
Fixpoint firstContainingTriangle (pixel : Point2 F)
    (polygons : list (Polygon (Point2 F))) (k : nat) : option nat :=
  match polygons with
  | [] => None
  | polygon :: rest =>
      if polygonContains pixel polygon then Some k
      else firstContainingTriangle pixel rest (S k)
  end.

(** What the function leaves in its three output parameters:
    [TriangleToDatapoints], [TriangleToPixels] and the counter. *)
Record Association := mkAssociation {
  corresp : gmap nat (list (Point3 F));
  pixel_corresp : gmap nat (list (Point2 F));
  number_of_valid_datapoints : nat }.

(** One iteration of the outer loop. *)
Definition associatePoint (intrinsics : Cal3_S2 D) (extrinsics : Pose3 D)
    (mesh_2d : Mesh2D F) (acc : Association) (lmk : Point3 F) : Association :=
  let pixel := generatePixelFromLandmarkGivenCamera lmk extrinsics intrinsics in
  match firstContainingTriangle pixel (polygons_2d mesh_2d) 0 with
  | Some k =>
      mkAssociation (push_back (corresp acc) k lmk)
                    (push_back (pixel_corresp acc) k pixel)
                    (S (number_of_valid_datapoints acc))
  | None => acc
  end.

(** [MeshOptimization::collectTriangleDataPoints].  The intrinsics are the
    function's [static const gtsam_intrinsics], initialised from the camera
    parameters of the first call that enters the loop body. *)
Definition collectTriangleDataPoints (st : Statics D)
    (noisy_point_cloud : PointCloud F) (mesh_2d : Mesh2D F)
    (camera_params : CameraParams D) : Association * Statics D :=
  match pc_points noisy_point_cloud with
  | [] => (mkAssociation ∅ ∅ 0, st)
  | _ :: _ =>
      let gtsam_intrinsics :=
        static_const (collect_gtsam_intrinsics st) (make_intrinsics camera_params) in
      (foldl (associatePoint gtsam_intrinsics (body_Pose_cam_ camera_params) mesh_2d)
             (mkAssociation ∅ ∅ 0) (pc_points noisy_point_cloud),
       mkStatics (Some gtsam_intrinsics) (solve_gtsam_intrinsics st) (static_lmk_id st))
  end.
(** The association the loop is specified against: triangle [k] contains
    the pixel and no triangle stored before it does. *)
Definition is_first_containing (pixel : Point2 F)
    (polygons : list (Polygon (Point2 F))) (k : nat) : bool :=
  match polygons !! k with
  | Some polygon =>
      polygonContains pixel polygon
      && forallb (fun q => negb (polygonContains pixel q)) (take k polygons)
  | None => false
  end.

(** The samples of a cloud that triangle [k] is the first to contain, and
    those that some triangle contains, in cloud order. *)
Definition assigned (intrinsics : Cal3_S2 D) (extrinsics : Pose3 D)
    (mesh_2d : Mesh2D F) (k : nat) (cloud : list (Point3 F)) : list (Point3 F) :=
  List.filter
    (fun lmk =>
       is_first_containing (generatePixelFromLandmarkGivenCamera lmk extrinsics intrinsics)
                           (polygons_2d mesh_2d) k)
    cloud.

Definition matched (intrinsics : Cal3_S2 D) (extrinsics : Pose3 D)
    (mesh_2d : Mesh2D F) (cloud : list (Point3 F)) : list (Point3 F) :=
  List.filter
    (fun lmk =>
       existsb (polygonContains (generatePixelFromLandmarkGivenCamera lmk extrinsics intrinsics))
               (polygons_2d mesh_2d))
    cloud.
End Association.
Arguments Association : clear implicits.

(** ** Linear systems and the libraries behind them *)

(** [gtsam::JacobianFactor] with 1x1 blocks: the keys with their
    coefficients, the right-hand side, and the sigma of its noise model. *)
Record JacobianFactor (D : Type) := mkJacobianFactor {
  jf_terms : list (nat * D); jf_b : D; jf_sigma : D }.
Arguments mkJacobianFactor {D}.
Arguments jf_terms {D}.
Arguments jf_b {D}.
Arguments jf_sigma {D}.

Inductive DecompTypes := DECOMP_LU | DECOMP_QR.

(** What the function calls in OpenCV, gtsam and [MeshUtils.h]; none of it
    is among the sources, and every property below holds for any
    implementation of it. *)
Class External (F D : Type) := {
  (** [cv::solve(A, b, x, method)]: the solution [x]. *)
  cv_solve : DecompTypes -> list (list F) -> list F -> list F;
  (** [psi.at<double>(k)] on a matrix of [float]. *)
  at_double : list F -> nat -> D;
  (** [barycentricCoordinates(p0, p1, p2, query, &b0, &b1, &b2)]: whether
      the query is inside, and the three coordinates as [gtsam::Matrix11]
      takes them. *)
  barycentricCoordinates :
    Point2 F -> Point2 F -> Point2 F -> Point2 F -> bool * (D * D * D);
  (** [factor_graph.optimize(boost::none, gtsam::EliminateQR)]; [None]
      when the library throws (an indeterminate system). *)
  gtsam_optimize : list (JacobianFactor D) -> option (gmap nat D);
  (** [factor_graph.hessianDiagonal()]. *)
  gtsam_hessianDiagonal : list (JacobianFactor D) -> gmap nat D;
  (** [rainbowColorMap]. *)
  rainbowColorMap : D -> Point3 D
}.

(** A C [switch]: its body is a sequence of blocks, some of them labelled;
    control enters at the block whose [case] matches (else at [default:]),
    runs the blocks in order, and leaves at the first [break]. *)
Inductive Label (V : Type) :=
  | Case (v : V)
  | Default
  | NoLabel.
Arguments Case {V} v.
Arguments Default {V}.
Arguments NoLabel {V}.

Inductive Flow := Break | FallThrough.

Section Switch.
Context {V St : Type} `{EqDecision V}.

Definition is_case (v : V) (l : Label V) : bool :=
  match l with
  | Case v' => bool_decide (v = v')
  | _ => false
  end.

Definition is_default (l : Label V) : bool :=
  match l with
  | Default => true
  | _ => false
  end.

Fixpoint drop_until {B} (p : Label V -> bool) (body : list (Label V * B)) : option (list (Label V * B)) :=
  match body with
  | [] => None
  | blk :: rest => if p (fst blk) then Some body else drop_until p rest
  end.

Fixpoint run_blocks (body : list (Label V * (St -> result (St * Flow)))) (s : St) : result St :=
  match body with
  | [] => Ok s
  | blk :: rest =>
      r ← snd blk s;
      match snd r with
      | Break => Ok (fst r)
      | FallThrough => run_blocks rest (fst r)
      end
  end.

Definition c_switch (v : V) (body : list (Label V * (St -> result (St * Flow)))) (s : St) : result St :=
  match drop_until (is_case v) body with
  | Some blocks => run_blocks blocks s
  | None =>
      match drop_until is_default body with
      | Some blocks => run_blocks blocks s
      | None => Ok s
      end
  end.
End Switch.

(** A loop whose body can fail. *)
Fixpoint foldM {A B} (f : B -> A -> result B) (l : list A) (b : B) : result B :=
  match l with
  | [] => Ok b
  | a :: l' => b' ← f b a; foldM f l' b'
  end.

(** [m.at<float>(r, c) = v] on a dense matrix (a write outside the matrix,
    undefined in C++, changes nothing here). *)
Definition mat_set {T} (m : list (list T)) (r c : nat) (v : T) : list (list T) :=
  alter (fun row => <[c := v]> row) r m.

Definition mat_zeros {T} (zero : T) (rows cols : nat) : list (list T) :=
  replicate rows (replicate cols zero).

(** ** The optimiser *)

Section Solver.
Context {F D : Type} {N : Numerics F D} {E : External F D}.
Local Open Scope num_scope.

(** The locals of [solveOptimalMesh] that live across the triangle loop,
    with the statics of the process. *)
Record BuildState := mkBuildState {
  vtx_ids_to_ys : list (list F);
  vtx_ids_to_bearing_vectors : gmap nat (Point3 F);
  vtx_ids_to_pixels : gmap nat (Point2 F);
  reconstructed_mesh : Mesh3D F D;
  factor_graph : list (JacobianFactor D);
  n_datapoint : nat;
  statics : Statics D }.

(** The locals of one iteration of the triangle loop. *)
Record Triangle := mkTriangle {
  vtx_ids : nat * nat * nat;
  triangle_bearing_vectors : Point3 F * Point3 F * Point3 F;
  triangle_datapoints : list (Point3 F);
  datapoint_pixels : list (Point2 F) }.

Definition set_caches (s : BuildState) (vtx_id : nat) (bearing : Point3 F)
    (pixel : Point2 F) : BuildState :=
  mkBuildState (vtx_ids_to_ys s)
               (<[vtx_id := bearing]> (vtx_ids_to_bearing_vectors s))
               (<[vtx_id := pixel]> (vtx_ids_to_pixels s))
               (reconstructed_mesh s) (factor_graph s) (n_datapoint s) (statics s).

(** Step 2.1 for one vertex of the polygon: its bearing vector and vertex
    id, both caches updated. *)
Definition bearingOfVertex (gtsam_intrinsics : Cal3_S2 D) (mesh_2d : Mesh2D F)
    (s : BuildState) (vtx : Vertex (Point2 F)) : result (BuildState * nat * Point3 F) :=
  let vtx_pixel := getVertexPosition vtx in
  let cv_bearing_vector := getBearingVectorFrom2DPixel gtsam_intrinsics vtx_pixel in
  match getVtxIdForLmkId mesh_2d (getLmkId vtx) with
  | None => Abort CheckFailed
  | Some vtx_id => Ok (set_caches s vtx_id cv_bearing_vector vtx_pixel, vtx_id, cv_bearing_vector)
  end.

(** [operator[]] of the two [unordered_map] caches: a missing key reads as
    the default-constructed point. *)
Definition pixel_of (s : BuildState) (vtx_id : nat) : Point2 F :=
  default (mkPoint2 (s_ofZ 0) (s_ofZ 0)) (vtx_ids_to_pixels s !! vtx_id).

Definition bearing_of (s : BuildState) (vtx_id : nat) : Point3 F :=
  default (mkPoint3 (s_ofZ 0) (s_ofZ 0) (s_ofZ 0)) (vtx_ids_to_bearing_vectors s !! vtx_id).

(** [1.0 / std::sqrt(lmk.dot(lmk))]. *)
Definition inverse_depth_measurement (lmk : Point3 F) : D :=
  s_ofZ 1 / to_double (s_sqrt (dot3 lmk lmk)).

(** The ternary factor of one data point ([case kGtsamMesh], loop body). *)
Definition ternaryFactor (s : BuildState) (tri : Triangle)
    (pixel : Point2 F) (lmk : Point3 F) : JacobianFactor D :=
  let '(id0, id1, id2) := vtx_ids tri in
  let '(_, (b0, b1, b2)) :=
    barycentricCoordinates (pixel_of s id0) (pixel_of s id1) (pixel_of s id2) pixel in
  mkJacobianFactor [(id0, b0); (id1, b1); (id2, b2)]
                   (inverse_depth_measurement lmk) (s_ofZ 1).

Definition add_factor (s : BuildState) (f : JacobianFactor D) : BuildState :=
  mkBuildState (vtx_ids_to_ys s) (vtx_ids_to_bearing_vectors s) (vtx_ids_to_pixels s)
               (reconstructed_mesh s) (factor_graph s ++ [f]) (n_datapoint s) (statics s).

(** [case MeshOptimizerType::kGtsamMesh: { ... break; }].  The loop runs
    over the pixels and reads the data point of the same index; both
    vectors were filled together. *)
Definition gtsamBlock (tri : Triangle) (sY : BuildState * list (list F))
    : result (BuildState * list (list F) * Flow) :=
  let s := fst sY in
  Ok (foldl (fun acc pl => add_factor acc (ternaryFactor s tri (fst pl) (snd pl)))
            s (zip (datapoint_pixels tri) (triangle_datapoints tri)),
      snd sY, Break).

(** The matrix [A]: the three bearing vectors as columns. *)
Definition bearing_matrix (tri : Triangle) : list (list F) :=
  let '(b0, b1, b2) := triangle_bearing_vectors tri in
  [ [p3x b0; p3x b1; p3x b2];
    [p3y b0; p3y b1; p3y b2];
    [p3z b0; p3z b1; p3z b2] ].

Definition store_ys (s : BuildState) (tri : Triangle) (y0 y1 y2 : F) : BuildState :=
  let '(id0, id1, id2) := vtx_ids tri in
  let n := n_datapoint s in
  mkBuildState
    (mat_set (mat_set (mat_set (vtx_ids_to_ys s) n id0 y0) n id1 y1) n id2 y2)
    (vtx_ids_to_bearing_vectors s) (vtx_ids_to_pixels s)
    (reconstructed_mesh s) (factor_graph s) (S n) (statics s).

(** The body of the loop over the data points in [default:], with its
    inner [switch]. *)
Definition solveDatapoint (mesh_optimizer_type_ : MeshOptimizerType) (tri : Triangle)
    (sY : BuildState * list (list F)) (datapoint : Point3 F)
    : result (BuildState * list (list F)) :=
  let b := [p3x datapoint; p3y datapoint; p3z datapoint] in
  let A := bearing_matrix tri in
  match cv_solve DECOMP_LU A b with
  | [y0; y1; y2] =>
      match mesh_optimizer_type_ with
      | kConnectedMesh => Ok (store_ys (fst sY) tri y0 y1 y2, snd sY)
      | kDisconnectedMesh => Ok (fst sY, snd sY ++ [[y0; y1; y2]])
      | kClosedForm => Ok sY
      | kGtsamMesh => Abort CheckFailed
      end
  | _ => Abort CheckFailed
  end.

(** [default: { for (...) { ... } break; }]. *)
Definition defaultBlock (mesh_optimizer_type_ : MeshOptimizerType) (tri : Triangle)
    (sY : BuildState * list (list F)) : result (BuildState * list (list F) * Flow) :=
  sY' ← foldM (solveDatapoint mesh_optimizer_type_ tri) (triangle_datapoints tri) sY;
  Ok (sY', Break).

(** One vertex of the per-triangle reconstruction: [depth = 1 / psi(k)],
    the vertex on its bearing ray, under the next value of the static
    [lmk_id]. *)
Definition reconstructVertex (psi_k : F) (bearing : Point3 F) (lmk_id : LandmarkId)
    : Vertex3D F D :=
  let depth := s_ofZ 1 / psi_k in
  mkVertex3D lmk_id (scale3 depth bearing) None.

(** The statement that follows the [default:] block inside the [switch]:
    [if (mesh_optimizer_type_ == kDisconnectedMesh) { ... }], the
    per-triangle least-squares solve and reconstruction. *)
Definition disconnectedBlock (mesh_optimizer_type_ : MeshOptimizerType) (tri : Triangle)
    (sY : BuildState * list (list F)) : result (BuildState * list (list F) * Flow) :=
  if bool_decide (mesh_optimizer_type_ = kDisconnectedMesh) then
    let s := fst sY in
    let Y := snd sY in
    let ones := replicate (length Y) (s_ofZ 1) in
    match cv_solve DECOMP_QR Y ones with
    | [psi0; psi1; psi2] =>
        let '(bv0, bv1, bv2) := triangle_bearing_vectors tri in
        let id := static_lmk_id (statics s) in
        let reconstructed_polygon :=
          [ reconstructVertex psi0 bv0 id;
            reconstructVertex psi1 bv1 (id + 1)%Z;
            reconstructVertex psi2 bv2 (id + 2)%Z ] in
        Ok (mkBuildState (vtx_ids_to_ys s) (vtx_ids_to_bearing_vectors s)
              (vtx_ids_to_pixels s)
              (addPolygonToMesh (reconstructed_mesh s) reconstructed_polygon)
              (factor_graph s) (n_datapoint s)
              (mkStatics (collect_gtsam_intrinsics (statics s))
                         (solve_gtsam_intrinsics (statics s)) (id + 3)%Z),
            Y, FallThrough)
    | _ => Abort CheckFailed
    end
  else Ok (sY, FallThrough).

(** The [switch (mesh_optimizer_type_)] of the triangle loop, block by
    block as the source has it. *)
Definition triangleSwitch (mesh_optimizer_type_ : MeshOptimizerType) (tri : Triangle)
    : list (Label MeshOptimizerType *
            (BuildState * list (list F) -> result (BuildState * list (list F) * Flow))) :=
  [ (Case kGtsamMesh, gtsamBlock tri);
    (Default, defaultBlock mesh_optimizer_type_ tri);
    (NoLabel, disconnectedBlock mesh_optimizer_type_ tri) ].

(** One iteration of the loop over the triangles of the 2D mesh. *)
Definition processTriangle (mesh_optimizer_type_ : MeshOptimizerType)
    (gtsam_intrinsics : Cal3_S2 D) (mesh_2d : Mesh2D F) (assoc : Association F)
    (s : BuildState) (indexed : nat * Polygon (Point2 F)) : result BuildState :=
  let tri_idx := fst indexed in
  let polygon_2d := snd indexed in
  '(s, id0, bv0) ← bearingOfVertex gtsam_intrinsics mesh_2d s (at_0 polygon_2d);
  '(s, id1, bv1) ← bearingOfVertex gtsam_intrinsics mesh_2d s (at_1 polygon_2d);
  '(s, id2, bv2) ← bearingOfVertex gtsam_intrinsics mesh_2d s (at_2 polygon_2d);
  let tri := mkTriangle (id0, id1, id2) (bv0, bv1, bv2)
               (default [] (corresp assoc !! tri_idx))
               (default [] (pixel_corresp assoc !! tri_idx)) in
  if (length (triangle_datapoints tri) <? 3)%nat then Ok s
  else
    sY ← c_switch mesh_optimizer_type_ (triangleSwitch mesh_optimizer_type_ tri) (s, []);
    Ok (fst sY).

(** The polygons with their indices, [getPolygon(k, &polygon)] for
    [k = 0 .. getNumberOfPolygons() - 1]. *)
Definition indexed_polygons (mesh_2d : Mesh2D F) : list (nat * Polygon (Point2 F)) :=
  zip (seq 0 (getNumberOfPolygons mesh_2d)) (polygons_2d mesh_2d).

(** *** Springs of the factor graph *)

(** [JacobianFactor(i1, A1, i2, A2, kSpringRestLength, kSpringNoiseModel)]
    with [A1 = 1.0], [A2 = -1.0 * 1.0], rest length 0 and sigma 0.1. *)
Definition springFactor (i j : nat) : JacobianFactor D :=
  let kSpringConstant := s_ofZ 1 in
  mkJacobianFactor [(i, kSpringConstant); (j, s_ofZ (-1) * kSpringConstant)]
                   (s_ofZ 0) (s_ofZ 1 / s_ofZ 10).

(** The inner loop over the columns [js] of row [i]: it adds a spring below
    the diagonal where the entry is 1, and [break]s at the diagonal. *)
Fixpoint springRow (adjacency_matrix : MatView Z) (i : nat) (js : list nat)
    (graph : list (JacobianFactor D)) : result (list (JacobianFactor D)) :=
  match js with
  | [] => Ok graph
  | j :: js' =>
      if (j <? i)%nat then
        springRow adjacency_matrix i js'
          (if (mat_at adjacency_matrix i j =? 1)%Z then graph ++ [springFactor i j]
           else graph)
      else
        _ ← CHECK CheckFailed (j =? i)%nat;
        Ok graph
  end.

Definition addSprings (adjacency_matrix : MatView Z)
    (graph : list (JacobianFactor D)) : result (list (JacobianFactor D)) :=
  foldM (fun g i => springRow adjacency_matrix i (seq 0 (mat_cols adjacency_matrix)) g)
        (seq 0 (mat_rows adjacency_matrix)) graph.


(** *** Reconstruction *)

(** [double * cv::Point3f]. *)
Definition scale3_by_double (a : D) (b : Point3 F) : Point3 F :=
  mkPoint3 (to_float (to_double (p3x b) * a)) (to_float (to_double (p3y b) * a))
           (to_float (to_double (p3z b) * a)).

(** One vertex of a polygon in [case kGtsamMesh]: [None] when the vertex
    has no solved variable ([add_poly = false; break]). *)
Definition reconstructGtsamVertex (mesh_2d : Mesh2D F) (s : BuildState)
    (actual hessian : gmap nat D) (vtx_2d : Vertex (Point2 F))
    : result (option (Vertex3D F D)) :=
  let lmk_id := getLmkId vtx_2d in
  match getVtxIdForLmkId mesh_2d lmk_id with
  | None => Abort CheckFailed
  | Some vtx_id =>
      match actual !! vtx_id with
      | None => Ok None
      | Some inv_depth =>
          match hessian !! vtx_id with
          | None => Abort CheckFailed
          | Some inv_variance_of_inv_depth =>
              let variance_of_inv_depth := s_ofZ 1 / inv_variance_of_inv_depth in
              let variance_of_depth :=
                variance_of_inv_depth * (s_ofZ 1 / (inv_depth * inv_depth)) in
              let depth := s_ofZ 1 / inv_depth in
              let lmk := scale3_by_double depth (bearing_of s vtx_id) in
              let std_deviation := s_sqrt variance_of_depth in
              let kScaleStdDeviation := s_ofZ 1 / s_ofZ 10 in
              let cov_color := rainbowColorMap (std_deviation / kScaleStdDeviation) in
              Ok (Some (mkVertex3D lmk_id lmk (Some cov_color)))
          end
      end
  end.

Fixpoint reconstructGtsamPolygon (mesh_2d : Mesh2D F) (s : BuildState)
    (actual hessian : gmap nat D) (poly_2d : list (Vertex (Point2 F)))
    (poly_3d : list (Vertex3D F D)) : result (option (list (Vertex3D F D))) :=
  match poly_2d with
  | [] => Ok (Some poly_3d)
  | vtx_2d :: rest =>
      r ← reconstructGtsamVertex mesh_2d s actual hessian vtx_2d;
      match r with
      | None => Ok None
      | Some v => reconstructGtsamPolygon mesh_2d s actual hessian rest (poly_3d ++ [v])
      end
  end.

Definition set_mesh (s : BuildState) (mesh : Mesh3D F D) : BuildState :=
  mkBuildState (vtx_ids_to_ys s) (vtx_ids_to_bearing_vectors s) (vtx_ids_to_pixels s)
               mesh (factor_graph s) (n_datapoint s) (statics s).

Definition addGtsamPolygon (mesh_2d : Mesh2D F) (actual hessian : gmap nat D)
    (s : BuildState) (poly_2d : Polygon (Point2 F)) : result BuildState :=
  r ← reconstructGtsamPolygon mesh_2d s actual hessian
        [at_0 poly_2d; at_1 poly_2d; at_2 poly_2d] [];
  match r with
  | Some poly_3d => Ok (set_mesh s (addPolygonToMesh (reconstructed_mesh s) poly_3d))
  | None => Ok s
  end.

(** [case kGtsamMesh] of the final [switch]. *)
Definition solveGtsam (mesh_2d : Mesh2D F) (s : BuildState) : result BuildState :=
  graph ← addSprings (getAdjacencyMatrix mesh_2d) (factor_graph s);
  actual ← from_option Ok (Abort SingularSystem) (gtsam_optimize graph);
  let hessian := gtsam_hessianDiagonal graph in
  foldM (addGtsamPolygon mesh_2d actual hessian) (polygons_2d mesh_2d)
        (mkBuildState (vtx_ids_to_ys s) (vtx_ids_to_bearing_vectors s)
           (vtx_ids_to_pixels s) (reconstructed_mesh s) graph (n_datapoint s) (statics s)).

(** One vertex of [case kConnectedMesh]: vertex id [k] is moved to
    [depth * bearing]; the landmark must be known to both meshes. *)
Definition setConnectedVertex (mesh_2d : Mesh2D F) (psi : list F)
    (s : BuildState) (k : nat) : result BuildState :=
  let depth := s_ofZ 1 / at_double psi k in
  let vtx_id := k in
  let lmk := scale3_by_double depth (bearing_of s vtx_id) in
  match getLmkIdForVtxId mesh_2d vtx_id with
  | None => Abort CheckFailed
  | Some lmk_id =>
      match setVertexPosition (reconstructed_mesh s) lmk_id lmk with
      | None => Abort CheckFailed
      | Some mesh => Ok (set_mesh s mesh)
      end
  end.

(** [case kConnectedMesh] of the final [switch]. *)
Definition solveConnected (mesh_2d : Mesh2D F) (s : BuildState) : result BuildState :=
  let ones := replicate (length (vtx_ids_to_ys s)) (s_ofZ 1) in
  let psi := cv_solve DECOMP_QR (vtx_ids_to_ys s) ones in
  foldM (setConnectedVertex mesh_2d psi) (seq 0 (length psi)) s.

(** The final [switch (mesh_optimizer_type_)]; every case ends in [break]. *)
Definition finalSwitch (mesh_optimizer_type_ : MeshOptimizerType)
    (mesh_2d : Mesh2D F) (s : BuildState) : result BuildState :=
  match mesh_optimizer_type_ with
  | kGtsamMesh => solveGtsam mesh_2d s
  | kConnectedMesh => solveConnected mesh_2d s
  | kDisconnectedMesh => Ok s
  | kClosedForm => Ok s
  end.

(** *** The call *)

(** The five checks on the inputs. *)
Definition checkInputs (noisy_point_cloud : PointCloud F) (mesh_2d : Mesh2D F)
    : result unit :=
  _ ← CHECK InvalidInput (0 <? getNumberOfPolygons mesh_2d)%nat;
  _ ← CHECK InvalidInput (0 <? getNumberOfUniqueVertices mesh_2d)%nat;
  _ ← CHECK InvalidInput (pc_rows noisy_point_cloud =? 1)%nat;
  _ ← CHECK InvalidInput (3 <? pc_cols noisy_point_cloud)%nat;
  CHECK InvalidInput (pc_channels noisy_point_cloud =? 3)%nat.

(** The two checks after data association:
    [CHECK_GT(number_of_valid_datapoints, 3u)] and
    [CHECK_GT(corresp.size(), 0u)]. *)
Definition checkAssociation (assoc : Association F) : result unit :=
  _ ← CHECK InsufficientData (3 <? number_of_valid_datapoints assoc)%nat;
  CHECK InsufficientData (0 <? size (corresp assoc))%nat.

Definition initial_state (mesh_2d : Mesh2D F) (assoc : Association F)
    (st : Statics D) : BuildState :=
  mkBuildState (mat_zeros (s_ofZ 0) (number_of_valid_datapoints assoc)
                          (getNumberOfUniqueVertices mesh_2d))
               ∅ ∅ empty_mesh [] 0 st.

(** [MeshOptimization::solveOptimalMesh], for an engine constructed with
    [mesh_optimizer_type_], called in a process whose statics are [st]:
    the returned mesh and the statics the call leaves, or the failure that
    ended the process.  (Drawing, under [debug_mode_], is left out.) *)
Definition solveOptimalMesh (mesh_optimizer_type_ : MeshOptimizerType)
    (st : Statics D) (noisy_point_cloud : PointCloud F)
    (camera_params : CameraParams D) (mesh_2d : Mesh2D F)
    : result (Mesh3D F D * Statics D) :=
  _ ← checkInputs noisy_point_cloud mesh_2d;
  let gtsam_intrinsics :=
    static_const (solve_gtsam_intrinsics st) (make_intrinsics camera_params) in
  let st := mkStatics (collect_gtsam_intrinsics st) (Some gtsam_intrinsics)
                      (static_lmk_id st) in
  let '(assoc, st) :=
    collectTriangleDataPoints st noisy_point_cloud mesh_2d camera_params in
  _ ← checkAssociation assoc;
  s ← foldM (processTriangle mesh_optimizer_type_ gtsam_intrinsics mesh_2d assoc)
            (indexed_polygons mesh_2d) (initial_state mesh_2d assoc st);
  s ← finalSwitch mesh_optimizer_type_ mesh_2d s;
  Ok (reconstructed_mesh s, statics s).
End Solver.
Arguments BuildState : clear implicits.
Arguments Triangle : clear implicits.

(** What an iteration of the triangle loop may change without touching the
    linear system, the factor graph, the output mesh or the statics: the
    two caches of bearing vectors and pixels. *)
Definition same_system {F D} (s s' : BuildState F D) : Prop :=
  vtx_ids_to_ys s' = vtx_ids_to_ys s
  /\ factor_graph s' = factor_graph s
  /\ n_datapoint s' = n_datapoint s
  /\ reconstructed_mesh s' = reconstructed_mesh s
  /\ statics s' = statics s.

(** ** IEEE values that compare neither below nor above zero *)

Definition zero_or_nan (a : spec_float) : bool :=
  match a with
  | S754_zero _ | S754_nan => true
  | _ => false
  end.

(** ** Concrete inputs on IEEE floats *)

Definition f32 (z : Z) : float32 := s_ofZ (Arith := Arith_float32) z.
Definition f64 (z : Z) : float64 := s_ofZ (Arith := Arith_float64) z.
Definition pixel_at (x y : Z) : Point2 float32 := mkPoint2 (f32 x) (f32 y).
Definition point_at (x y z : Z) : Point3 float32 := mkPoint3 (f32 x) (f32 y) (f32 z).

Definition identity_pose : Pose3 float64 :=
  mkPose3 (mkMat3 (mkPoint3 (f64 1) (f64 0) (f64 0))
                  (mkPoint3 (f64 0) (f64 1) (f64 0))
                  (mkPoint3 (f64 0) (f64 0) (f64 1)))
          (mkPoint3 (f64 0) (f64 0) (f64 0)).

(** A camera at the origin with focal lengths [f] and principal point (0,0). *)
Definition camera_with_focal (f : Z) : CameraParams float64 :=
  mkCameraParams (f64 f) (f64 f) (f64 0) (f64 0) identity_pose.

Definition triangle_of (l0 l1 l2 : LandmarkId) (p0 p1 p2 : Point2 float32)
    : Polygon (Point2 float32) :=
  mkPolygon (mkVertex l0 p0) (mkVertex l1 p1) (mkVertex l2 p2).

(** Landmark [l] is vertex [l], for [l = 0 .. n-1]. *)
Definition identity_ids (n : nat) : gmap Z nat :=
  list_to_map (map (fun i => (Z.of_nat i, i)) (seq 0 n)).
Definition identity_lmks (n : nat) : gmap nat Z :=
  list_to_map (map (fun i => (i, Z.of_nat i)) (seq 0 n)).

(** The square (0,0), (10,0), (10,10), (0,10) cut along the diagonal from
    (10,0) to (0,10), with its five edges in the adjacency matrix. *)
Definition square_adjacency : MatView Z :=
  mkMatView 4 4 (fun i j =>
    if bool_decide (i = j) then 0%Z
    else if bool_decide ((i = 0%nat /\ j = 2%nat) \/ (i = 2%nat /\ j = 0%nat)) then 0%Z
    else 1%Z).

Definition square_mesh : Mesh2D float32 :=
  mkMesh2D [ triangle_of 0 1 3 (pixel_at 0 0) (pixel_at 10 0) (pixel_at 0 10);
             triangle_of 1 2 3 (pixel_at 10 0) (pixel_at 10 10) (pixel_at 0 10) ]
           (identity_ids 4) (identity_lmks 4) 4 square_adjacency.

(** The same mesh behind a triangle collapsed to the point (50,50). *)
Definition collapsed_first_mesh : Mesh2D float32 :=
  mkMesh2D (triangle_of 4 4 4 (pixel_at 50 50) (pixel_at 50 50) (pixel_at 50 50)
            :: polygons_2d square_mesh)
           (identity_ids 5) (identity_lmks 5) 5 square_adjacency.

Definition cloud_of (points : list (Point3 float32)) : PointCloud float32 :=
  mkPointCloud 1 3 points.

(** An implementation of the external interface that answers every query
    with ones (inverse depth 1 and information 1 for the vertices 0..3); it
    serves to run the control flow on concrete inputs. *)
Definition External_ones : External float32 float64 := {|
  cv_solve := fun _ _ _ => [f32 1; f32 1; f32 1];
  at_double := fun _ _ => f64 1;
  barycentricCoordinates := fun _ _ _ _ => (true, (f64 1, f64 1, f64 1));
  gtsam_optimize := fun _ => Some (list_to_map (map (fun i => (i, f64 1)) (seq 0 4)));
  gtsam_hessianDiagonal := fun _ => list_to_map (map (fun i => (i, f64 1)) (seq 0 4));
  rainbowColorMap := fun _ => mkPoint3 (f64 1) (f64 1) (f64 1)
|}.

(** One triangle, (0,0), (10,0), (0,10), and four samples at depth 1 whose
    pixels lie inside it. *)
Definition single_triangle_mesh : Mesh2D float32 :=
  mkMesh2D [ triangle_of 0 1 2 (pixel_at 0 0) (pixel_at 10 0) (pixel_at 0 10) ]
           (identity_ids 3) (identity_lmks 3) 3
           (mkMatView 3 3 (fun i j => if bool_decide (i = j) then 0%Z else 1%Z)).

Definition cloud_in_triangle : PointCloud float32 :=
  cloud_of [point_at 1 1 1; point_at 2 1 1; point_at 1 2 1; point_at 2 2 1].

(** Over the square mesh: two samples in the first triangle and three in
    the second, at depth 1. *)
Definition cloud_two_three : PointCloud float32 :=
  cloud_of [point_at 1 1 1; point_at 2 1 1; point_at 9 9 1; point_at 8 9 1; point_at 9 8 1].

(** Two samples in each triangle of the square mesh: at depth 1 for a
    camera of focal length 1, and at depth 2 for one of focal length 2. *)
Definition cloud_depth_1 : PointCloud float32 :=
  cloud_of [point_at 1 1 1; point_at 2 1 1; point_at 9 9 1; point_at 8 9 1].
Definition cloud_depth_2 : PointCloud float32 :=
  cloud_of [point_at 1 1 2; point_at 2 1 2; point_at 9 9 2; point_at 8 9 2].

(** Four samples whose pixels lie off the square mesh. *)
Definition cloud_off_mesh : PointCloud float32 :=
  cloud_of [point_at 50 50 1; point_at 60 50 1; point_at 50 60 1; point_at 60 60 1].

(** ** Notions used by the further properties *)

(** The number of samples of triangle [k] that enter the linear system:
    all of them, unless there are fewer than three. *)
Definition samples_used {F} (assoc : Association F) (k : nat) : nat :=
  let m := length (default [] (corresp assoc !! k)) in
  if (m <? 3)%nat then 0 else m.

(** The landmark ids of a polygon, in order. *)
Definition polygon_lmk_ids {P} (polygon : Polygon P) : list LandmarkId :=
  [getLmkId (at_0 polygon); getLmkId (at_1 polygon); getLmkId (at_2 polygon)].

(** Whether a vertex, and a polygon, has a solved variable in [actual]. *)
Definition vertex_solved {F D} (mesh_2d : Mesh2D F) (actual : gmap nat D)
    (vtx : Vertex (Point2 F)) : bool :=
  match getVtxIdForLmkId mesh_2d (getLmkId vtx) with
  | Some vtx_id => bool_decide (is_Some (actual !! vtx_id))
  | None => false
  end.

Definition polygon_solved {F D} (mesh_2d : Mesh2D F) (actual : gmap nat D)
    (polygon : Polygon (Point2 F)) : bool :=
  vertex_solved mesh_2d actual (at_0 polygon)
  && vertex_solved mesh_2d actual (at_1 polygon)
  && vertex_solved mesh_2d actual (at_2 polygon).

(** The vertices of a mesh are those its polygons name, and all coloured. *)
Definition mesh_closed {F D} (mesh : Mesh3D F D) : Prop :=
  (forall lmk, is_Some (vertices_3d mesh !! lmk)
               <-> exists polygon, In polygon (polygons_3d mesh) /\ In lmk polygon)
  /\ forall lmk position color,
       vertices_3d mesh !! lmk = Some (position, color) -> is_Some color.

(** The vertices of a polygon, and of all polygons of the 2D mesh. *)
Definition polygon_vertices {P} (polygon : Polygon P) : list (Vertex P) :=
  [at_0 polygon; at_1 polygon; at_2 polygon].

Definition mesh_vertices {F} (mesh_2d : Mesh2D F) : list (Vertex (Point2 F)) :=
  flat_map polygon_vertices (polygons_2d mesh_2d).

(** The two caches hold, under vertex id [vtx_id], the pixel of the mesh
    vertex [vtx] and its bearing vector. *)
Definition cached {F D} `{Numerics F D} (gtsam_intrinsics : Cal3_S2 D)
    (mesh_2d : Mesh2D F) (s : BuildState F D) (vtx_id : nat)
    (vtx : Vertex (Point2 F)) : Prop :=
  In vtx (mesh_vertices mesh_2d)
  /\ getVtxIdForLmkId mesh_2d (getLmkId vtx) = Some vtx_id
  /\ vtx_ids_to_bearing_vectors s !! vtx_id
     = Some (getBearingVectorFrom2DPixel gtsam_intrinsics (getVertexPosition vtx))
  /\ vtx_ids_to_pixels s !! vtx_id = Some (getVertexPosition vtx).

(** * The monocular frontend ([MonoVisionFrontEnd.cpp])

    The frontend keeps three shared pointers to frames (the frame being
    processed, the previous frame and the last keyframe), which may point
    to the same object, and hands the frames to a tracker, a feature
    detector and an IMU frontend that change them in place.  The frames
    therefore live in a store, the pointers are addresses, and the
    collaborators are an interface whose operations return the frames they
    were given together with their own new state. *)

(** How a frontend call can end other than by returning: a failed glog
    [CHECK], the dereference of a null pointer, and [std::out_of_range]
    thrown by [std::vector::at]. *)
Inductive FrontendFailure :=
  | FailedCheck
  | NullDereference
  | OutOfRange.

Inductive outcome (A : Type) :=
  | Returns (a : A)
  | Fails (e : FrontendFailure).
Arguments Returns {A} a.
Arguments Fails {A} e.

#[export] Instance outcome_ret : MRet outcome := fun _ a => Returns a.
#[export] Instance outcome_bind : MBind outcome := fun _ _ f m =>
  match m with
  | Returns a => f a
  | Fails e => Fails e
  end.

Definition check (b : bool) : outcome unit :=
  if b then Returns tt else Fails FailedCheck.

Fixpoint for_each {A B} (f : B -> A -> outcome B) (l : list A) (b : B) : outcome B :=
  match l with
  | [] => Returns b
  | a :: l' => b' ← f b a; for_each f l' b'
  end.

(** [std::vector::at]. *)
Definition vector_at {A} (v : list A) (i : nat) : outcome A :=
  match v !! i with
  | Some a => Returns a
  | None => Fails OutOfRange
  end.

(** The enumerators of [TrackingStatus] and [FrontendState] that the file
    names; any other enumerator is [OtherStatus] or [OtherState]. *)
Inductive TrackingStatus :=
  | VALID
  | INVALID
  | DISABLED
  | OtherStatus (code : nat).

#[export] Instance TrackingStatus_eq_dec : EqDecision TrackingStatus.
Proof. solve_decision. Defined.

Inductive FrontendState :=
  | Bootstrap
  | Nominal
  | OtherState (code : nat).

#[export] Instance FrontendState_eq_dec : EqDecision FrontendState.
Proof. solve_decision. Defined.

Definition Timestamp := Z.
Definition FrameId := Z.

(** [gtsam::StereoPoint2(uL, uR, v)]. *)
Record StereoPoint2 (D : Type) := mkStereoPoint2 { sp_uL : D; sp_uR : D; sp_v : D }.
Arguments mkStereoPoint2 {D}.
Arguments sp_uL {D}.
Arguments sp_uR {D}.
Arguments sp_v {D}.

(** The types of the collaborators that the file only passes around. *)
Class FrontendTypes := {
  Rot3 : Type;
  gtsam_Pose3 : Type;
  Image : Type;
  Pim : Type;
  ImuStamps : Type;
  ImuAccGyrs : Type;
  DebugTrackerInfo : Type;
  FrameRest : Type;
  Collaborators : Type }.

Section Frontend.
Context {F D : Type} {N : Numerics F D} {T : FrontendTypes}.

(** A [Frame]: the members the file reads or writes, and the rest. *)
Record Frame := mkFrame {
  id_ : FrameId;
  timestamp_ : Timestamp;
  isKeyframe_ : bool;
  keypoints_ : list (Point2 F);
  landmarks_ : list LandmarkId;
  frame_rest : FrameRest }.

Definition set_isKeyframe (frame : Frame) (b : bool) : Frame :=
  mkFrame (id_ frame) (timestamp_ frame) b (keypoints_ frame) (landmarks_ frame)
          (frame_rest frame).

Definition TrackingStatusPose : Type := TrackingStatus * gtsam_Pose3.
Definition MonoMeasurements : Type := list (LandmarkId * StereoPoint2 D).

(** The members of [TrackerStatusSummary] the file touches. *)
Record TrackerStatusSummary := mkTrackerStatusSummary {
  kfTrackingStatus_mono_ : TrackingStatus;
  kfTrackingStatus_stereo_ : TrackingStatus;
  lkf_T_k_mono_ : gtsam_Pose3 }.

(** The parameters of the tracker the file reads.  The two comparisons of
    the keyframe decision are taken with the parameter they compare
    against: [timestamp - last_keyframe_timestamp_ >= intra_keyframe_time_ns_]
    and [nr_valid_features <= min_number_features_]. *)
Record TrackerParams := mkTrackerParams {
  max_time_elapsed : Timestamp -> Timestamp -> bool;
  nr_features_low : nat -> bool;
  useRANSAC_ : bool;
  ransac_use_2point_mono_ : bool }.

(** The collaborators: rotations and poses of gtsam, the camera, the
    methods of [Frame] that are not in the file, the tracker, the feature
    detector and the IMU frontend.  An operation that is given frames by
    pointer returns them as it leaves them; the operations are taken to
    return, and the counters are integers without overflow. *)
Class FrontendExternal := {
  Rot3_identity : Rot3;
  Rot3_inverse : Rot3 -> Rot3;
  Rot3_compose : Rot3 -> Rot3 -> Rot3;
  Rot3_equals : Rot3 -> Rot3 -> bool;
  Pose3_compose : gtsam_Pose3 -> gtsam_Pose3 -> gtsam_Pose3;
  Pose3_inverse : gtsam_Pose3 -> gtsam_Pose3;
  Pose3_rotation : gtsam_Pose3 -> Rot3;
  quiet_NaN : D;
  getBodyPoseCamRect : gtsam_Pose3;
  getBodyPoseCam : gtsam_Pose3;
  checkFrame : Frame -> bool;
  getNrValidKeypoints : Frame -> nat;
  tracker_params_ : TrackerParams;
  featureDetection : Collaborators -> Frame -> Collaborators * Frame;
  featureTracking : Collaborators -> Frame -> Frame -> Rot3 -> Collaborators * Frame * Frame;
  getTrackerImage : Collaborators -> Frame -> Frame -> Image;
  geometricOutlierRejectionMono :
    Collaborators -> Frame -> Frame -> Collaborators * Frame * Frame * TrackingStatusPose;
  geometricOutlierRejectionMonoGivenRotation :
    Collaborators -> Frame -> Frame -> Rot3
    -> Collaborators * Frame * Frame * TrackingStatusPose;
  preintegrateImuMeasurements :
    Collaborators -> ImuStamps -> ImuAccGyrs -> Collaborators * option Pim;
  deltaRij : Pim -> Rot3;
  resetIntegrationWithCachedBias : Collaborators -> Collaborators;
  getTrackerInfo : Collaborators -> DebugTrackerInfo }.
Context {X : FrontendExternal}.

(** The members of the frontend.  A frame pointer is an address of the
    store, or [None] for [nullptr]. *)
Record MonoVisionFrontEnd := mkMonoVisionFrontEnd {
  frames : gmap nat Frame;
  mono_frame_k_ : option nat;
  mono_frame_km1_ : option nat;
  mono_frame_lkf_ : option nat;
  keyframe_R_ref_frame_ : Rot3;
  tracker_status_summary_ : TrackerStatusSummary;
  last_keyframe_timestamp_ : Timestamp;
  frame_count_ : Z;
  keyframe_count_ : Z;
  frontend_state_ : FrontendState;
  collaborators : Collaborators }.

Definition set_frames (fe : MonoVisionFrontEnd) (h : gmap nat Frame) :=
  mkMonoVisionFrontEnd h (mono_frame_k_ fe) (mono_frame_km1_ fe) (mono_frame_lkf_ fe)
    (keyframe_R_ref_frame_ fe) (tracker_status_summary_ fe) (last_keyframe_timestamp_ fe)
    (frame_count_ fe) (keyframe_count_ fe) (frontend_state_ fe) (collaborators fe).

Definition set_mono_frame_k (fe : MonoVisionFrontEnd) (p : option nat) :=
  mkMonoVisionFrontEnd (frames fe) p (mono_frame_km1_ fe) (mono_frame_lkf_ fe)
    (keyframe_R_ref_frame_ fe) (tracker_status_summary_ fe) (last_keyframe_timestamp_ fe)
    (frame_count_ fe) (keyframe_count_ fe) (frontend_state_ fe) (collaborators fe).

Definition set_mono_frame_km1 (fe : MonoVisionFrontEnd) (p : option nat) :=
  mkMonoVisionFrontEnd (frames fe) (mono_frame_k_ fe) p (mono_frame_lkf_ fe)
    (keyframe_R_ref_frame_ fe) (tracker_status_summary_ fe) (last_keyframe_timestamp_ fe)
    (frame_count_ fe) (keyframe_count_ fe) (frontend_state_ fe) (collaborators fe).

Definition set_mono_frame_lkf (fe : MonoVisionFrontEnd) (p : option nat) :=
  mkMonoVisionFrontEnd (frames fe) (mono_frame_k_ fe) (mono_frame_km1_ fe) p
    (keyframe_R_ref_frame_ fe) (tracker_status_summary_ fe) (last_keyframe_timestamp_ fe)
    (frame_count_ fe) (keyframe_count_ fe) (frontend_state_ fe) (collaborators fe).

Definition set_keyframe_R_ref_frame (fe : MonoVisionFrontEnd) (R : Rot3) :=
  mkMonoVisionFrontEnd (frames fe) (mono_frame_k_ fe) (mono_frame_km1_ fe)
    (mono_frame_lkf_ fe) R (tracker_status_summary_ fe) (last_keyframe_timestamp_ fe)
    (frame_count_ fe) (keyframe_count_ fe) (frontend_state_ fe) (collaborators fe).

Definition set_tracker_status_summary (fe : MonoVisionFrontEnd) (s : TrackerStatusSummary) :=
  mkMonoVisionFrontEnd (frames fe) (mono_frame_k_ fe) (mono_frame_km1_ fe)
    (mono_frame_lkf_ fe) (keyframe_R_ref_frame_ fe) s (last_keyframe_timestamp_ fe)
    (frame_count_ fe) (keyframe_count_ fe) (frontend_state_ fe) (collaborators fe).

Definition set_last_keyframe_timestamp (fe : MonoVisionFrontEnd) (t : Timestamp) :=
  mkMonoVisionFrontEnd (frames fe) (mono_frame_k_ fe) (mono_frame_km1_ fe)
    (mono_frame_lkf_ fe) (keyframe_R_ref_frame_ fe) (tracker_status_summary_ fe) t
    (frame_count_ fe) (keyframe_count_ fe) (frontend_state_ fe) (collaborators fe).

Definition set_frame_count (fe : MonoVisionFrontEnd) (n : Z) :=
  mkMonoVisionFrontEnd (frames fe) (mono_frame_k_ fe) (mono_frame_km1_ fe)
    (mono_frame_lkf_ fe) (keyframe_R_ref_frame_ fe) (tracker_status_summary_ fe)
    (last_keyframe_timestamp_ fe) n (keyframe_count_ fe) (frontend_state_ fe)
    (collaborators fe).

Definition set_keyframe_count (fe : MonoVisionFrontEnd) (n : Z) :=
  mkMonoVisionFrontEnd (frames fe) (mono_frame_k_ fe) (mono_frame_km1_ fe)
    (mono_frame_lkf_ fe) (keyframe_R_ref_frame_ fe) (tracker_status_summary_ fe)
    (last_keyframe_timestamp_ fe) (frame_count_ fe) n (frontend_state_ fe)
    (collaborators fe).

Definition set_frontend_state (fe : MonoVisionFrontEnd) (s : FrontendState) :=
  mkMonoVisionFrontEnd (frames fe) (mono_frame_k_ fe) (mono_frame_km1_ fe)
    (mono_frame_lkf_ fe) (keyframe_R_ref_frame_ fe) (tracker_status_summary_ fe)
    (last_keyframe_timestamp_ fe) (frame_count_ fe) (keyframe_count_ fe) s
    (collaborators fe).

Definition set_collaborators (fe : MonoVisionFrontEnd) (w : Collaborators) :=
  mkMonoVisionFrontEnd (frames fe) (mono_frame_k_ fe) (mono_frame_km1_ fe)
    (mono_frame_lkf_ fe) (keyframe_R_ref_frame_ fe) (tracker_status_summary_ fe)
    (last_keyframe_timestamp_ fe) (frame_count_ fe) (keyframe_count_ fe)
    (frontend_state_ fe) w.

(** [*p] and [p->...]: the frame a pointer points to. *)
Definition deref (fe : MonoVisionFrontEnd) (p : option nat) : outcome Frame :=
  match p with
  | Some a =>
      match frames fe !! a with
      | Some frame => Returns frame
      | None => Fails NullDereference
      end
  | None => Fails NullDereference
  end.

(** A write through a pointer that was dereferenced. *)
Definition store (fe : MonoVisionFrontEnd) (p : option nat) (frame : Frame)
    : MonoVisionFrontEnd :=
  match p with
  | Some a => set_frames fe (<[a := frame]> (frames fe))
  | None => fe
  end.

(** [std::make_shared<Frame>(frame)]: a copy at an address not in use. *)
Definition make_shared (fe : MonoVisionFrontEnd) (frame : Frame)
    : option nat * MonoVisionFrontEnd :=
  let a := fresh (dom (frames fe)) in
  (Some a, set_frames fe (<[a := frame]> (frames fe))).

(** [MonoVisionFrontEnd::getRelativePoseBody]. *)
Definition getRelativePoseBody (fe : MonoVisionFrontEnd) : gtsam_Pose3 :=
  let body_Pose_cam := getBodyPoseCamRect in
  Pose3_compose (Pose3_compose body_Pose_cam (lkf_T_k_mono_ (tracker_status_summary_ fe)))
                (Pose3_inverse body_Pose_cam).

(** [MonoVisionFrontEnd::getSmartMonoMeasurements]: the loop body, then
    the function on the frame its pointer argument points to. *)
Definition smartMeasurementOf (landmarkId_kf : list LandmarkId)
    (keypoints : list (Point2 F)) (smart_mono_measurements : MonoMeasurements)
    (i : nat) : outcome MonoMeasurements :=
  lmk ← vector_at landmarkId_kf i;
  if (lmk =? -1)%Z then Returns smart_mono_measurements
  else
    keypoint ← vector_at keypoints i;
    let uL := to_double (px keypoint) in
    let v := to_double (py keypoint) in
    let uR := quiet_NaN in
    Returns (smart_mono_measurements ++ [(lmk, mkStereoPoint2 uL uR v)]).

Definition getSmartMonoMeasurements (frame : Frame) : outcome MonoMeasurements :=
  _ ← check (checkFrame frame);
  let landmarkId_kf := landmarks_ frame in
  let keypoints := keypoints_ frame in
  for_each (smartMeasurementOf landmarkId_kf keypoints)
           (seq 0 (length landmarkId_kf)) [].

(** The measurement of a landmark seen at a keypoint, and the packing of
    the landmarks of a frame with its keypoints that the loop is compared
    with. *)
Definition measurement_of (lmk : LandmarkId) (keypoint : Point2 F)
    : LandmarkId * StereoPoint2 D :=
  (lmk, mkStereoPoint2 (to_double (px keypoint)) quiet_NaN (to_double (py keypoint))).

Definition valid_landmark (lmk : LandmarkId) : bool := negb (lmk =? -1)%Z.

Definition packed_measurements (landmarks : list LandmarkId) (keypoints : list (Point2 F))
    : MonoMeasurements :=
  map (fun lk => measurement_of (fst lk) (snd lk))
      (List.filter (fun lk => valid_landmark (fst lk)) (zip landmarks keypoints)).

(** [MonoVisionFrontEnd::outlierRejectionMono]; [status_pose_mono] is the
    address of a local at its one call, so [CHECK_NOTNULL] passes, and the
    status and pose written to it are returned. *)
Definition outlierRejectionMono (fe : MonoVisionFrontEnd) (keyframe_R_cur_frame : Rot3)
    (frame_lkf frame_k : option nat) : outcome (TrackingStatusPose * MonoVisionFrontEnd) :=
  lkf ← deref fe frame_lkf;
  k ← deref fe frame_k;
  let '(w, lkf', k', status_pose_mono) :=
    if ransac_use_2point_mono_ tracker_params_
       && negb (Rot3_equals keyframe_R_cur_frame Rot3_identity)
    then geometricOutlierRejectionMonoGivenRotation (collaborators fe) lkf k
           keyframe_R_cur_frame
    else geometricOutlierRejectionMono (collaborators fe) lkf k in
  let fe := set_collaborators (store (store fe frame_lkf lkf') frame_k k') w in
  let summary := tracker_status_summary_ fe in
  let summary :=
    mkTrackerStatusSummary (fst status_pose_mono) (kfTrackingStatus_stereo_ summary)
                           (lkf_T_k_mono_ summary) in
  let summary :=
    if bool_decide (fst status_pose_mono = VALID) then
      mkTrackerStatusSummary (kfTrackingStatus_mono_ summary)
                             (kfTrackingStatus_stereo_ summary) (snd status_pose_mono)
    else summary in
  Returns (status_pose_mono, set_tracker_status_summary fe summary).

(** [MonoVisionFrontEnd::processFirstFrame]. *)
Definition processFirstFrame (fe : MonoVisionFrontEnd) (first_frame : Frame)
    : outcome MonoVisionFrontEnd :=
  let '(p, fe) := make_shared fe first_frame in
  let fe := set_mono_frame_k fe p in
  k ← deref fe (mono_frame_k_ fe);
  let fe := store fe (mono_frame_k_ fe) (set_isKeyframe k true) in
  k ← deref fe (mono_frame_k_ fe);
  let fe := set_last_keyframe_timestamp fe (timestamp_ k) in
  _ ← check (length (keypoints_ k) =? 0)%nat;
  let '(w, k') := featureDetection (collaborators fe) k in
  let fe := set_collaborators (store fe (mono_frame_k_ fe) k') w in
  let fe := set_mono_frame_km1 fe (mono_frame_k_ fe) in
  let fe := set_mono_frame_lkf fe (mono_frame_k_ fe) in
  let fe := set_mono_frame_k fe None in
  let fe := set_frame_count fe (frame_count_ fe + 1)%Z in
  Returns (set_collaborators fe (resetIntegrationWithCachedBias (collaborators fe))).

(** The keyframe branch of [processFrame]. *)
Definition processKeyframe (fe : MonoVisionFrontEnd) (keyframe_R_cur_frame : Rot3)
    : outcome (MonoMeasurements * MonoVisionFrontEnd) :=
  k ← deref fe (mono_frame_k_ fe);
  let fe := set_last_keyframe_timestamp fe (timestamp_ k) in
  let fe := store fe (mono_frame_k_ fe) (set_isKeyframe k true) in
  let fe := set_keyframe_count fe (keyframe_count_ fe + 1)%Z in
  k ← deref fe (mono_frame_k_ fe);
  let '(w, k') := featureDetection (collaborators fe) k in
  let fe := set_collaborators (store fe (mono_frame_k_ fe) k') w in
  fe ← (if useRANSAC_ tracker_params_ then
          '(_, fe) ← outlierRejectionMono fe keyframe_R_cur_frame
                       (mono_frame_lkf_ fe) (mono_frame_k_ fe);
          Returns fe
        else
          let summary := tracker_status_summary_ fe in
          Returns (set_tracker_status_summary fe
                     (mkTrackerStatusSummary DISABLED DISABLED (lkf_T_k_mono_ summary))));
  let fe := set_mono_frame_lkf fe (mono_frame_k_ fe) in
  k ← deref fe (mono_frame_k_ fe);
  smart_mono_measurements ← getSmartMonoMeasurements k;
  Returns (smart_mono_measurements, fe).

(** [MonoVisionFrontEnd::processFrame]; [feature_tracks] tells whether the
    caller passed a matrix for the image of the tracks, which is returned. *)
Definition processFrame (fe : MonoVisionFrontEnd) (cur_frame : Frame)
    (keyframe_R_cur_frame : Rot3) (feature_tracks : bool)
    : outcome (TrackerStatusSummary * MonoMeasurements * option Image * MonoVisionFrontEnd) :=
  let '(p, fe) := make_shared fe cur_frame in
  let fe := set_mono_frame_k fe p in
  let ref_frame_R_cur_frame :=
    Rot3_compose (Rot3_inverse (keyframe_R_ref_frame_ fe)) keyframe_R_cur_frame in
  km1 ← deref fe (mono_frame_km1_ fe);
  k ← deref fe (mono_frame_k_ fe);
  let '(w, km1', k') :=
    featureTracking (collaborators fe) km1 k ref_frame_R_cur_frame in
  let fe :=
    set_collaborators (store (store fe (mono_frame_km1_ fe) km1') (mono_frame_k_ fe) k') w in
  tracks ← (if feature_tracks then
              lkf ← deref fe (mono_frame_lkf_ fe);
              k ← deref fe (mono_frame_k_ fe);
              Returns (Some (getTrackerImage (collaborators fe) lkf k))
            else Returns None);
  let fe :=
    set_tracker_status_summary fe
      (mkTrackerStatusSummary INVALID INVALID
                              (lkf_T_k_mono_ (tracker_status_summary_ fe))) in
  k ← deref fe (mono_frame_k_ fe);
  let max_time_elapsed :=
    max_time_elapsed tracker_params_ (timestamp_ k) (last_keyframe_timestamp_ fe) in
  let nr_valid_features := getNrValidKeypoints k in
  let nr_features_low := nr_features_low tracker_params_ nr_valid_features in
  '(smart_mono_measurements, fe) ←
    (if max_time_elapsed || nr_features_low || isKeyframe_ k then
       processKeyframe fe keyframe_R_cur_frame
     else
       Returns ([], store fe (mono_frame_k_ fe) (set_isKeyframe k false)));
  k ← deref fe (mono_frame_k_ fe);
  let fe :=
    set_keyframe_R_ref_frame fe
      (if isKeyframe_ k then Rot3_identity else keyframe_R_cur_frame) in
  let fe := set_mono_frame_km1 fe (mono_frame_k_ fe) in
  let fe := set_mono_frame_k fe None in
  let fe := set_frame_count fe (frame_count_ fe + 1)%Z in
  Returns (tracker_status_summary_ fe, smart_mono_measurements, tracks, fe).

(** The input of a spin and the members of its output. *)
Record MonoFrontEndInputPayload := mkMonoFrontEndInputPayload {
  getFrame : Frame;
  getImuStamps : ImuStamps;
  getImuAccGyrs : ImuAccGyrs }.

Record MonoFrontendOutput := mkMonoFrontendOutput {
  is_keyframe_ : bool;
  status_mono_measurements_ : option (TrackerStatusSummary * MonoMeasurements);
  tracker_status_ : TrackingStatus;
  relative_pose_body_ : gtsam_Pose3;
  b_Pose_cam_rect_ : gtsam_Pose3;
  frame_lkf_ : Frame;
  pim_ : option Pim;
  imu_acc_gyrs_ : ImuAccGyrs;
  feature_tracks_ : option Image;
  debug_tracker_info_ : DebugTrackerInfo }.

(** [MonoVisionFrontEnd::bootstrapSpin]. *)
Definition bootstrapSpin (fe : MonoVisionFrontEnd) (input : MonoFrontEndInputPayload)
    : outcome (MonoFrontendOutput * MonoVisionFrontEnd) :=
  _ ← check (bool_decide (frontend_state_ fe = Bootstrap));
  fe ← processFirstFrame fe (getFrame input);
  let fe := set_frontend_state fe Nominal in
  _ ← check (bool_decide (is_Some (mono_frame_lkf_ fe)));
  lkf ← deref fe (mono_frame_lkf_ fe);
  Returns (mkMonoFrontendOutput (isKeyframe_ lkf) None DISABLED
             (getRelativePoseBody fe) getBodyPoseCam lkf None (getImuAccGyrs input)
             None (getTrackerInfo (collaborators fe)),
           fe).

(** The checks of [nominalSpin] on a keyframe. *)
Definition keyframeChecks (fe : MonoVisionFrontEnd) : outcome unit :=
  lkf ← deref fe (mono_frame_lkf_ fe);
  km1 ← deref fe (mono_frame_km1_ fe);
  _ ← check (timestamp_ lkf =? timestamp_ km1)%Z;
  _ ← check (id_ lkf =? id_ km1)%Z;
  _ ← check (bool_decide (mono_frame_k_ fe = None));
  check (isKeyframe_ lkf).

(** [MonoVisionFrontEnd::nominalSpin]. *)
Definition nominalSpin (fe : MonoVisionFrontEnd) (input : MonoFrontEndInputPayload)
    : outcome (MonoFrontendOutput * MonoVisionFrontEnd) :=
  _ ← check (bool_decide (frontend_state_ fe = Nominal));
  let mono_frame_k := getFrame input in
  let '(w, pim) :=
    preintegrateImuMeasurements (collaborators fe) (getImuStamps input)
                                (getImuAccGyrs input) in
  let fe := set_collaborators fe w in
  _ ← check (bool_decide (is_Some pim));
  match pim with
  | None => Fails NullDereference
  | Some pim =>
      let body_R_cam := Pose3_rotation getBodyPoseCamRect in
      let cam_R_body := Rot3_inverse body_R_cam in
      let camLrectLkf_R_camLrectK_imu :=
        Rot3_compose (Rot3_compose cam_R_body (deltaRij pim)) body_R_cam in
      '(summary, smart_mono_measurements, feature_tracks, fe) ←
        processFrame fe mono_frame_k camLrectLkf_R_camLrectK_imu true;
      let status_mono_measurements := (summary, smart_mono_measurements) in
      _ ← check (bool_decide (mono_frame_k_ fe = None));
      km1 ← deref fe (mono_frame_km1_ fe);
      if isKeyframe_ km1 then
        _ ← keyframeChecks fe;
        let fe :=
          set_collaborators fe (resetIntegrationWithCachedBias (collaborators fe)) in
        lkf ← deref fe (mono_frame_lkf_ fe);
        Returns (mkMonoFrontendOutput true (Some status_mono_measurements)
                   (kfTrackingStatus_mono_ (tracker_status_summary_ fe))
                   (getRelativePoseBody fe) getBodyPoseCamRect lkf (Some pim)
                   (getImuAccGyrs input) feature_tracks
                   (getTrackerInfo (collaborators fe)),
                 fe)
      else
        lkf ← deref fe (mono_frame_lkf_ fe);
        Returns (mkMonoFrontendOutput false (Some status_mono_measurements) INVALID
                   (getRelativePoseBody fe) getBodyPoseCamRect lkf (Some pim)
                   (getImuAccGyrs input) feature_tracks
                   (getTrackerInfo (collaborators fe)),
                 fe)
  end.

(** What the checks of a spin rely on: the frontend is in its nominal
    state, the pointer to the current frame is null, and the pointers to
    the previous frame and to the last keyframe point to frames. *)
Definition nominal_ready (fe : MonoVisionFrontEnd) : Prop :=
  frontend_state_ fe = Nominal
  /\ mono_frame_k_ fe = None
  /\ (exists a, mono_frame_km1_ fe = Some a /\ is_Some (frames fe !! a))
  /\ (exists a, mono_frame_lkf_ fe = Some a /\ is_Some (frames fe !! a)).
End Frontend.
Arguments Frame : clear implicits.
Arguments Frame F {T}.
Arguments FrontendExternal : clear implicits.
Arguments FrontendExternal F D {T}.
Arguments MonoVisionFrontEnd : clear implicits.
Arguments MonoVisionFrontEnd F {T}.

(** A pointer that points to a frame of the store. *)
Definition points_to_frame {F} `{FrontendTypes} (fe : MonoVisionFrontEnd F)
    (p : option nat) : Prop :=
  exists a, p = Some a /\ is_Some (frames fe !! a).

(** Two states of the frontend with the same addresses in use. *)
Definition same_store {F} `{FrontendTypes} (fe fe' : MonoVisionFrontEnd F) : Prop :=
  dom (frames fe') = dom (frames fe).

(** A run of nominal spins, one per input, the outputs dropped. *)
Definition nominalSpins {F D} `{Numerics F D} `{FrontendTypes}
    `{!FrontendExternal F D} (fe : MonoVisionFrontEnd F)
    (inputs : list MonoFrontEndInputPayload) : outcome (MonoVisionFrontEnd F) :=
  for_each (fun fe input => '(_, fe') ← nominalSpin fe input; Returns fe') inputs fe.

(** ** A frontend to run

    Collaborators that serve to run the control flow on concrete inputs:
    rotations are booleans ([true] the identity) and poses integers; the
    detector finds two keypoints in a frame without keypoints, one with
    landmark 7 and one with none; the tracker carries the keypoints of the
    reference frame over; RANSAC answers [VALID]; a keyframe is due after 5
    time units, or without any valid keypoint. *)
Definition FrontendTypes_still : FrontendTypes := {|
  Rot3 := bool;
  gtsam_Pose3 := Z;
  Image := unit;
  Pim := unit;
  ImuStamps := unit;
  ImuAccGyrs := unit;
  DebugTrackerInfo := unit;
  FrameRest := unit;
  Collaborators := unit |}.

Section StillFrontend.
Existing Instance Numerics_IEEE.
Existing Instance FrontendTypes_still.

Definition External_still : FrontendExternal float32 float64 := {|
  Rot3_identity := true;
  Rot3_inverse := fun R => R;
  Rot3_compose := andb;
  Rot3_equals := Bool.eqb;
  Pose3_compose := Z.add;
  Pose3_inverse := Z.opp;
  Pose3_rotation := fun _ => true;
  quiet_NaN := F64 S754_nan;
  getBodyPoseCamRect := 0%Z;
  getBodyPoseCam := 0%Z;
  checkFrame := fun frame => (length (keypoints_ frame) =? length (landmarks_ frame))%nat;
  getNrValidKeypoints := fun frame => length (List.filter valid_landmark (landmarks_ frame));
  tracker_params_ :=
    mkTrackerParams (fun t last => (5 <=? t - last)%Z) (fun n => (n <=? 0)%nat) true false;
  featureDetection := fun w frame =>
    (w, match keypoints_ frame with
        | [] => mkFrame (id_ frame) (timestamp_ frame) (isKeyframe_ frame)
                        [pixel_at 1 2; pixel_at 3 4] [7%Z; (-1)%Z] tt
        | _ :: _ => frame
        end);
  featureTracking := fun w ref cur _ =>
    (w, ref, mkFrame (id_ cur) (timestamp_ cur) (isKeyframe_ cur)
                     (keypoints_ ref) (landmarks_ ref) tt);
  getTrackerImage := fun _ _ _ => tt;
  geometricOutlierRejectionMono := fun w lkf k => (w, lkf, k, (VALID, 1%Z));
  geometricOutlierRejectionMonoGivenRotation := fun w lkf k _ => (w, lkf, k, (VALID, 2%Z));
  preintegrateImuMeasurements := fun w _ _ => (w, Some tt);
  deltaRij := fun _ => true;
  resetIntegrationWithCachedBias := fun w => w;
  getTrackerInfo := fun _ => tt |}.

(** A frame without keypoints, and the frontend as constructed. *)
Definition empty_frame (id timestamp : Z) : Frame float32 :=
  mkFrame id timestamp false [] [] tt.

Definition input_of (frame : Frame float32) : MonoFrontEndInputPayload :=
  mkMonoFrontEndInputPayload frame tt tt.

Definition constructed_frontend : MonoVisionFrontEnd float32 :=
  mkMonoVisionFrontEnd ∅ None None None true
    (mkTrackerStatusSummary INVALID INVALID 0%Z) 0%Z 0%Z 0%Z Bootstrap tt.

(** The frontend after its first frame, a keyframe at address 0. *)
Definition running_frontend : MonoVisionFrontEnd float32 :=
  mkMonoVisionFrontEnd
    {[ 0%nat := mkFrame 0%Z 0%Z true [pixel_at 1 2; pixel_at 3 4] [7%Z; (-1)%Z] tt ]}
    None (Some 0%nat) (Some 0%nat) true
    (mkTrackerStatusSummary INVALID INVALID 0%Z) 0%Z 1%Z 0%Z Nominal tt.
End StillFrontend.

(** * Floats as the numbers they denote

    The value of a finite binary float, to state what a computation on
    floats says about the exact geometry; an infinity or a NaN has no value
    (0 here, and [SF_finite] tells them apart). *)

Definition bpow2 (e : Z) : R :=
  if (0 <=? e)%Z then IZR (2 ^ e) else (/ IZR (2 ^ (- e)))%R.

Definition SF2R (a : spec_float) : R :=
  match a with
  | S754_finite s m e => ((if s then - IZR (Zpos m) else IZR (Zpos m)) * bpow2 e)%R
  | _ => 0%R
  end.


Definition real2 (p : Point2 float32) : Point2 R :=
  mkPoint2 (SF2R (f32_val (px p))) (SF2R (f32_val (py p))).



(** The positive binary32 number [m * 2^e]. *)
Definition binary32 (m : positive) (e : Z) : float32 := F32 (S754_finite false m e).

(** A thin triangle, (0,0), (1.75,0), (0,9400001), and the point
    (1.75 - 2^-23, 0.625) just inside its long edge. *)
Definition thin_v0 : Point2 float32 := mkPoint2 (F32 (S754_zero false)) (F32 (S754_zero false)).
Definition thin_v1 : Point2 float32 := mkPoint2 (binary32 14680064 (-23)) (F32 (S754_zero false)).
Definition thin_v2 : Point2 float32 := mkPoint2 (F32 (S754_zero false)) (binary32 9400001 0).
Definition thin_inner : Point2 float32 :=
  mkPoint2 (binary32 14680063 (-23)) (binary32 10485760 (-24)).

(** * Properties *)

(** ** The classifier over the reals *)

Section ClassifierR.
Local Open Scope R_scope.
Existing Instance Numerics_R.


Lemma Rltb_ge (a b : R) : Rltb a b = false <-> b <= a.
Proof. unfold Rltb. destruct (Rlt_dec a b); split; intros; try lra; done. Qed.

Lemma sign_R (p1 p2 p3 : Point2 R) :
  sign p1 p2 p3
  = (px p1 - px p3) * (py p2 - py p3) - (px p2 - px p3) * (py p1 - py p3).
Proof. reflexivity. Qed.

Lemma sign_area2 (v0 v1 v2 : Point2 R) : sign v0 v1 v2 = area2 v0 v1 v2.
Proof. reflexivity. Qed.



Lemma pointInTriangle_signs (p v0 v1 v2 : Point2 R) :
  pointInTriangle p v0 v1 v2 = true
  <-> signs_agree (sign p v0 v1) (sign p v1 v2) (sign p v2 v0).
Proof.
  unfold pointInTriangle, signs_agree. simpl.
  set (d1 := sign p v0 v1). set (d2 := sign p v1 v2). set (d3 := sign p v2 v0).
  rewrite negb_true_iff, andb_false_iff, !orb_false_iff.
  rewrite !Rltb_ge. tauto.
Qed.









End ClassifierR.

(** ** The camera model over the reals *)

Section CameraR.
Local Open Scope R_scope.
Existing Instance Numerics_R.

Lemma transformTo_R (e : Pose3 R) (lmk : Point3 R) :
  transformTo e (widen3 lmk) = transformTo e lmk.
Proof. reflexivity. Qed.

(** The pinhole formula: the pixel of a point whose camera-frame
    coordinates are [(x, y, z)], [z <> 0]. *)
Lemma generatePixel_formula (lmk : Point3 R) (e : Pose3 R) (k : Cal3_S2 R) :
  let pc := transformTo e (widen3 lmk) in
  p3z pc <> 0 ->
  generatePixelFromLandmarkGivenCamera lmk e k
  = mkPoint2 (cal_fx k * (p3x pc / p3z pc) + cal_s k * (p3y pc / p3z pc) + cal_u0 k)
             (cal_fy k * (p3y pc / p3z pc) + cal_v0 k).
Proof.
  intros pc Hz. unfold generatePixelFromLandmarkGivenCamera.
  fold pc. destruct pc as [x y z]. simpl in *.
  unfold mat3_vec, dot3, Cal3_K. simpl. f_equal; field; exact Hz.
Qed.




(** C6, as stated, fails: the point (1, 1, -1), seen by a camera at the
    origin with unit focal lengths, has depth -1 and is projected to the
    pixel (-1, -1); no failure is raised. *)
Lemma generatePixel_behind_camera :
  let identity := mkMat3 (mkPoint3 1 0 0) (mkPoint3 0 1 0) (mkPoint3 0 0 1) in
  let e := mkPose3 identity (mkPoint3 0 0 0) in
  let k := mkCal3_S2 1 1 0 0 0 in
  let lmk := mkPoint3 1 1 (-1) in
  p3z (transformTo e (widen3 lmk)) <= 0
  /\ generatePixelFromLandmarkGivenCamera lmk e k = mkPoint2 (-1) (-1).
Proof.
  simpl. split.
  - unfold transformTo, mat3_vec, dot3. simpl. lra.
  - unfold generatePixelFromLandmarkGivenCamera, transformTo, mat3_vec, dot3. simpl.
    f_equal; field.
Qed.

(** C6 (amended): [generatePixelFromLandmarkGivenCamera] transforms the
    point into the camera frame, divides by its depth and returns the pixel
    coordinates, for every point of non-zero depth, negative depths
    included; the function has no failure. *)
Theorem generatePixel_total (lmk : Point3 R) (e : Pose3 R) (k : Cal3_S2 R) :
  let pc := transformTo e (widen3 lmk) in
  p3z pc <> 0 ->
  generatePixelFromLandmarkGivenCamera lmk e k
  = mkPoint2 (cal_fx k * (p3x pc / p3z pc) + cal_s k * (p3y pc / p3z pc) + cal_u0 k)
             (cal_fy k * (p3y pc / p3z pc) + cal_v0 k).
Proof. apply generatePixel_formula. Qed.

Lemma generatePixel_total_witness :
  let identity := mkMat3 (mkPoint3 1 0 0) (mkPoint3 0 1 0) (mkPoint3 0 0 1) in
  let e := mkPose3 identity (mkPoint3 0 0 0) in
  let k := mkCal3_S2 2 2 0 3 3 in
  let lmk := mkPoint3 1 1 (-1) in
  generatePixelFromLandmarkGivenCamera lmk e k = mkPoint2 1 1.
Proof.
  intros identity e k lmk.
  rewrite (generatePixel_total lmk e k).
  - unfold transformTo, mat3_vec, dot3. simpl. f_equal; field.
  - unfold transformTo, mat3_vec, dot3. simpl. lra.
Defined.


End CameraR.

(** On IEEE floats the same point behind the camera gets the same pixel,
    and a point of depth 0 gets a pixel at infinity: the division is made
    whatever the depth. *)
Lemma generatePixel_IEEE_no_depth_check :
  generatePixelFromLandmarkGivenCamera (N := Numerics_IEEE) (point_at 1 1 (-1))
    identity_pose (make_intrinsics (N := Numerics_IEEE) (camera_with_focal 1))
  = pixel_at (-1) (-1)
  /\ generatePixelFromLandmarkGivenCamera (N := Numerics_IEEE) (point_at 1 1 0)
       identity_pose (make_intrinsics (N := Numerics_IEEE) (camera_with_focal 1))
     = mkPoint2 (F32 (S754_infinity false)) (F32 (S754_infinity false)).
Proof. split; vm_compute; reflexivity. Qed.

(** ** The classifier on IEEE floats *)

Section ClassifierIEEE.
Variables prec emax : Z.

Lemma SFsub_diag (a : spec_float) : zero_or_nan (SFsub prec emax a a) = true.
Proof.
  destruct a as [s | s | | s m e]; simpl; try done.
  - by destruct s.
  - by destruct s.
  - rewrite Z.sub_diag. reflexivity.
Qed.

Lemma SFmul_zero_or_nan_r (a b : spec_float) :
  zero_or_nan b = true -> zero_or_nan (SFmul prec emax a b) = true.
Proof. destruct a, b; simpl; done. Qed.

Lemma SFmul_zero_or_nan_l (a b : spec_float) :
  zero_or_nan a = true -> zero_or_nan (SFmul prec emax a b) = true.
Proof. destruct a, b; simpl; done. Qed.

Lemma SFsub_zero_or_nan (a b : spec_float) :
  zero_or_nan a = true -> zero_or_nan b = true ->
  zero_or_nan (SFsub prec emax a b) = true.
Proof. destruct a as [[] | | |], b as [[] | | |]; simpl; done. Qed.

Lemma SFltb_zero_or_nan_l (a : spec_float) :
  zero_or_nan a = true -> SFltb a (SF_ofZ prec emax 0) = false.
Proof. destruct a; simpl; done. Qed.

Lemma SFltb_zero_or_nan_r (a : spec_float) :
  zero_or_nan a = true -> SFltb (SF_ofZ prec emax 0) a = false.
Proof. destruct a; simpl; done. Qed.
End ClassifierIEEE.

(** The edge sign of any float point against a collapsed edge is a zero or
    a NaN. *)
Lemma sign_collapsed_IEEE (p v : Point2 float32) :
  zero_or_nan (f32_val (sign (N := Numerics_IEEE) p v v)) = true.
Proof.
  unfold sign. simpl. unfold lift2. simpl.
  apply SFsub_zero_or_nan.
  - apply SFmul_zero_or_nan_r, SFsub_diag.
  - apply SFmul_zero_or_nan_l, SFsub_diag.
Qed.

Lemma pointInTriangle_collapsed_IEEE (p v : Point2 float32) :
  pointInTriangle (N := Numerics_IEEE) p v v v = true.
Proof.
  unfold pointInTriangle.
  pose proof (sign_collapsed_IEEE p v) as Hs.
  set (d := sign p v v) in *.
  change (s_ofZ 0 <? d)%num with (SFltb (SF_ofZ 24 128 0) (f32_val d)).
  change (d <? s_ofZ 0)%num with (SFltb (f32_val d) (SF_ofZ 24 128 0)).
  rewrite SFltb_zero_or_nan_l, SFltb_zero_or_nan_r by exact Hs. reflexivity.
Qed.

Lemma pointInTriangle_collapsed_R (p v : Point2 R) :
  pointInTriangle (N := Numerics_R) p v v v = true.
Proof.
  apply pointInTriangle_signs. left. rewrite !sign_R.
  split_and!; apply Req_le; ring.
Qed.

(** ** The classifier on binary32, against the exact geometry *)


Lemma bpow2_nonneg (e z : Z) : (0 <=? e)%Z = true -> (2 ^ e)%Z = z -> bpow2 e = IZR z.
Proof. intros He <-. unfold bpow2. by rewrite He. Qed.

Lemma bpow2_neg (e z : Z) : (0 <=? e)%Z = false -> (2 ^ (- e))%Z = z -> bpow2 e = (/ IZR z)%R.
Proof. intros He <-. unfold bpow2. by rewrite He. Qed.

Ltac bpow2_values :=
  repeat match goal with
  | |- context [bpow2 ?e] =>
      first [ let v := eval vm_compute in (2 ^ e)%Z in
              rewrite (bpow2_nonneg e v eq_refl eq_refl)
            | let v := eval vm_compute in (2 ^ (- e))%Z in
              rewrite (bpow2_neg e v eq_refl eq_refl) ]
  end.

(** Evaluates the floats under [SF2R] and then [SF2R] itself. *)
Ltac float_values :=
  repeat match goal with
  | |- context [SF2R ?x] =>
      let v := eval vm_compute in x in progress change x with v
  end;
  unfold SF2R; bpow2_values.



Section ClassifierFloat.
Local Open Scope R_scope.





Lemma thin_nondegenerate : nondegenerate (real2 thin_v0) (real2 thin_v1) (real2 thin_v2).
Proof.
  unfold nondegenerate, area2, real2, thin_v0, thin_v1, thin_v2, binary32. cbn [px py f32_val].
  float_values. lra.
Qed.





End ClassifierFloat.

(** ** Data association *)

Section AssociationProps.
Context {F D : Type} {N : Numerics F D}.

Lemma firstContainingTriangle_from (pixel : Point2 F)
    (polygons : list (Polygon (Point2 F))) (k0 k : nat) :
  firstContainingTriangle pixel polygons k0 = Some k
  <-> k0 <= k /\ is_first_containing pixel polygons (k - k0) = true.
Proof.
  revert k0. induction polygons as [| q rest IH]; intros k0; simpl.
  - split; [done | intros [_ H]; done].
  - destruct (polygonContains pixel q) eqn:Hq.
    + split.
      * intros [= <-]. rewrite Nat.sub_diag. unfold is_first_containing. simpl.
        rewrite Hq. done.
      * intros [Hle Hf]. destruct (k - k0) as [| d] eqn:Hd.
        -- f_equal. lia.
        -- unfold is_first_containing in Hf. simpl in Hf. rewrite Hq in Hf. simpl in Hf.
           destruct (rest !! d); [by rewrite andb_false_r in Hf | done].
    + rewrite IH. split.
      * intros [Hle Hf]. split; [lia |].
        replace (k - k0) with (S (k - S k0)) by lia.
        unfold is_first_containing in *. simpl. rewrite Hq. simpl. exact Hf.
      * intros [Hle Hf]. destruct (k - k0) as [| d] eqn:Hd.
        -- unfold is_first_containing in Hf. simpl in Hf. by rewrite Hq in Hf.
        -- split; [lia |]. replace (k - S k0) with d by lia.
           unfold is_first_containing in *. simpl in Hf. rewrite Hq in Hf. exact Hf.
Qed.

Lemma firstContainingTriangle_Some (pixel : Point2 F)
    (polygons : list (Polygon (Point2 F))) (k : nat) :
  firstContainingTriangle pixel polygons 0 = Some k
  <-> is_first_containing pixel polygons k = true.
Proof.
  rewrite firstContainingTriangle_from, Nat.sub_0_r. split; [tauto | split; [lia | done]].
Qed.

Lemma firstContainingTriangle_None (pixel : Point2 F)
    (polygons : list (Polygon (Point2 F))) (k0 : nat) :
  firstContainingTriangle pixel polygons k0 = None
  <-> existsb (polygonContains pixel) polygons = false.
Proof.
  revert k0. induction polygons as [| q rest IH]; intros k0; simpl; [done |].
  destruct (polygonContains pixel q); simpl; [done | apply IH].
Qed.

Lemma is_first_containing_unique (pixel : Point2 F)
    (polygons : list (Polygon (Point2 F))) (k1 k2 : nat) :
  is_first_containing pixel polygons k1 = true ->
  is_first_containing pixel polygons k2 = true -> k1 = k2.
Proof.
  rewrite <- !firstContainingTriangle_Some. congruence.
Qed.

Lemma is_first_containing_exists (pixel : Point2 F)
    (polygons : list (Polygon (Point2 F))) (k : nat) :
  is_first_containing pixel polygons k = true ->
  existsb (polygonContains pixel) polygons = true.
Proof.
  rewrite <- firstContainingTriangle_Some. intros H.
  apply not_false_iff_true. rewrite <- (firstContainingTriangle_None _ _ 0). congruence.
Qed.

Lemma push_back_lookup {A} (m : gmap nat (list A)) (k k' : nat) (a : A) :
  default [] (push_back m k' a !! k)
  = if bool_decide (k = k') then default [] (m !! k) ++ [a] else default [] (m !! k).
Proof.
  unfold push_back. case_bool_decide as Hk.
  - subst. by rewrite lookup_insert_eq.
  - by rewrite lookup_insert_ne.
Qed.

Section Loop.
Variables (intrinsics : Cal3_S2 D) (extrinsics : Pose3 D) (mesh_2d : Mesh2D F).

Local Abbreviation project :=
  (fun lmk => generatePixelFromLandmarkGivenCamera lmk extrinsics intrinsics).
Local Abbreviation assigned_to := (assigned intrinsics extrinsics mesh_2d).
Local Abbreviation matched_in := (matched intrinsics extrinsics mesh_2d).

Lemma associatePoint_corresp (acc : Association F) (lmk : Point3 F) (k : nat) :
  default [] (corresp (associatePoint intrinsics extrinsics mesh_2d acc lmk) !! k)
  = default [] (corresp acc !! k) ++ assigned_to k [lmk].
Proof.
  unfold associatePoint, assigned. simpl.
  destruct (firstContainingTriangle _ _ 0) as [k' |] eqn:Hf; simpl.
  - rewrite push_back_lookup. apply firstContainingTriangle_Some in Hf.
    case_bool_decide as Hk.
    + subst. by rewrite Hf.
    + destruct (is_first_containing _ (polygons_2d mesh_2d) k) eqn:Hk'.
      * exfalso. apply Hk. eapply is_first_containing_unique; eauto.
      * by rewrite app_nil_r.
  - destruct (is_first_containing _ (polygons_2d mesh_2d) k) eqn:Hk'.
    + apply firstContainingTriangle_Some in Hk'. congruence.
    + by rewrite app_nil_r.
Qed.

Lemma associatePoint_pixels (acc : Association F) (lmk : Point3 F) (k : nat) :
  default [] (pixel_corresp (associatePoint intrinsics extrinsics mesh_2d acc lmk) !! k)
  = default [] (pixel_corresp acc !! k) ++ map project (assigned_to k [lmk]).
Proof.
  unfold associatePoint, assigned. simpl.
  destruct (firstContainingTriangle _ _ 0) as [k' |] eqn:Hf; simpl.
  - rewrite push_back_lookup. apply firstContainingTriangle_Some in Hf.
    case_bool_decide as Hk.
    + subst. by rewrite Hf.
    + destruct (is_first_containing _ (polygons_2d mesh_2d) k) eqn:Hk'.
      * exfalso. apply Hk. eapply is_first_containing_unique; eauto.
      * by rewrite app_nil_r.
  - destruct (is_first_containing _ (polygons_2d mesh_2d) k) eqn:Hk'.
    + apply firstContainingTriangle_Some in Hk'. congruence.
    + by rewrite app_nil_r.
Qed.

Lemma associatePoint_count (acc : Association F) (lmk : Point3 F) :
  number_of_valid_datapoints (associatePoint intrinsics extrinsics mesh_2d acc lmk)
  = number_of_valid_datapoints acc + length (matched_in [lmk]).
Proof.
  unfold associatePoint, matched. simpl.
  destruct (firstContainingTriangle _ _ 0) as [k' |] eqn:Hf; simpl.
  - apply firstContainingTriangle_Some, is_first_containing_exists in Hf.
    rewrite Hf. simpl. lia.
  - apply firstContainingTriangle_None in Hf. rewrite Hf. simpl. lia.
Qed.

Lemma associate_fold (cloud : list (Point3 F)) (acc : Association F) :
  let acc' := foldl (associatePoint intrinsics extrinsics mesh_2d) acc cloud in
  (forall k, default [] (corresp acc' !! k)
             = default [] (corresp acc !! k) ++ assigned_to k cloud)
  /\ (forall k, default [] (pixel_corresp acc' !! k)
                = default [] (pixel_corresp acc !! k) ++ map project (assigned_to k cloud))
  /\ number_of_valid_datapoints acc'
     = number_of_valid_datapoints acc + length (matched_in cloud).
Proof.
  revert acc. induction cloud as [| lmk rest IH]; intros acc; simpl.
  - split_and!; intros; rewrite ?app_nil_r; try done.
  - destruct (IH (associatePoint intrinsics extrinsics mesh_2d acc lmk)) as (Hc & Hp & Hn).
    split_and!.
    + intros k. rewrite Hc, associatePoint_corresp, <- app_assoc. f_equal.
      unfold assigned. simpl. by destruct (is_first_containing _ _ k).
    + intros k. rewrite Hp, associatePoint_pixels, <- app_assoc. f_equal.
      unfold assigned. simpl. by destruct (is_first_containing _ _ k).
    + rewrite Hn, associatePoint_count. unfold matched. simpl.
      destruct (existsb _ _); simpl; lia.
Qed.
End Loop.
End AssociationProps.

Lemma filter_all_true {A} (f : A -> bool) (l : list A) :
  (forall a, f a = true) -> List.filter f l = l.
Proof. intros H. induction l as [| a l IH]; simpl; [done |]. by rewrite H, IH. Qed.

Lemma filter_all_false {A} (f : A -> bool) (l : list A) :
  (forall a, f a = false) -> List.filter f l = [].
Proof. intros H. induction l as [| a l IH]; simpl; [done |]. by rewrite H, IH. Qed.

Section AssociationClaims.
Context {F D : Type} {N : Numerics F D}.

Lemma collect_fold (st : Statics D) (noisy_point_cloud : PointCloud F)
    (mesh_2d : Mesh2D F) (camera_params : CameraParams D) :
  fst (collectTriangleDataPoints st noisy_point_cloud mesh_2d camera_params)
  = foldl (associatePoint
             (static_const (collect_gtsam_intrinsics st) (make_intrinsics camera_params))
             (body_Pose_cam_ camera_params) mesh_2d)
          (mkAssociation ∅ ∅ 0) (pc_points noisy_point_cloud).
Proof.
  unfold collectTriangleDataPoints. by destruct (pc_points noisy_point_cloud).
Qed.

(** The per-triangle lists and the counter that the call leaves. *)
Lemma collect_assigned (st : Statics D) (noisy_point_cloud : PointCloud F)
    (mesh_2d : Mesh2D F) (camera_params : CameraParams D) :
  let intrinsics :=
    static_const (collect_gtsam_intrinsics st) (make_intrinsics camera_params) in
  let extrinsics := body_Pose_cam_ camera_params in
  let cloud := pc_points noisy_point_cloud in
  let assoc := fst (collectTriangleDataPoints st noisy_point_cloud mesh_2d camera_params) in
  (forall k, default [] (corresp assoc !! k) = assigned intrinsics extrinsics mesh_2d k cloud)
  /\ (forall k, default [] (pixel_corresp assoc !! k)
                = map (fun lmk => generatePixelFromLandmarkGivenCamera lmk extrinsics intrinsics)
                      (assigned intrinsics extrinsics mesh_2d k cloud))
  /\ number_of_valid_datapoints assoc
     = length (matched intrinsics extrinsics mesh_2d cloud).
Proof.
  intros intrinsics extrinsics cloud assoc.
  subst assoc. rewrite collect_fold. fold intrinsics extrinsics cloud.
  destruct (associate_fold intrinsics extrinsics mesh_2d cloud (mkAssociation ∅ ∅ 0))
    as (Hc & Hp & Hn).
  simpl in Hc, Hp, Hn. split_and!.
  - intros k. by rewrite Hc, lookup_empty.
  - intros k. by rewrite Hp, lookup_empty.
  - by rewrite Hn.
Qed.

(** C5: every sample is projected with the camera parameters and recorded,
    with its pixel, under the first triangle in storage order whose polygon
    contains the pixel, and under no other; a sample whose pixel lies in no
    triangle is in no list; the counter is the number of recorded samples. *)
Theorem collectTriangleDataPoints_first_match (st : Statics D)
    (noisy_point_cloud : PointCloud F) (mesh_2d : Mesh2D F)
    (camera_params : CameraParams D) :
  let intrinsics :=
    static_const (collect_gtsam_intrinsics st) (make_intrinsics camera_params) in
  let extrinsics := body_Pose_cam_ camera_params in
  let project := fun lmk => generatePixelFromLandmarkGivenCamera lmk extrinsics intrinsics in
  let cloud := pc_points noisy_point_cloud in
  let assoc := fst (collectTriangleDataPoints st noisy_point_cloud mesh_2d camera_params) in
  (forall k, default [] (corresp assoc !! k) = assigned intrinsics extrinsics mesh_2d k cloud)
  /\ (forall k, default [] (pixel_corresp assoc !! k)
                = map project (assigned intrinsics extrinsics mesh_2d k cloud))
  /\ (forall lmk k1 k2,
        In lmk (default [] (corresp assoc !! k1)) ->
        In lmk (default [] (corresp assoc !! k2)) -> k1 = k2)
  /\ (forall lmk,
        existsb (polygonContains (project lmk)) (polygons_2d mesh_2d) = false ->
        forall k, ~ In lmk (default [] (corresp assoc !! k)))
  /\ number_of_valid_datapoints assoc
     = length (matched intrinsics extrinsics mesh_2d cloud).
Proof.
  intros intrinsics extrinsics project cloud assoc.
  destruct (collect_assigned st noisy_point_cloud mesh_2d camera_params) as (Hc & Hp & Hn).
  fold intrinsics extrinsics cloud assoc in Hc, Hp, Hn.
  assert (Hmem : forall lmk k,
            In lmk (assigned intrinsics extrinsics mesh_2d k cloud) ->
            is_first_containing (project lmk) (polygons_2d mesh_2d) k = true).
  { intros lmk k Hin. unfold assigned in Hin. by apply filter_In in Hin as [_ ?]. }
  split_and!; try done.
  - intros lmk k1 k2. rewrite !Hc. intros H1 H2.
    eapply is_first_containing_unique; eauto.
  - intros lmk Hno k. rewrite Hc. intros Hin.
    apply Hmem, is_first_containing_exists in Hin. congruence.
Qed.

(** The static intrinsics of [solveOptimalMesh] and the counter play no
    part in data association. *)
Lemma collect_statics_irrelevant (st st' : Statics D) (noisy_point_cloud : PointCloud F)
    (mesh_2d : Mesh2D F) (camera_params : CameraParams D) :
  collect_gtsam_intrinsics st = collect_gtsam_intrinsics st' ->
  fst (collectTriangleDataPoints st noisy_point_cloud mesh_2d camera_params)
  = fst (collectTriangleDataPoints st' noisy_point_cloud mesh_2d camera_params).
Proof. intros H. rewrite !collect_fold. by rewrite H. Qed.

(** A first triangle that contains every pixel captures every sample. *)
Lemma greedy_first_triangle (st : Statics D) (noisy_point_cloud : PointCloud F)
    (mesh_2d : Mesh2D F) (camera_params : CameraParams D)
    (polygon : Polygon (Point2 F)) (rest : list (Polygon (Point2 F))) :
  polygons_2d mesh_2d = polygon :: rest ->
  (forall pixel, polygonContains pixel polygon = true) ->
  let assoc := fst (collectTriangleDataPoints st noisy_point_cloud mesh_2d camera_params) in
  default [] (corresp assoc !! 0) = pc_points noisy_point_cloud
  /\ (forall k, k <> 0 -> default [] (corresp assoc !! k) = [])
  /\ number_of_valid_datapoints assoc = pc_cols noisy_point_cloud.
Proof.
  intros Hpoly Hall assoc.
  destruct (collect_assigned st noisy_point_cloud mesh_2d camera_params) as (Hc & _ & Hn).
  fold assoc in Hc, Hn. split_and!.
  - rewrite Hc. unfold assigned. rewrite Hpoly. apply filter_all_true.
    intros lmk. unfold is_first_containing. simpl. by rewrite Hall.
  - intros k Hk. rewrite Hc. unfold assigned. rewrite Hpoly. apply filter_all_false.
    intros lmk. destruct k as [| k']; [done |].
    unfold is_first_containing. simpl. rewrite Hall. simpl.
    by destruct (rest !! k'); rewrite ?andb_false_r.
  - rewrite Hn. unfold matched, pc_cols. rewrite Hpoly. f_equal. apply filter_all_true.
    intros lmk. simpl. by rewrite Hall.
Qed.
End AssociationClaims.

(** C10: [pointInTriangle p v v v] is true for every query point and every
    vertex, in exact arithmetic and on IEEE floats alike (there the three
    edge signs are zeros or NaNs); a mesh whose first triangle has three
    coinciding vertices therefore records every sample under triangle 0. *)
Theorem pointInTriangle_collapsed :
  (forall p v : Point2 R,
      sign (N := Numerics_R) p v v = 0%R
      /\ pointInTriangle (N := Numerics_R) p v v v = true)
  /\ (forall p v : Point2 float32,
        zero_or_nan (f32_val (sign (N := Numerics_IEEE) p v v)) = true
        /\ pointInTriangle (N := Numerics_IEEE) p v v v = true)
  /\ (forall (st : Statics float64) (noisy_point_cloud : PointCloud float32)
        (mesh_2d : Mesh2D float32) (camera_params : CameraParams float64)
        (l0 l1 l2 : LandmarkId) (v : Point2 float32)
        (rest : list (Polygon (Point2 float32))),
        polygons_2d mesh_2d = triangle_of l0 l1 l2 v v v :: rest ->
        let assoc :=
          fst (collectTriangleDataPoints (N := Numerics_IEEE) st noisy_point_cloud
                 mesh_2d camera_params) in
        default [] (corresp assoc !! 0) = pc_points noisy_point_cloud
        /\ (forall k, k <> 0 -> default [] (corresp assoc !! k) = [])
        /\ number_of_valid_datapoints assoc = pc_cols noisy_point_cloud).
Proof.
  split_and!.
  - intros p v. split; [rewrite sign_R; ring | apply pointInTriangle_collapsed_R].
  - intros p v. split; [apply sign_collapsed_IEEE | apply pointInTriangle_collapsed_IEEE].
  - intros st cloud mesh cam l0 l1 l2 v rest Hpoly.
    apply (greedy_first_triangle st cloud mesh cam _ rest Hpoly).
    intros pixel. apply pointInTriangle_collapsed_IEEE.
Qed.

(** Four samples over the square mesh, hidden behind a collapsed triangle
    far away from their pixels. *)
Lemma pointInTriangle_collapsed_witness :
  let cloud := cloud_of [point_at 1 1 1; point_at 2 1 1; point_at 9 9 1; point_at 8 9 1] in
  let assoc :=
    fst (collectTriangleDataPoints (N := Numerics_IEEE) fresh_statics cloud
           collapsed_first_mesh (camera_with_focal 1)) in
  default [] (corresp assoc !! 0) = pc_points cloud
  /\ (forall k, k <> 0 -> default [] (corresp assoc !! k) = [])
  /\ number_of_valid_datapoints assoc = 4.
Proof.
  intros cloud assoc.
  destruct pointInTriangle_collapsed as (_ & _ & H).
  exact (H fresh_statics cloud collapsed_first_mesh (camera_with_focal 1)
           4%Z 4%Z 4%Z (pixel_at 50 50) (polygons_2d square_mesh) eq_refl).
Defined.

(** ** The failure monad and the loops *)

Lemma bind_Ok {A B} (m : result A) (f : A -> result B) (b : B) :
  m ≫= f = Ok b <-> exists a, m = Ok a /\ f a = Ok b.
Proof.
  destruct m as [a | e]; simpl; split.
  - intros H. by exists a.
  - by intros (a' & [= <-] & H).
  - done.
  - by intros (a' & H & _).
Qed.

Lemma bind_Abort {A B} (m : result A) (f : A -> result B) (e : Failure) :
  m ≫= f = Abort e <-> m = Abort e \/ exists a, m = Ok a /\ f a = Abort e.
Proof.
  destruct m as [a | e']; simpl; split.
  - intros H. right. by exists a.
  - intros [H | (a' & [= <-] & H)]; done.
  - intros [= ->]. by left.
  - intros [[= ->] | (a' & H & _)]; done.
Qed.

Lemma CHECK_Ok (e : Failure) (b : bool) : CHECK e b = Ok tt <-> b = true.
Proof. by destruct b. Qed.

Lemma CHECK_Abort (e e' : Failure) (b : bool) :
  CHECK e b = Abort e' <-> b = false /\ e' = e.
Proof. destruct b; simpl; split; try done; [by intros [? ?] | by intros [= ->] | by intros [_ ->]]. Qed.

Lemma foldM_invariant {A B} (P : B -> Prop) (f : B -> A -> result B) (l : list A) :
  (forall b a b', P b -> f b a = Ok b' -> P b') ->
  forall b b', P b -> foldM f l b = Ok b' -> P b'.
Proof.
  intros Hstep. induction l as [| a l IH]; intros b b' Hb; simpl.
  - by intros [= <-].
  - intros (b1 & H1 & H2)%bind_Ok. eapply IH; [| exact H2]. eauto.
Qed.

Lemma foldM_abort {A B} (Q : Failure -> Prop) (f : B -> A -> result B) (l : list A) :
  (forall b a e, f b a = Abort e -> Q e) ->
  forall b e, foldM f l b = Abort e -> Q e.
Proof.
  intros Hstep. induction l as [| a l IH]; intros b e; simpl; [done |].
  intros [H | (b1 & H1 & H2)]%bind_Abort; eauto.
Qed.

Lemma foldM_all_Ok {A B} (f : B -> A -> result B) (g : B -> A -> B) (l : list A) (b : B) :
  (forall b a, f b a = Ok (g b a)) -> foldM f l b = Ok (foldl g b l).
Proof.
  intros H. revert b. induction l as [| a l IH]; intros b; simpl; [done |].
  rewrite H. simpl. apply IH.
Qed.

(** ** The triangle loop *)

Section SolverProps.
Context {F D : Type} {N : Numerics F D} {E : External F D}.

Lemma same_system_refl (s : BuildState F D) : same_system s s.
Proof. by repeat split. Qed.

Lemma same_system_trans (s1 s2 s3 : BuildState F D) :
  same_system s1 s2 -> same_system s2 s3 -> same_system s1 s3.
Proof. unfold same_system. intuition congruence. Qed.

Lemma bearingOfVertex_Ok (k : Cal3_S2 D) (mesh_2d : Mesh2D F) (s : BuildState F D)
    (vtx : Vertex (Point2 F)) (vtx_id : nat) :
  getVtxIdForLmkId mesh_2d (getLmkId vtx) = Some vtx_id ->
  bearingOfVertex k mesh_2d s vtx
  = Ok (set_caches s vtx_id (getBearingVectorFrom2DPixel k (getVertexPosition vtx))
                   (getVertexPosition vtx),
        vtx_id, getBearingVectorFrom2DPixel k (getVertexPosition vtx)).
Proof. unfold bearingOfVertex. by intros ->. Qed.

Lemma bearingOfVertex_inv (k : Cal3_S2 D) (mesh_2d : Mesh2D F) (s s' : BuildState F D)
    (vtx : Vertex (Point2 F)) (vtx_id : nat) (bv : Point3 F) :
  bearingOfVertex k mesh_2d s vtx = Ok (s', vtx_id, bv) -> same_system s s'.
Proof.
  unfold bearingOfVertex. destruct (getVtxIdForLmkId _ _); [| done].
  intros [= <- <- <-]. by repeat split.
Qed.

Lemma bearingOfVertex_abort (k : Cal3_S2 D) (mesh_2d : Mesh2D F) (s : BuildState F D)
    (vtx : Vertex (Point2 F)) (e : Failure) :
  bearingOfVertex k mesh_2d s vtx = Abort e -> e = CheckFailed.
Proof. unfold bearingOfVertex. destruct (getVtxIdForLmkId _ _); [done | by intros [= <-]]. Qed.

(** *** The [switch] of the triangle loop *)

Lemma triangleSwitch_gtsam (tri : Triangle F) (sY : BuildState F D * list (list F)) :
  c_switch kGtsamMesh (triangleSwitch kGtsamMesh tri) sY
  = Ok (foldl (fun acc pl => add_factor acc (ternaryFactor (fst sY) tri (fst pl) (snd pl)))
              (fst sY) (zip (datapoint_pixels tri) (triangle_datapoints tri)),
        snd sY).
Proof. reflexivity. Qed.

(** Every strategy but the factor graph enters at [default:] and leaves at
    its [break]: the statement after the block is never executed. *)
Lemma triangleSwitch_default (mesh_optimizer_type_ : MeshOptimizerType)
    (tri : Triangle F) (sY : BuildState F D * list (list F)) :
  mesh_optimizer_type_ <> kGtsamMesh ->
  c_switch mesh_optimizer_type_ (triangleSwitch mesh_optimizer_type_ tri) sY
  = foldM (solveDatapoint mesh_optimizer_type_ tri) (triangle_datapoints tri) sY.
Proof.
  intros Hty.
  destruct mesh_optimizer_type_; try done;
    unfold c_switch, triangleSwitch, defaultBlock; simpl;
    by destruct (foldM _ _ _).
Qed.

Lemma add_factors_mesh (s : BuildState F D) (fs : list (JacobianFactor D)) :
  reconstructed_mesh (foldl add_factor s fs) = reconstructed_mesh s
  /\ statics (foldl add_factor s fs) = statics s
  /\ vtx_ids_to_ys (foldl add_factor s fs) = vtx_ids_to_ys s
  /\ n_datapoint (foldl add_factor s fs) = n_datapoint s
  /\ factor_graph (foldl add_factor s fs) = factor_graph s ++ fs.
Proof.
  revert s. induction fs as [| f fs IH]; intros s; simpl.
  - by rewrite app_nil_r.
  - destruct (IH (add_factor s f)) as (-> & -> & -> & -> & ->). simpl.
    by rewrite <- app_assoc.
Qed.

Lemma foldl_add_factor_map {A} (g : A -> JacobianFactor D) (s : BuildState F D) (l : list A) :
  foldl (fun acc a => add_factor acc (g a)) s l = foldl add_factor s (map g l).
Proof. revert s. induction l as [| a l IH]; intros s; simpl; [done | apply IH]. Qed.

Lemma solveDatapoint_mesh (mesh_optimizer_type_ : MeshOptimizerType) (tri : Triangle F)
    (sY sY' : BuildState F D * list (list F)) (datapoint : Point3 F) :
  solveDatapoint mesh_optimizer_type_ tri sY datapoint = Ok sY' ->
  reconstructed_mesh (fst sY') = reconstructed_mesh (fst sY)
  /\ statics (fst sY') = statics (fst sY)
  /\ factor_graph (fst sY') = factor_graph (fst sY).
Proof.
  unfold solveDatapoint.
  destruct (cv_solve _ _ _) as [| y0 [| y1 [| y2 [| ? ?]]]]; try done.
  destruct mesh_optimizer_type_; intros [= <-]; try done.
  unfold store_ys. simpl. by destruct (vtx_ids tri) as [[? ?] ?].
Qed.

Lemma solveDatapoint_abort (mesh_optimizer_type_ : MeshOptimizerType) (tri : Triangle F)
    (sY : BuildState F D * list (list F)) (datapoint : Point3 F) (e : Failure) :
  solveDatapoint mesh_optimizer_type_ tri sY datapoint = Abort e -> e = CheckFailed.
Proof.
  unfold solveDatapoint.
  destruct (cv_solve _ _ _) as [| y0 [| y1 [| y2 [| ? ?]]]]; try by intros [= <-].
  destruct mesh_optimizer_type_; try done. by intros [= <-].
Qed.

(** The per-triangle reconstruction of the disconnected strategy is dead
    code: whatever the strategy, the [switch] of the triangle loop leaves
    the output mesh and the static landmark counter as they were. *)
Lemma triangleSwitch_keeps_mesh (mesh_optimizer_type_ : MeshOptimizerType)
    (tri : Triangle F) (sY sY' : BuildState F D * list (list F)) :
  c_switch mesh_optimizer_type_ (triangleSwitch mesh_optimizer_type_ tri) sY = Ok sY' ->
  reconstructed_mesh (fst sY') = reconstructed_mesh (fst sY)
  /\ statics (fst sY') = statics (fst sY).
Proof.
  destruct (decide (mesh_optimizer_type_ = kGtsamMesh)) as [-> | Hty].
  - rewrite triangleSwitch_gtsam. intros [= <-]. simpl.
    rewrite foldl_add_factor_map.
    by destruct (add_factors_mesh (fst sY)
                   (map (fun pl => ternaryFactor (fst sY) tri (fst pl) (snd pl))
                        (zip (datapoint_pixels tri) (triangle_datapoints tri))))
      as (-> & -> & _).
  - rewrite triangleSwitch_default by done.
    apply (foldM_invariant
             (fun x => reconstructed_mesh (fst x) = reconstructed_mesh (fst sY)
                       /\ statics (fst x) = statics (fst sY))); [| done].
    intros b a b' [Hm Hs] Hstep. apply solveDatapoint_mesh in Hstep as (-> & -> & _). done.
Qed.

Lemma triangleSwitch_abort (mesh_optimizer_type_ : MeshOptimizerType)
    (tri : Triangle F) (sY : BuildState F D * list (list F)) (e : Failure) :
  c_switch mesh_optimizer_type_ (triangleSwitch mesh_optimizer_type_ tri) sY = Abort e ->
  e = CheckFailed.
Proof.
  destruct (decide (mesh_optimizer_type_ = kGtsamMesh)) as [-> | Hty].
  - by rewrite triangleSwitch_gtsam.
  - rewrite triangleSwitch_default by done.
    apply (foldM_abort (fun e => e = CheckFailed)). intros b a e'. apply solveDatapoint_abort.
Qed.

(** *** One iteration *)

Lemma processTriangle_abort (mesh_optimizer_type_ : MeshOptimizerType)
    (k : Cal3_S2 D) (mesh_2d : Mesh2D F) (assoc : Association F)
    (s : BuildState F D) (indexed : nat * Polygon (Point2 F)) (e : Failure) :
  processTriangle mesh_optimizer_type_ k mesh_2d assoc s indexed = Abort e ->
  e = CheckFailed.
Proof.
  unfold processTriangle.
  destruct (bearingOfVertex k mesh_2d s _) as [[[s1 id0] bv0] | e0] eqn:H0; simpl;
    [| intros [= <-]; by eapply bearingOfVertex_abort].
  destruct (bearingOfVertex k mesh_2d s1 _) as [[[s2 id1] bv1] | e1] eqn:H1; simpl;
    [| intros [= <-]; by eapply bearingOfVertex_abort].
  destruct (bearingOfVertex k mesh_2d s2 _) as [[[s3 id2] bv2] | e2] eqn:H2; simpl;
    [| intros [= <-]; by eapply bearingOfVertex_abort].
  destruct (_ <? 3); [done |].
  destruct (c_switch _ _ _) as [sY | e'] eqn:Hsw; simpl; [done |].
  intros [= <-]. by eapply triangleSwitch_abort.
Qed.

Lemma processTriangle_mesh (mesh_optimizer_type_ : MeshOptimizerType)
    (k : Cal3_S2 D) (mesh_2d : Mesh2D F) (assoc : Association F)
    (s s' : BuildState F D) (indexed : nat * Polygon (Point2 F)) :
  processTriangle mesh_optimizer_type_ k mesh_2d assoc s indexed = Ok s' ->
  reconstructed_mesh s' = reconstructed_mesh s /\ statics s' = statics s.
Proof.
  unfold processTriangle.
  destruct (bearingOfVertex k mesh_2d s _) as [[[s1 id0] bv0] | e0] eqn:H0; simpl; [| done].
  destruct (bearingOfVertex k mesh_2d s1 _) as [[[s2 id1] bv1] | e1] eqn:H1; simpl; [| done].
  destruct (bearingOfVertex k mesh_2d s2 _) as [[[s3 id2] bv2] | e2] eqn:H2; simpl; [| done].
  apply bearingOfVertex_inv in H0 as (_ & _ & _ & Hm0 & Hs0).
  apply bearingOfVertex_inv in H1 as (_ & _ & _ & Hm1 & Hs1).
  apply bearingOfVertex_inv in H2 as (_ & _ & _ & Hm2 & Hs2).
  destruct (_ <? 3).
  - intros [= <-]. split; congruence.
  - destruct (c_switch _ _ _) as [sY | e'] eqn:Hsw; simpl; [| done].
    intros [= <-]. apply triangleSwitch_keeps_mesh in Hsw as [Hm Hs]. simpl in *.
    split; congruence.
Qed.
End SolverProps.

(** ** Skipped triangles *)

Section Skipped.
Existing Instance Numerics_IEEE.
Existing Instance External_ones.

(** C7: a triangle with fewer than three associated samples is skipped:
    the iteration of the triangle loop ends without failure and leaves the
    matrix Y, its row counter, the factor graph, the output mesh and the
    statics untouched (only the two vertex caches are written); and a call
    in which a triangle is skipped still returns a mesh: over the square
    mesh with two samples in the first triangle and three in the second,
    the factor-graph strategy returns both polygons (run with
    [External_ones]), and with two samples in each triangle the closed-form
    strategy returns, whatever the libraries compute. *)
Theorem underconstrained_triangle_skipped :
  (forall (F D : Type) (N : Numerics F D) (E : External F D)
      (mesh_optimizer_type_ : MeshOptimizerType) (gtsam_intrinsics : Cal3_S2 D)
      (mesh_2d : Mesh2D F) (assoc : Association F) (s : BuildState F D)
      (tri_idx : nat) (polygon_2d : Polygon (Point2 F)),
      length (default [] (corresp assoc !! tri_idx)) < 3 ->
      is_Some (getVtxIdForLmkId mesh_2d (getLmkId (at_0 polygon_2d))) ->
      is_Some (getVtxIdForLmkId mesh_2d (getLmkId (at_1 polygon_2d))) ->
      is_Some (getVtxIdForLmkId mesh_2d (getLmkId (at_2 polygon_2d))) ->
      exists s',
        processTriangle mesh_optimizer_type_ gtsam_intrinsics mesh_2d assoc s
                        (tri_idx, polygon_2d) = Ok s'
        /\ same_system s s')
  /\ (let assoc :=
        fst (collectTriangleDataPoints (N := Numerics_IEEE) fresh_statics
               cloud_two_three square_mesh (camera_with_focal 1)) in
      length (default [] (corresp assoc !! 0)) = 2
      /\ exists mesh st,
           solveOptimalMesh (N := Numerics_IEEE) (E := External_ones) kGtsamMesh
             fresh_statics cloud_two_three (camera_with_focal 1) square_mesh
           = Ok (mesh, st)
           /\ polygons_3d mesh = [[0; 1; 3]; [1; 2; 3]]%Z)
  /\ (forall E : External float32 float64,
        exists st,
          solveOptimalMesh (N := Numerics_IEEE) (E := E) kClosedForm fresh_statics
            cloud_depth_1 (camera_with_focal 1) square_mesh = Ok (empty_mesh, st)).
Proof.
  split_and!.
  - intros F D N E ty k mesh assoc s tri_idx poly Hlen [id0 H0] [id1 H1] [id2 H2].
    unfold processTriangle. simpl.
    rewrite (bearingOfVertex_Ok k mesh s _ id0 H0). simpl.
    rewrite (bearingOfVertex_Ok k mesh _ _ id1 H1). simpl.
    rewrite (bearingOfVertex_Ok k mesh _ _ id2 H2). simpl.
    apply Nat.ltb_lt in Hlen. rewrite Hlen.
    eexists. split; [reflexivity |]. by repeat split.
  - split; [by vm_compute |].
    eexists _, _. split; [vm_compute; reflexivity | reflexivity].
  - intros E. eexists. vm_compute. reflexivity.
Qed.

(** The first triangle of the square mesh with two samples. *)
Lemma underconstrained_triangle_skipped_witness :
  let assoc :=
    fst (collectTriangleDataPoints (N := Numerics_IEEE) fresh_statics
           cloud_two_three square_mesh (camera_with_focal 1)) in
  let s := initial_state square_mesh assoc fresh_statics in
  exists s',
    processTriangle (N := Numerics_IEEE) (E := External_ones) kGtsamMesh
      (make_intrinsics (camera_with_focal 1)) square_mesh assoc s
      (0, triangle_of 0 1 3 (pixel_at 0 0) (pixel_at 10 0) (pixel_at 0 10)) = Ok s'
    /\ same_system s s'.
Proof.
  intros assoc s.
  destruct underconstrained_triangle_skipped as (H & _ & _).
  apply H.
  - vm_compute. lia.
  - by eexists.
  - by eexists.
  - by eexists.
Defined.
End Skipped.

(** ** The call *)

Section CallProps.
Context {F D : Type} {N : Numerics F D} {E : External F D}.

Lemma checkInputs_abort (noisy_point_cloud : PointCloud F) (mesh_2d : Mesh2D F)
    (e : Failure) :
  checkInputs noisy_point_cloud mesh_2d = Abort e -> e = InvalidInput.
Proof.
  unfold checkInputs.
  repeat (destruct (_ <? _) || destruct (_ =? _)); simpl; by intros [= <-].
Qed.

Lemma checkAssociation_Abort (assoc : Association F) (e : Failure) :
  checkAssociation assoc = Abort e
  <-> e = InsufficientData
      /\ (number_of_valid_datapoints assoc < 4 \/ size (corresp assoc) = 0).
Proof.
  unfold checkAssociation.
  destruct (3 <? number_of_valid_datapoints assoc) eqn:Hn; simpl.
  - apply Nat.ltb_lt in Hn.
    destruct (0 <? size (corresp assoc)) eqn:Hs; simpl.
    + apply Nat.ltb_lt in Hs. split; [done | intros [_ [? | ?]]; lia].
    + apply Nat.ltb_ge in Hs. split; [intros [= <-]; split; [done | lia] | by intros [-> _]].
  - apply Nat.ltb_ge in Hn. split; [intros [= <-]; split; [done | lia] | by intros [-> _]].
Qed.

Lemma checkAssociation_Ok (assoc : Association F) :
  checkAssociation assoc = Ok tt
  <-> 4 <= number_of_valid_datapoints assoc /\ 0 < size (corresp assoc).
Proof.
  unfold checkAssociation.
  destruct (3 <? number_of_valid_datapoints assoc) eqn:Hn; simpl.
  - apply Nat.ltb_lt in Hn. rewrite CHECK_Ok, Nat.ltb_lt. lia.
  - apply Nat.ltb_ge in Hn. split; [done | lia].
Qed.

Lemma addSprings_abort (adjacency_matrix : MatView Z)
    (graph : list (JacobianFactor D)) (e : Failure) :
  addSprings adjacency_matrix graph = Abort e -> e = CheckFailed.
Proof.
  unfold addSprings. apply (foldM_abort (fun e => e = CheckFailed)).
  intros g i e'. generalize (seq 0 (mat_cols adjacency_matrix)). intros js. revert g.
  induction js as [| j js IH]; intros g; simpl; [done |].
  destruct (j <? i); [apply IH |].
  destruct (j =? i); simpl; [done | by intros [= <-]].
Qed.

Lemma reconstructGtsamPolygon_abort (mesh_2d : Mesh2D F) (s : BuildState F D)
    (actual hessian : gmap nat D) (poly_2d : list (Vertex (Point2 F)))
    (poly_3d : list (Vertex3D F D)) (e : Failure) :
  reconstructGtsamPolygon mesh_2d s actual hessian poly_2d poly_3d = Abort e ->
  e = CheckFailed.
Proof.
  revert poly_3d. induction poly_2d as [| v rest IH]; intros poly_3d; simpl; [done |].
  unfold reconstructGtsamVertex.
  destruct (getVtxIdForLmkId _ _); simpl; [| by intros [= <-]].
  destruct (actual !! _); simpl; [| done].
  destruct (hessian !! _); simpl; [apply IH | by intros [= <-]].
Qed.

Lemma finalSwitch_abort (mesh_optimizer_type_ : MeshOptimizerType)
    (mesh_2d : Mesh2D F) (s : BuildState F D) (e : Failure) :
  finalSwitch mesh_optimizer_type_ mesh_2d s = Abort e ->
  e = CheckFailed \/ e = SingularSystem.
Proof.
  destruct mesh_optimizer_type_; simpl; try done.
  - unfold solveConnected. intros H. left. revert H.
    apply (foldM_abort (fun e => e = CheckFailed)). intros b k e'.
    unfold setConnectedVertex.
    destruct (getLmkIdForVtxId _ _); [| by intros [= <-]].
    destruct (setVertexPosition _ _ _); [done | by intros [= <-]].
  - unfold solveGtsam.
    intros [H | (graph & Hg & H)]%bind_Abort; [left; by eapply addSprings_abort |].
    apply bind_Abort in H as [H | (actual & Ha & H)].
    + right. destruct (gtsam_optimize graph); simpl in H; [done | by injection H].
    + left. revert H. apply (foldM_abort (fun e => e = CheckFailed)). intros b p e'.
      unfold addGtsamPolygon.
      intros [H | (r & Hr & H)]%bind_Abort; [by eapply reconstructGtsamPolygon_abort |].
      by destruct r.
Qed.

(** C3: for inputs that pass the entry checks, the call fails with
    InsufficientData exactly when fewer than 4 samples were matched or no
    triangle received a sample (the two checks that follow data
    association); with 4 or more matched samples on at least one triangle
    both checks pass and the call proceeds to the triangle loop. *)
Theorem insufficient_data_iff (mesh_optimizer_type_ : MeshOptimizerType)
    (st : Statics D) (noisy_point_cloud : PointCloud F)
    (camera_params : CameraParams D) (mesh_2d : Mesh2D F) :
  checkInputs noisy_point_cloud mesh_2d = Ok tt ->
  let assoc := fst (collectTriangleDataPoints st noisy_point_cloud mesh_2d camera_params) in
  (solveOptimalMesh mesh_optimizer_type_ st noisy_point_cloud camera_params mesh_2d
     = Abort InsufficientData
   <-> number_of_valid_datapoints assoc < 4 \/ size (corresp assoc) = 0)
  /\ (checkAssociation assoc = Abort InsufficientData
      <-> number_of_valid_datapoints assoc < 4 \/ size (corresp assoc) = 0)
  /\ (4 <= number_of_valid_datapoints assoc /\ 0 < size (corresp assoc)
      <-> checkAssociation assoc = Ok tt).
Proof.
  intros Hin assoc. split_and!.
  - unfold solveOptimalMesh. rewrite Hin. simpl.
    set (st1 := mkStatics _ _ _).
    assert (Hassoc : fst (collectTriangleDataPoints st1 noisy_point_cloud mesh_2d camera_params)
                     = assoc) by (by apply collect_statics_irrelevant).
    destruct (collectTriangleDataPoints st1 _ _ _) as [assoc1 st2]. simpl in Hassoc.
    subst assoc1.
    destruct (checkAssociation assoc) as [[] | e] eqn:Hchk; simpl.
    + apply checkAssociation_Ok in Hchk. split; [| lia].
      intros [H | (s1 & _ & H)]%bind_Abort.
      * apply (foldM_abort (fun e => e = CheckFailed)) in H; [done |].
        intros b a e'. apply processTriangle_abort.
      * apply bind_Abort in H as [H | (s2 & _ & H)]; [| done].
        by apply finalSwitch_abort in H as [? | ?].
    + apply checkAssociation_Abort in Hchk as [-> Hor]. done.
  - rewrite checkAssociation_Abort. tauto.
  - by rewrite checkAssociation_Ok.
Qed.
End CallProps.

Section CallRuns.
Existing Instance Numerics_IEEE.
Existing Instance External_ones.

(** Four samples inside the single triangle pass the checks; four samples
    that project off the square mesh end the call with InsufficientData. *)
Lemma insufficient_data_iff_witness :
  checkAssociation
    (fst (collectTriangleDataPoints fresh_statics cloud_in_triangle single_triangle_mesh
            (camera_with_focal 1))) = Ok tt
  /\ solveOptimalMesh kGtsamMesh fresh_statics cloud_off_mesh (camera_with_focal 1)
       square_mesh = Abort InsufficientData.
Proof.
  split.
  - apply (insufficient_data_iff kGtsamMesh fresh_statics cloud_in_triangle
             (camera_with_focal 1) single_triangle_mesh eq_refl).
    vm_compute. lia.
  - apply (insufficient_data_iff kGtsamMesh fresh_statics cloud_off_mesh
             (camera_with_focal 1) square_mesh eq_refl).
    left. vm_compute. lia.
Defined.
End CallRuns.

(** ** The disconnected strategy *)

Section Disconnected.
Context {F D : Type} {N : Numerics F D} {E : External F D}.

(** What the per-triangle reconstruction does when it is run: one polygon
    more, on three vertices under the next three values of the static
    landmark counter. *)
Lemma disconnectedBlock_adds_polygon (tri : Triangle F) (s s' : BuildState F D)
    (Y Y' : list (list F)) (flow : Flow) :
  disconnectedBlock kDisconnectedMesh tri (s, Y) = Ok (s', Y', flow) ->
  let id := static_lmk_id (statics s) in
  polygons_3d (reconstructed_mesh s')
  = polygons_3d (reconstructed_mesh s) ++ [[id; (id + 1)%Z; (id + 2)%Z]]
  /\ static_lmk_id (statics s') = (id + 3)%Z.
Proof.
  unfold disconnectedBlock. simpl.
  destruct (cv_solve _ _ _) as [| p0 [| p1 [| p2 [| ? ?]]]]; try done.
  destruct (triangle_bearing_vectors tri) as [[bv0 bv1] bv2].
  by intros [= <- <- <-].
Qed.

Lemma triangle_loop_keeps_mesh (mesh_optimizer_type_ : MeshOptimizerType)
    (k : Cal3_S2 D) (mesh_2d : Mesh2D F) (assoc : Association F)
    (l : list (nat * Polygon (Point2 F))) (s s' : BuildState F D) :
  foldM (processTriangle mesh_optimizer_type_ k mesh_2d assoc) l s = Ok s' ->
  reconstructed_mesh s' = reconstructed_mesh s /\ statics s' = statics s.
Proof.
  apply (foldM_invariant
           (fun x => reconstructed_mesh x = reconstructed_mesh s
                     /\ statics x = statics s)); [| done].
  intros b a b' [Hm Hs] Hstep. apply processTriangle_mesh in Hstep as [-> ->]. done.
Qed.

(** C1 fails on the code: whenever a call of the disconnected strategy
    returns, it returns the empty mesh (no vertex, no polygon) and leaves
    the static landmark counter where it was, whatever the number of
    triangles and of samples. *)
Theorem disconnected_mesh_stays_empty (st st' : Statics D)
    (noisy_point_cloud : PointCloud F) (camera_params : CameraParams D)
    (mesh_2d : Mesh2D F) (mesh : Mesh3D F D) :
  solveOptimalMesh kDisconnectedMesh st noisy_point_cloud camera_params mesh_2d
    = Ok (mesh, st') ->
  mesh = empty_mesh
  /\ getNumberOfUniqueVertices3D mesh = 0
  /\ getNumberOfPolygons3D mesh = 0
  /\ static_lmk_id st' = static_lmk_id st.
Proof.
  unfold solveOptimalMesh.
  intros ([] & _ & H)%bind_Ok. simpl in H.
  set (st1 := mkStatics _ _ _) in H.
  assert (Hid : static_lmk_id
                  (snd (collectTriangleDataPoints st1 noisy_point_cloud mesh_2d camera_params))
                = static_lmk_id st).
  { unfold collectTriangleDataPoints. by destruct (pc_points noisy_point_cloud). }
  destruct (collectTriangleDataPoints st1 _ _ _) as [assoc st2]. simpl in Hid.
  apply bind_Ok in H as ([] & _ & H).
  apply bind_Ok in H as (s1 & Hloop & H).
  apply triangle_loop_keeps_mesh in Hloop as [Hm Hs]. simpl in Hm, Hs.
  simpl in H. injection H as <- <-. rewrite Hm, Hs.
  by split_and!.
Qed.
End Disconnected.

Section DisconnectedRuns.
Existing Instance Numerics_IEEE.
Existing Instance External_ones.

(** One triangle with four samples: the call returns, and the mesh it
    returns has 0 vertices, not 3. *)
Lemma disconnected_mesh_stays_empty_witness :
  exists mesh st',
    solveOptimalMesh kDisconnectedMesh fresh_statics cloud_in_triangle
      (camera_with_focal 1) single_triangle_mesh = Ok (mesh, st')
    /\ length (default [] (corresp (fst (collectTriangleDataPoints fresh_statics
                 cloud_in_triangle single_triangle_mesh (camera_with_focal 1))) !! 0)) = 4
    /\ getNumberOfUniqueVertices3D mesh = 0.
Proof.
  eexists _, _. split; [vm_compute; reflexivity |]. split; [by vm_compute |].
  eapply (disconnected_mesh_stays_empty fresh_statics _ cloud_in_triangle
            (camera_with_focal 1) single_triangle_mesh).
  vm_compute. reflexivity.
Defined.
End DisconnectedRuns.

(** ** Springs *)

Section Springs.
Context {F D : Type} {N : Numerics F D} {E : External F D}.





End Springs.



(** ** The function-local statics *)

Section StaticsProps.
Context {F D : Type} {N : Numerics F D} {E : External F D}.

(** A call that returns leaves both static intrinsics set: to the value
    they had, or, when the call was the first of the process, to the
    intrinsics of its own camera parameters. *)
Lemma statics_after_call (mesh_optimizer_type_ : MeshOptimizerType)
    (st st' : Statics D) (noisy_point_cloud : PointCloud F)
    (camera_params : CameraParams D) (mesh_2d : Mesh2D F) (mesh : Mesh3D F D) :
  solveOptimalMesh mesh_optimizer_type_ st noisy_point_cloud camera_params mesh_2d
    = Ok (mesh, st') ->
  collect_gtsam_intrinsics st'
    = Some (static_const (collect_gtsam_intrinsics st) (make_intrinsics camera_params))
  /\ solve_gtsam_intrinsics st'
     = Some (static_const (solve_gtsam_intrinsics st) (make_intrinsics camera_params)).
Proof.
  unfold solveOptimalMesh.
  intros ([] & Hin & H)%bind_Ok. simpl in H.
  set (st1 := mkStatics _ _ _) in H.
  assert (Hne : pc_points noisy_point_cloud <> []).
  { unfold checkInputs in Hin.
    destruct (0 <? getNumberOfPolygons mesh_2d); [| done].
    destruct (0 <? getNumberOfUniqueVertices mesh_2d); [| done].
    destruct (pc_rows noisy_point_cloud =? 1); [| done].
    destruct (3 <? pc_cols noisy_point_cloud) eqn:Hc; [| done].
    apply Nat.ltb_lt in Hc. unfold pc_cols in Hc. intros Hnil. rewrite Hnil in Hc.
    simpl in Hc. lia. }
  assert (Hst : snd (collectTriangleDataPoints st1 noisy_point_cloud mesh_2d camera_params)
                = mkStatics
                    (Some (static_const (collect_gtsam_intrinsics st)
                                        (make_intrinsics camera_params)))
                    (solve_gtsam_intrinsics st1) (static_lmk_id st1)).
  { unfold collectTriangleDataPoints. by destruct (pc_points noisy_point_cloud). }
  destruct (collectTriangleDataPoints st1 _ _ _) as [assoc st2]. simpl in Hst. subst st2.
  apply bind_Ok in H as ([] & _ & H).
  apply bind_Ok in H as (s1 & Hloop & H).
  apply triangle_loop_keeps_mesh in Hloop as [_ Hs]. simpl in Hs.
  apply bind_Ok in H as (s2 & Hfin & H). injection H as <- <-.
  assert (Hs2 : statics s2 = statics s1).
  { destruct mesh_optimizer_type_; simpl in Hfin.
    - unfold solveConnected in Hfin. revert Hfin.
      apply (foldM_invariant (fun x => statics x = statics s1)); [| done].
      intros b a b' Hb. unfold setConnectedVertex.
      destruct (getLmkIdForVtxId _ _); [| done].
      destruct (setVertexPosition _ _ _); [| done]. by intros [= <-].
    - by injection Hfin as <-.
    - by injection Hfin as <-.
    - unfold solveGtsam in Hfin.
      apply bind_Ok in Hfin as (graph & _ & Hfin).
      apply bind_Ok in Hfin as (actual & _ & Hfin). revert Hfin.
      apply (foldM_invariant (fun x => statics x = statics s1)); [| done].
      intros b a b' Hb. unfold addGtsamPolygon.
      intros ([poly |] & _ & Hr)%bind_Ok; by injection Hr as <-. }
  rewrite Hs2, Hs. done.
Qed.
End StaticsProps.

(** C2 fails on the code: the intrinsics are read from function-local
    statics that the first call of the process initialises.  Whatever
    OpenCV and gtsam compute, a first call with focal length 2 returns; the
    call with focal length 1 that follows it fails with InsufficientData,
    its samples projected with focal length 2; the same call, with the same
    three inputs, returns a mesh when it is the first of its process. *)
Theorem static_intrinsics_outlive_call (E : External float32 float64) :
  exists st_after st_first,
    solveOptimalMesh (N := Numerics_IEEE) kDisconnectedMesh fresh_statics
      cloud_depth_2 (camera_with_focal 2) square_mesh = Ok (empty_mesh, st_after)
    /\ solveOptimalMesh (N := Numerics_IEEE) kDisconnectedMesh st_after
         cloud_depth_1 (camera_with_focal 1) square_mesh = Abort InsufficientData
    /\ solveOptimalMesh (N := Numerics_IEEE) kDisconnectedMesh fresh_statics
         cloud_depth_1 (camera_with_focal 1) square_mesh = Ok (empty_mesh, st_first).
Proof.
  eexists _, _. split; [vm_compute; reflexivity |].
  split; vm_compute; reflexivity.
Qed.

(** With stand-in solvers that answer ones, the factor-graph strategy
    returns a mesh in both histories, and the two meshes differ: vertex 1
    lies on the bearing ray of focal length 1 in a fresh process, and on
    that of focal length 2 after a call with focal length 2. *)
Lemma static_intrinsics_change_mesh :
  exists st_after mesh_after mesh_first st1 st2,
    solveOptimalMesh (N := Numerics_IEEE) (E := External_ones) kGtsamMesh fresh_statics
      cloud_depth_2 (camera_with_focal 2) square_mesh = Ok (mesh_after, st_after)
    /\ solveOptimalMesh (N := Numerics_IEEE) (E := External_ones) kGtsamMesh st_after
         cloud_in_triangle (camera_with_focal 1) square_mesh = Ok (mesh_after, st1)
    /\ solveOptimalMesh (N := Numerics_IEEE) (E := External_ones) kGtsamMesh fresh_statics
         cloud_in_triangle (camera_with_focal 1) square_mesh = Ok (mesh_first, st2)
    /\ mesh_after <> mesh_first.
Proof.
  eexists _, _, _, _, _. split; [vm_compute; reflexivity |].
  split; [vm_compute; reflexivity |].
  split; [vm_compute; reflexivity |].
  intros H. apply (f_equal (fun m => vertices_3d m !! 1%Z)) in H.
  vm_compute in H. discriminate H.
Qed.

(** * Further properties of the code *)

(** ** Geometry of the classifier and the camera *)

Section ClassifierOrder.
Context {F D : Type} {N : Numerics F D}.

Lemma pointInTriangle_rotate (p v0 v1 v2 : Point2 F) :
  pointInTriangle p v0 v1 v2 = pointInTriangle p v1 v2 v0.
Proof.
  unfold pointInTriangle. simpl.
  destruct (s_ltb (sign p v0 v1) _), (s_ltb (sign p v1 v2) _), (s_ltb (sign p v2 v0) _),
    (s_ltb _ (sign p v0 v1)), (s_ltb _ (sign p v1 v2)), (s_ltb _ (sign p v2 v0)); reflexivity.
Qed.
End ClassifierOrder.

Section ClassifierOrderFloat.

(** X1: a rotation of the three vertices leaves the result of
    [pointInTriangle] unchanged in every number format; a change of winding
    does not: on binary32, for the point (1.75 - 2^-23, 0.625) and the
    triangle (0,0), (1.75,0), (0,9400001), of non-zero area, swapping the
    last two vertices turns the answer from false to true. *)
Theorem pointInTriangle_vertex_order :
  (forall (F D : Type) (N : Numerics F D) (p v0 v1 v2 : Point2 F),
      pointInTriangle p v0 v1 v2 = pointInTriangle p v1 v2 v0
      /\ pointInTriangle p v0 v1 v2 = pointInTriangle p v2 v0 v1)
  /\ (nondegenerate (real2 thin_v0) (real2 thin_v1) (real2 thin_v2)
      /\ pointInTriangle (N := Numerics_IEEE) thin_inner thin_v0 thin_v1 thin_v2 = false
      /\ pointInTriangle (N := Numerics_IEEE) thin_inner thin_v0 thin_v2 thin_v1 = true).
Proof.
  split.
  - intros F D N p v0 v1 v2. split; [apply pointInTriangle_rotate |].
    by rewrite (pointInTriangle_rotate p v2 v0 v1).
  - split; [exact thin_nondegenerate |]. split; vm_compute; reflexivity.
Qed.
End ClassifierOrderFloat.

(** ** Invariants of the association table *)

Section AssociationInvariants.
Context {F D : Type} {N : Numerics F D}.

Lemma push_back_nonempty {A} (m : gmap nat (list A)) (k k' : nat) (a : A) (l : list A) :
  (forall j l', m !! j = Some l' -> l' <> []) ->
  push_back m k' a !! k = Some l -> l <> [].
Proof.
  intros Hm. unfold push_back. destruct (decide (k = k')) as [-> | Hk].
  - rewrite lookup_insert_eq. intros [= <-]. by destruct (default [] (m !! k')).
  - rewrite lookup_insert_ne by done. apply Hm.
Qed.

Lemma associate_fold_nonempty (intrinsics : Cal3_S2 D) (extrinsics : Pose3 D)
    (mesh_2d : Mesh2D F) (cloud : list (Point3 F)) (acc : Association F) :
  (forall k l, corresp acc !! k = Some l -> l <> []) ->
  (forall k l, pixel_corresp acc !! k = Some l -> l <> []) ->
  let acc' := foldl (associatePoint intrinsics extrinsics mesh_2d) acc cloud in
  (forall k l, corresp acc' !! k = Some l -> l <> [])
  /\ (forall k l, pixel_corresp acc' !! k = Some l -> l <> []).
Proof.
  revert acc. induction cloud as [| lmk rest IH]; intros acc Hc Hp; simpl; [done |].
  apply IH; unfold associatePoint;
    destruct (firstContainingTriangle _ _ 0); simpl; try done;
    intros k l; by apply push_back_nonempty.
Qed.

Lemma collect_nonempty_lists (st : Statics D) (noisy_point_cloud : PointCloud F)
    (mesh_2d : Mesh2D F) (camera_params : CameraParams D) :
  let assoc := fst (collectTriangleDataPoints st noisy_point_cloud mesh_2d camera_params) in
  (forall k l, corresp assoc !! k = Some l -> l <> [])
  /\ (forall k l, pixel_corresp assoc !! k = Some l -> l <> []).
Proof.
  simpl. rewrite collect_fold. apply associate_fold_nonempty; simpl; intros k l;
    by rewrite lookup_empty.
Qed.

Lemma is_first_containing_lt (pixel : Point2 F) (polygons : list (Polygon (Point2 F)))
    (k : nat) :
  is_first_containing pixel polygons k = true -> k < length polygons.
Proof.
  unfold is_first_containing. destruct (polygons !! k) eqn:Hk; [| done].
  intros _. by apply lookup_lt_Some in Hk.
Qed.

Lemma assigned_out_of_range (intrinsics : Cal3_S2 D) (extrinsics : Pose3 D)
    (mesh_2d : Mesh2D F) (k : nat) (cloud : list (Point3 F)) :
  getNumberOfPolygons mesh_2d <= k -> assigned intrinsics extrinsics mesh_2d k cloud = [].
Proof.
  intros Hk. unfold assigned. apply filter_all_false. intros lmk.
  apply not_true_is_false. intros H%is_first_containing_lt.
  unfold getNumberOfPolygons in Hk. lia.
Qed.

(** Each pixel has at most one first containing triangle: the indicator
    sums to 1 over the triangles when some triangle contains it, to 0
    otherwise. *)
Lemma first_containing_count (pixel : Point2 F) (polygons : list (Polygon (Point2 F))) :
  list_sum (map (fun k => if is_first_containing pixel polygons k then 1 else 0)
                (seq 0 (length polygons)))
  = if existsb (polygonContains pixel) polygons then 1 else 0.
Proof.
  destruct (firstContainingTriangle pixel polygons 0) as [k0 |] eqn:Hf.
  - pose proof Hf as Hk0. apply firstContainingTriangle_Some in Hk0.
    rewrite (is_first_containing_exists _ _ _ Hk0).
    pose proof (is_first_containing_lt _ _ _ Hk0) as Hlt.
    assert (Hind : forall k, (if is_first_containing pixel polygons k then 1 else 0)
                             = if bool_decide (k = k0) then 1 else 0).
    { intros k. case_bool_decide as Hk.
      - subst. by rewrite Hk0.
      - destruct (is_first_containing pixel polygons k) eqn:Hk'; [| done].
        exfalso. apply Hk. eapply is_first_containing_unique; eauto. }
    rewrite (map_ext _ _ Hind).
    generalize dependent (length polygons). clear. intros n Hlt.
    replace n with (k0 + S (n - S k0)) by lia.
    rewrite seq_app, map_app, list_sum_app. simpl.
    rewrite bool_decide_eq_true_2 by done.
    assert (Hz : forall l, (forall k, In k l -> k <> k0) ->
                 list_sum (map (fun k => if bool_decide (k = k0) then 1 else 0) l) = 0).
    { induction l as [| a l IH]; intros Hl; simpl; [done |].
      rewrite bool_decide_eq_false_2 by (apply Hl; by left).
      rewrite IH; [done |]. intros k Hk. apply Hl. by right. }
    rewrite !Hz; [lia | |]; intros k Hk%in_seq; lia.
  - pose proof Hf as Hno. apply firstContainingTriangle_None in Hno. rewrite Hno.
    assert (Hind : forall k, (if is_first_containing pixel polygons k then 1 else 0) = 0).
    { intros k. destruct (is_first_containing pixel polygons k) eqn:Hk; [| done].
      apply is_first_containing_exists in Hk. congruence. }
    rewrite (map_ext _ _ Hind). induction (seq 0 (length polygons)); simpl; [done | lia].
Qed.


Lemma list_sum_filter_cons {A} (f : nat -> A -> bool) (a : A) (l : list A) (ks : list nat) :
  list_sum (map (fun k => length (List.filter (f k) (a :: l))) ks)
  = list_sum (map (fun k => if f k a then 1 else 0) ks)
    + list_sum (map (fun k => length (List.filter (f k) l)) ks).
Proof.
  induction ks as [| k ks IH]; simpl; [done |].
  simpl in IH. rewrite IH. destruct (f k a); simpl; lia.
Qed.

Lemma list_sum_zero {A} (l : list A) : list_sum (map (fun _ => 0) l) = 0.
Proof. induction l; simpl; [done | lia]. Qed.

Lemma assigned_total (intrinsics : Cal3_S2 D) (extrinsics : Pose3 D)
    (mesh_2d : Mesh2D F) (cloud : list (Point3 F)) :
  list_sum (map (fun k => length (assigned intrinsics extrinsics mesh_2d k cloud))
                (seq 0 (getNumberOfPolygons mesh_2d)))
  = length (matched intrinsics extrinsics mesh_2d cloud).
Proof.
  unfold getNumberOfPolygons, assigned, matched.
  induction cloud as [| lmk rest IH].
  - simpl. apply list_sum_zero.
  - rewrite (list_sum_filter_cons
               (fun k lmk => is_first_containing
                               (generatePixelFromLandmarkGivenCamera lmk extrinsics intrinsics)
                               (polygons_2d mesh_2d) k)).
    rewrite IH, first_containing_count. simpl.
    by destruct (existsb _ _).
Qed.

Lemma matched_le (intrinsics : Cal3_S2 D) (extrinsics : Pose3 D)
    (mesh_2d : Mesh2D F) (cloud : list (Point3 F)) :
  length (matched intrinsics extrinsics mesh_2d cloud) <= length cloud.
Proof. unfold matched. apply filter_length_le. Qed.
End AssociationInvariants.

Section AssociationTable.
Context {F D : Type} {N : Numerics F D}.

Lemma corresp_key_iff (st : Statics D) (noisy_point_cloud : PointCloud F)
    (mesh_2d : Mesh2D F) (camera_params : CameraParams D) (k : nat) :
  let assoc := fst (collectTriangleDataPoints st noisy_point_cloud mesh_2d camera_params) in
  (corresp assoc !! k = None <-> default [] (corresp assoc !! k) = [])
  /\ (pixel_corresp assoc !! k = None <-> default [] (pixel_corresp assoc !! k) = []).
Proof.
  intros assoc.
  destruct (collect_nonempty_lists st noisy_point_cloud mesh_2d camera_params) as [Hc Hp].
  fold assoc in Hc, Hp. split.
  - destruct (corresp assoc !! k) as [l |] eqn:Hk; simpl; [| done].
    split; [done | intros ->; by apply Hc in Hk].
  - destruct (pixel_corresp assoc !! k) as [l |] eqn:Hk; simpl; [| done].
    split; [done | intros ->; by apply Hp in Hk].
Qed.

Lemma corresp_nonempty_iff (st : Statics D) (noisy_point_cloud : PointCloud F)
    (mesh_2d : Mesh2D F) (camera_params : CameraParams D) :
  let assoc := fst (collectTriangleDataPoints st noisy_point_cloud mesh_2d camera_params) in
  0 < number_of_valid_datapoints assoc <-> 0 < size (corresp assoc).
Proof.
  intros assoc.
  destruct (collect_assigned st noisy_point_cloud mesh_2d camera_params) as (Hc & _ & Hn).
  fold assoc in Hc, Hn.
  set (intrinsics := static_const _ _) in *. set (extrinsics := body_Pose_cam_ _) in *.
  set (cloud := pc_points noisy_point_cloud) in *.
  split.
  - intros Hpos. rewrite Hn in Hpos.
    destruct (matched intrinsics extrinsics mesh_2d cloud) as [| lmk ms] eqn:Hm;
      [simpl in Hpos; lia |].
    assert (Hin : In lmk (matched intrinsics extrinsics mesh_2d cloud))
      by (rewrite Hm; by left).
    unfold matched in Hin. apply filter_In in Hin as [Hin Hex].
    destruct (firstContainingTriangle
                (generatePixelFromLandmarkGivenCamera lmk extrinsics intrinsics)
                (polygons_2d mesh_2d) 0) as [k |] eqn:Hf.
    + apply firstContainingTriangle_Some in Hf.
      assert (Hk : In lmk (assigned intrinsics extrinsics mesh_2d k cloud))
        by (unfold assigned; apply filter_In; by split).
      rewrite <- Hc in Hk.
      assert (size (corresp assoc) <> 0); [| lia].
      apply (map_size_ne_0_lookup_2 _ k).
      destruct (corresp assoc !! k); [by eexists | done].
    + apply firstContainingTriangle_None in Hf. congruence.
  - intros Hpos. assert (Hne : size (corresp assoc) <> 0) by lia.
    apply map_size_ne_0_lookup_1 in Hne as (k & l & Hk).
    destruct (collect_nonempty_lists st noisy_point_cloud mesh_2d camera_params) as [Hl _].
    fold assoc in Hl. pose proof (Hl k l Hk) as Hnil.
    specialize (Hc k). rewrite Hk in Hc. simpl in Hc.
    destruct l as [| lmk l]; [done |].
    assert (Hin : In lmk (assigned intrinsics extrinsics mesh_2d k cloud))
      by (rewrite <- Hc; by left).
    unfold assigned in Hin. apply filter_In in Hin as [Hin Hfc].
    apply is_first_containing_exists in Hfc.
    assert (Hm : In lmk (matched intrinsics extrinsics mesh_2d cloud))
      by (unfold matched; apply filter_In; by split).
    rewrite Hn. destruct (matched intrinsics extrinsics mesh_2d cloud); [done | simpl; lia].
Qed.

Lemma association_table_lengths (st : Statics D) (noisy_point_cloud : PointCloud F)
    (mesh_2d : Mesh2D F) (camera_params : CameraParams D) (k : nat) :
  let assoc := fst (collectTriangleDataPoints st noisy_point_cloud mesh_2d camera_params) in
  length (default [] (pixel_corresp assoc !! k)) = length (default [] (corresp assoc !! k)).
Proof.
  intros assoc.
  destruct (collect_assigned st noisy_point_cloud mesh_2d camera_params) as (Hc & Hp & _).
  fold assoc in Hc, Hp. rewrite Hp, Hc. apply length_map.
Qed.

Lemma association_sum (st : Statics D) (noisy_point_cloud : PointCloud F)
    (mesh_2d : Mesh2D F) (camera_params : CameraParams D) :
  let assoc := fst (collectTriangleDataPoints st noisy_point_cloud mesh_2d camera_params) in
  number_of_valid_datapoints assoc
  = list_sum (map (fun k => length (default [] (corresp assoc !! k)))
                  (seq 0 (getNumberOfPolygons mesh_2d))).
Proof.
  intros assoc.
  destruct (collect_assigned st noisy_point_cloud mesh_2d camera_params) as (Hc & _ & Hn).
  fold assoc in Hc, Hn.
  rewrite Hn, <- assigned_total. f_equal. apply map_ext. intros k. by rewrite Hc.
Qed.

(** X4: the association table that [collectTriangleDataPoints] builds is
    well formed: every key is the index of a polygon of the mesh and holds
    a non-empty list; the table of pixels has the same keys and lists of the
    same lengths; the counter is the total length of the lists and is at
    most the number of points of the cloud; and the table has at most as
    many entries as the mesh has polygons. *)
Theorem association_table_invariants (st : Statics D) (noisy_point_cloud : PointCloud F)
    (mesh_2d : Mesh2D F) (camera_params : CameraParams D) :
  let assoc := fst (collectTriangleDataPoints st noisy_point_cloud mesh_2d camera_params) in
  (forall k l, corresp assoc !! k = Some l -> k < getNumberOfPolygons mesh_2d /\ l <> [])
  /\ (forall k,
        (pixel_corresp assoc !! k = None <-> corresp assoc !! k = None)
        /\ length (default [] (pixel_corresp assoc !! k))
           = length (default [] (corresp assoc !! k)))
  /\ number_of_valid_datapoints assoc
     = list_sum (map (fun k => length (default [] (corresp assoc !! k)))
                     (seq 0 (getNumberOfPolygons mesh_2d)))
  /\ number_of_valid_datapoints assoc <= pc_cols noisy_point_cloud
  /\ size (corresp assoc) <= getNumberOfPolygons mesh_2d.
Proof.
  intros assoc.
  destruct (collect_assigned st noisy_point_cloud mesh_2d camera_params) as (Hc & Hp & Hn).
  fold assoc in Hc, Hp, Hn.
  destruct (collect_nonempty_lists st noisy_point_cloud mesh_2d camera_params) as [Hlc Hlp].
  fold assoc in Hlc, Hlp.
  assert (Hrange : forall k l, corresp assoc !! k = Some l -> k < getNumberOfPolygons mesh_2d).
  { intros k l Hk. destruct (Nat.lt_ge_cases k (getNumberOfPolygons mesh_2d)); [done |].
    specialize (Hc k). rewrite assigned_out_of_range in Hc by done.
    rewrite Hk in Hc. simpl in Hc. subst l. by apply Hlc in Hk. }
  split_and!.
  - intros k l Hk. split; [by eapply Hrange | by eapply Hlc].
  - intros k.
    assert (Hlen : length (default [] (pixel_corresp assoc !! k))
                   = length (default [] (corresp assoc !! k)))
      by (rewrite Hp, Hc; apply length_map).
    split; [| done].
    destruct (corresp_key_iff st noisy_point_cloud mesh_2d camera_params k) as [H1 H2].
    fold assoc in H1, H2. rewrite H1, H2.
    destruct (default [] (pixel_corresp assoc !! k)), (default [] (corresp assoc !! k));
      simpl in Hlen; split; intros; done.
  - apply association_sum.
  - rewrite Hn. apply matched_le.
  - rewrite <- size_dom.
    transitivity (size (set_seq (C := gset nat) 0 (getNumberOfPolygons mesh_2d)));
      [| by rewrite size_set_seq].
    apply subseteq_size. intros k Hk. apply elem_of_dom in Hk as [l Hk].
    apply elem_of_set_seq. split; [lia |]. simpl. by eapply Hrange.
Qed.

(** X5: after data association the check [CHECK_GT(corresp.size(), 0u)]
    can never fail on its own: the table is non-empty exactly when the
    counter is positive, so the two checks amount to the first,
    [CHECK_GT(number_of_valid_datapoints, 3u)]. *)
Theorem second_check_redundant (st : Statics D) (noisy_point_cloud : PointCloud F)
    (mesh_2d : Mesh2D F) (camera_params : CameraParams D) :
  let assoc := fst (collectTriangleDataPoints st noisy_point_cloud mesh_2d camera_params) in
  (0 < number_of_valid_datapoints assoc <-> 0 < size (corresp assoc))
  /\ checkAssociation assoc
     = CHECK InsufficientData (3 <? number_of_valid_datapoints assoc).
Proof.
  intros assoc.
  pose proof (corresp_nonempty_iff st noisy_point_cloud mesh_2d camera_params) as Hiff.
  fold assoc in Hiff. split; [exact Hiff |].
  unfold checkAssociation.
  destruct (3 <? number_of_valid_datapoints assoc) eqn:Hn; simpl; [| done].
  apply Nat.ltb_lt in Hn.
  assert (Hs : 0 < size (corresp assoc)) by (apply Hiff; lia).
  apply Nat.ltb_lt in Hs. by rewrite Hs.
Qed.
End AssociationTable.

(** ** Entry checks and repeated calls *)

Section CallExtras.
Context {F D : Type} {N : Numerics F D} {E : External F D}.

Lemma checkInputs_Ok_iff (noisy_point_cloud : PointCloud F) (mesh_2d : Mesh2D F) :
  checkInputs noisy_point_cloud mesh_2d = Ok tt
  <-> 0 < getNumberOfPolygons mesh_2d /\ 0 < getNumberOfUniqueVertices mesh_2d
      /\ pc_rows noisy_point_cloud = 1 /\ 3 < pc_cols noisy_point_cloud
      /\ pc_channels noisy_point_cloud = 3.
Proof.
  unfold checkInputs.
  destruct (0 <? getNumberOfPolygons mesh_2d) eqn:H1; simpl;
    [apply Nat.ltb_lt in H1 | apply Nat.ltb_ge in H1; split; [done | lia]].
  destruct (0 <? getNumberOfUniqueVertices mesh_2d) eqn:H2; simpl;
    [apply Nat.ltb_lt in H2 | apply Nat.ltb_ge in H2; split; [done | lia]].
  destruct (pc_rows noisy_point_cloud =? 1) eqn:H3; simpl;
    [apply Nat.eqb_eq in H3 | apply Nat.eqb_neq in H3; split; [done | lia]].
  destruct (3 <? pc_cols noisy_point_cloud) eqn:H4; simpl;
    [apply Nat.ltb_lt in H4 | apply Nat.ltb_ge in H4; split; [done | lia]].
  rewrite CHECK_Ok, Nat.eqb_eq. tauto.
Qed.

Lemma finalSwitch_statics (mesh_optimizer_type_ : MeshOptimizerType)
    (mesh_2d : Mesh2D F) (s s' : BuildState F D) :
  finalSwitch mesh_optimizer_type_ mesh_2d s = Ok s' -> statics s' = statics s.
Proof.
  destruct mesh_optimizer_type_; simpl.
  - unfold solveConnected.
    apply (foldM_invariant (fun x => statics x = statics s)); [| done].
    intros b a b' Hb. unfold setConnectedVertex.
    destruct (getLmkIdForVtxId _ _); [| done].
    destruct (setVertexPosition _ _ _); [| done]. by intros [= <-].
  - by intros [= <-].
  - by intros [= <-].
  - unfold solveGtsam.
    intros (graph & _ & Hfin)%bind_Ok.
    apply bind_Ok in Hfin as (actual & _ & Hfin). revert Hfin.
    apply (foldM_invariant (fun x => statics x = statics s)); [| done].
    intros b a b' Hb. unfold addGtsamPolygon.
    intros ([poly |] & _ & Hr)%bind_Ok; by injection Hr as <-.
Qed.

(** The statics a returning call leaves. *)
Lemma statics_of_call (mesh_optimizer_type_ : MeshOptimizerType)
    (st st' : Statics D) (noisy_point_cloud : PointCloud F)
    (camera_params : CameraParams D) (mesh_2d : Mesh2D F) (mesh : Mesh3D F D) :
  solveOptimalMesh mesh_optimizer_type_ st noisy_point_cloud camera_params mesh_2d
    = Ok (mesh, st') ->
  st' = mkStatics
          (Some (static_const (collect_gtsam_intrinsics st) (make_intrinsics camera_params)))
          (Some (static_const (solve_gtsam_intrinsics st) (make_intrinsics camera_params)))
          (static_lmk_id st).
Proof.
  intros Hcall.
  pose proof (statics_after_call _ _ _ _ _ _ _ Hcall) as [Hc Hs].
  assert (Hid : static_lmk_id st' = static_lmk_id st).
  { revert Hcall. unfold solveOptimalMesh.
    intros ([] & _ & H)%bind_Ok. simpl in H.
    set (st1 := mkStatics _ _ _) in H.
    assert (Hid : static_lmk_id
                    (snd (collectTriangleDataPoints st1 noisy_point_cloud mesh_2d
                            camera_params)) = static_lmk_id st)
      by (unfold collectTriangleDataPoints; by destruct (pc_points noisy_point_cloud)).
    destruct (collectTriangleDataPoints st1 _ _ _) as [assoc st2]. simpl in Hid.
    apply bind_Ok in H as ([] & _ & H). apply bind_Ok in H as (s1 & Hloop & H).
    apply triangle_loop_keeps_mesh in Hloop as [_ Hst]. simpl in Hst.
    apply bind_Ok in H as (s2 & Hfin & H). injection H as _ <-.
    apply finalSwitch_statics in Hfin. by rewrite Hfin, Hst. }
  destruct st' as [c s i]. simpl in *. by subst.
Qed.

(** A call reads its statics only through the values the two
    [static const] declarations denote and the counter. *)
Lemma solve_statics_normal (mesh_optimizer_type_ : MeshOptimizerType)
    (st : Statics D) (noisy_point_cloud : PointCloud F)
    (camera_params : CameraParams D) (mesh_2d : Mesh2D F) :
  solveOptimalMesh mesh_optimizer_type_ st noisy_point_cloud camera_params mesh_2d
  = solveOptimalMesh mesh_optimizer_type_
      (mkStatics
         (Some (static_const (collect_gtsam_intrinsics st) (make_intrinsics camera_params)))
         (Some (static_const (solve_gtsam_intrinsics st) (make_intrinsics camera_params)))
         (static_lmk_id st))
      noisy_point_cloud camera_params mesh_2d.
Proof.
  unfold solveOptimalMesh.
  destruct (checkInputs noisy_point_cloud mesh_2d) as [[] | e] eqn:Hin; [| done].
  simpl. unfold collectTriangleDataPoints.
  apply checkInputs_Ok_iff in Hin as (_ & _ & _ & Hcols & _). unfold pc_cols in Hcols.
  destruct (pc_points noisy_point_cloud) as [| p ps]; [simpl in Hcols; lia |].
  reflexivity.
Qed.

(** X7: within one process a call that returns can be repeated: the same
    three inputs, given again right after, return the same mesh and leave
    the statics as they are. *)
Theorem repeated_call_same_mesh (mesh_optimizer_type_ : MeshOptimizerType)
    (st st' : Statics D) (noisy_point_cloud : PointCloud F)
    (camera_params : CameraParams D) (mesh_2d : Mesh2D F) (mesh : Mesh3D F D) :
  solveOptimalMesh mesh_optimizer_type_ st noisy_point_cloud camera_params mesh_2d
    = Ok (mesh, st') ->
  solveOptimalMesh mesh_optimizer_type_ st' noisy_point_cloud camera_params mesh_2d
    = Ok (mesh, st').
Proof.
  intros Hcall. pose proof (statics_of_call _ _ _ _ _ _ _ Hcall) as Hst.
  rewrite solve_statics_normal. rewrite <- Hcall.
  rewrite (solve_statics_normal _ st). by subst st'.
Qed.
End CallExtras.

Section CallExtrasRuns.
Existing Instance Numerics_IEEE.
Existing Instance External_ones.

(** The factor-graph strategy on the square mesh, called twice. *)
Lemma repeated_call_same_mesh_witness :
  exists mesh st',
    solveOptimalMesh kGtsamMesh fresh_statics cloud_two_three (camera_with_focal 1)
      square_mesh = Ok (mesh, st')
    /\ solveOptimalMesh kGtsamMesh st' cloud_two_three (camera_with_focal 1)
         square_mesh = Ok (mesh, st').
Proof.
  eexists _, _. split; [vm_compute; reflexivity |].
  apply (repeated_call_same_mesh kGtsamMesh fresh_statics).
  vm_compute. reflexivity.
Defined.
End CallExtrasRuns.

(** ** The matrix Y of the connected strategy *)

Section ConnectedRows.
Context {F D : Type} {N : Numerics F D} {E : External F D}.

Lemma mat_set_dims {T} (m : list (list T)) (r c : nat) (v : T) :
  map length (mat_set m r c v) = map length m.
Proof.
  unfold mat_set. revert r. induction m as [| row m IH]; intros r; [done |].
  destruct r as [| r]; simpl.
  - by rewrite length_insert.
  - f_equal. apply IH.
Qed.

Lemma mat_set_other {T} (m : list (list T)) (r r' c : nat) (v : T) :
  r' <> r -> mat_set m r c v !! r' = m !! r'.
Proof. intros Hr. unfold mat_set. by apply list_lookup_alter_ne. Qed.

Lemma store_ys_rows (s : BuildState F D) (tri : Triangle F) (y0 y1 y2 : F) :
  let s' := store_ys s tri y0 y1 y2 in
  n_datapoint s' = S (n_datapoint s)
  /\ (forall r, r <> n_datapoint s -> vtx_ids_to_ys s' !! r = vtx_ids_to_ys s !! r)
  /\ map length (vtx_ids_to_ys s') = map length (vtx_ids_to_ys s).
Proof.
  unfold store_ys. destruct (vtx_ids tri) as [[id0 id1] id2]. simpl. split_and!.
  - done.
  - intros r Hr. by rewrite !mat_set_other.
  - by rewrite !mat_set_dims.
Qed.

Lemma connected_datapoints (tri : Triangle F) (pts : list (Point3 F))
    (sY sY' : BuildState F D * list (list F)) :
  foldM (solveDatapoint kConnectedMesh tri) pts sY = Ok sY' ->
  n_datapoint (fst sY') = n_datapoint (fst sY) + length pts
  /\ (forall r, r < n_datapoint (fst sY) \/ n_datapoint (fst sY') <= r ->
                vtx_ids_to_ys (fst sY') !! r = vtx_ids_to_ys (fst sY) !! r)
  /\ map length (vtx_ids_to_ys (fst sY')) = map length (vtx_ids_to_ys (fst sY)).
Proof.
  revert sY. induction pts as [| p pts IH]; intros sY; simpl.
  - intros [= <-]. split_and!; [lia | done | done].
  - intros (sY1 & Hstep & Hrest)%bind_Ok.
    apply IH in Hrest as (Hn & Hrows & Hdims).
    unfold solveDatapoint in Hstep.
    destruct (cv_solve _ _ _) as [| y0 [| y1 [| y2 [| ? ?]]]]; try done.
    injection Hstep as <-. simpl in *.
    destruct (store_ys_rows (fst sY) tri y0 y1 y2) as (Hn1 & Hrows1 & Hdims1).
    simpl in Hn1, Hrows1, Hdims1. split_and!.
    + lia.
    + intros r Hr. rewrite Hrows by lia. apply Hrows1. lia.
    + congruence.
Qed.

Lemma connected_triangle (k : Cal3_S2 D) (mesh_2d : Mesh2D F) (assoc : Association F)
    (s s' : BuildState F D) (indexed : nat * Polygon (Point2 F)) :
  processTriangle kConnectedMesh k mesh_2d assoc s indexed = Ok s' ->
  n_datapoint s' = n_datapoint s + samples_used assoc (fst indexed)
  /\ (forall r, r < n_datapoint s \/ n_datapoint s' <= r ->
                vtx_ids_to_ys s' !! r = vtx_ids_to_ys s !! r)
  /\ map length (vtx_ids_to_ys s') = map length (vtx_ids_to_ys s).
Proof.
  unfold processTriangle, samples_used.
  destruct (bearingOfVertex k mesh_2d s _) as [[[s1 id0] bv0] | e0] eqn:H0; simpl; [| done].
  destruct (bearingOfVertex k mesh_2d s1 _) as [[[s2 id1] bv1] | e1] eqn:H1; simpl; [| done].
  destruct (bearingOfVertex k mesh_2d s2 _) as [[[s3 id2] bv2] | e2] eqn:H2; simpl; [| done].
  apply bearingOfVertex_inv in H0 as (Hy0 & _ & Hn0 & _).
  apply bearingOfVertex_inv in H1 as (Hy1 & _ & Hn1 & _).
  apply bearingOfVertex_inv in H2 as (Hy2 & _ & Hn2 & _).
  assert (Hys : vtx_ids_to_ys s3 = vtx_ids_to_ys s) by congruence.
  assert (Hns : n_datapoint s3 = n_datapoint s) by congruence.
  destruct (_ <? 3).
  - intros [= <-]. rewrite Hys, Hns. split_and!; [lia | done | done].
  - rewrite triangleSwitch_default by done.
    destruct (foldM _ _ _) as [sY |] eqn:Hfold; simpl; [| done].
    intros [= <-]. apply connected_datapoints in Hfold as (Hn & Hrows & Hdims).
    simpl in Hn, Hrows, Hdims. rewrite Hys, Hns in *. done.
Qed.

Lemma connected_loop (k : Cal3_S2 D) (mesh_2d : Mesh2D F) (assoc : Association F)
    (l : list (nat * Polygon (Point2 F))) (s s' : BuildState F D) :
  foldM (processTriangle kConnectedMesh k mesh_2d assoc) l s = Ok s' ->
  n_datapoint s' = n_datapoint s + list_sum (map (fun ip => samples_used assoc (fst ip)) l)
  /\ (forall r, r < n_datapoint s \/ n_datapoint s' <= r ->
                vtx_ids_to_ys s' !! r = vtx_ids_to_ys s !! r)
  /\ map length (vtx_ids_to_ys s') = map length (vtx_ids_to_ys s).
Proof.
  revert s. induction l as [| ip l IH]; intros s; simpl.
  - intros [= <-]. split_and!; [lia | done | done].
  - intros (s1 & Hstep & Hrest)%bind_Ok.
    apply IH in Hrest as (Hn & Hrows & Hdims).
    apply connected_triangle in Hstep as (Hn1 & Hrows1 & Hdims1). split_and!.
    + lia.
    + intros r Hr. rewrite Hrows by lia. apply Hrows1. lia.
    + congruence.
Qed.

Lemma mat_zeros_dims {T} (zero : T) (rows cols : nat) :
  map length (mat_zeros zero rows cols) = replicate rows cols.
Proof.
  unfold mat_zeros. induction rows as [| n IHn]; simpl; [done |].
  by rewrite length_replicate, IHn.
Qed.

Lemma samples_used_le (assoc : Association F) (k : nat) :
  samples_used assoc k <= length (default [] (corresp assoc !! k)).
Proof. unfold samples_used. destruct (_ <? 3); lia. Qed.

Lemma list_sum_le {A} (f g : A -> nat) (l : list A) :
  (forall a, f a <= g a) -> list_sum (map f l) <= list_sum (map g l).
Proof. intros H. induction l as [| a l IH]; simpl; [done |]. specialize (H a). lia. Qed.

(** X8: in the connected strategy every sample of a triangle with three or
    more samples gets a row of Y of its own: an iteration of the triangle
    loop advances the row counter by the number of samples it uses and
    changes no row below the counter it started from; over the whole loop
    the counter ends at the number of used samples, which is at most the
    number of matched samples, so every write is inside the
    (matched samples) x (unique vertices) matrix, whose rows from the
    counter on are still zero. *)
Theorem connected_rows_never_overwritten :
  (forall (k : Cal3_S2 D) (mesh_2d : Mesh2D F) (assoc : Association F)
      (s s' : BuildState F D) (tri_idx : nat) (polygon_2d : Polygon (Point2 F)),
      processTriangle kConnectedMesh k mesh_2d assoc s (tri_idx, polygon_2d) = Ok s' ->
      n_datapoint s' = n_datapoint s + samples_used assoc tri_idx
      /\ forall r, r < n_datapoint s ->
                   vtx_ids_to_ys s' !! r = vtx_ids_to_ys s !! r)
  /\ (forall (st st0 : Statics D) (noisy_point_cloud : PointCloud F)
        (camera_params : CameraParams D) (mesh_2d : Mesh2D F) (k : Cal3_S2 D)
        (s' : BuildState F D),
        let assoc :=
          fst (collectTriangleDataPoints st noisy_point_cloud mesh_2d camera_params) in
        foldM (processTriangle kConnectedMesh k mesh_2d assoc) (indexed_polygons mesh_2d)
              (initial_state mesh_2d assoc st0) = Ok s' ->
        n_datapoint s'
        = list_sum (map (samples_used assoc) (seq 0 (getNumberOfPolygons mesh_2d)))
        /\ n_datapoint s' <= number_of_valid_datapoints assoc
        /\ map length (vtx_ids_to_ys s')
           = replicate (number_of_valid_datapoints assoc)
                       (getNumberOfUniqueVertices mesh_2d)
        /\ forall r, n_datapoint s' <= r -> r < number_of_valid_datapoints assoc ->
                     vtx_ids_to_ys s' !! r
                     = Some (replicate (getNumberOfUniqueVertices mesh_2d) (s_ofZ 0))).
Proof.
  split.
  - intros k mesh_2d assoc s s' tri_idx poly H.
    apply connected_triangle in H as (Hn & Hrows & _). split; [done |].
    intros r Hr. apply Hrows. by left.
  - intros st st0 cloud cam mesh_2d k s' assoc Hloop.
    apply connected_loop in Hloop as (Hn & Hrows & Hdims). simpl in Hn, Hrows, Hdims.
    assert (Hsum : list_sum (map (fun ip : nat * Polygon (Point2 F) =>
                                    samples_used assoc (fst ip)) (indexed_polygons mesh_2d))
                   = list_sum (map (samples_used assoc)
                                   (seq 0 (getNumberOfPolygons mesh_2d)))).
    { rewrite <- (map_map fst (samples_used assoc)). do 2 f_equal.
      unfold indexed_polygons, getNumberOfPolygons.
      apply fst_zip. by rewrite length_seq. }
    rewrite Hsum in Hn.
    pose proof (association_sum st cloud mesh_2d cam) as Htot. fold assoc in Htot.
    split_and!.
    + done.
    + rewrite Hn, Htot. apply list_sum_le. intros a. apply samples_used_le.
    + rewrite Hdims. apply mat_zeros_dims.
    + intros r Hge Hlt. rewrite Hrows by (by right). unfold mat_zeros.
      by apply lookup_replicate_2.
Qed.
End ConnectedRows.

(** ** The data factors of the factor-graph strategy *)

Section GtsamFactors.
Context {F D : Type} {N : Numerics F D} {E : External F D}.
Local Open Scope num_scope.

(** The state after step 2.1 of an iteration: the three vertices of the
    polygon in the two caches, in order. *)
Lemma processTriangle_gtsam (k : Cal3_S2 D) (mesh_2d : Mesh2D F) (assoc : Association F)
    (s s' : BuildState F D) (tri_idx : nat) (polygon_2d : Polygon (Point2 F)) :
  processTriangle kGtsamMesh k mesh_2d assoc s (tri_idx, polygon_2d) = Ok s' ->
  exists id0 id1 id2,
    getVtxIdForLmkId mesh_2d (getLmkId (at_0 polygon_2d)) = Some id0
    /\ getVtxIdForLmkId mesh_2d (getLmkId (at_1 polygon_2d)) = Some id1
    /\ getVtxIdForLmkId mesh_2d (getLmkId (at_2 polygon_2d)) = Some id2
    /\ let bearing v := getBearingVectorFrom2DPixel k (getVertexPosition v) in
       let s3 :=
         set_caches
           (set_caches
              (set_caches s id0 (bearing (at_0 polygon_2d))
                          (getVertexPosition (at_0 polygon_2d)))
              id1 (bearing (at_1 polygon_2d)) (getVertexPosition (at_1 polygon_2d)))
           id2 (bearing (at_2 polygon_2d)) (getVertexPosition (at_2 polygon_2d)) in
       let pts := default [] (corresp assoc !! tri_idx) in
       let pxs := default [] (pixel_corresp assoc !! tri_idx) in
       let tri := mkTriangle (id0, id1, id2)
                    (bearing (at_0 polygon_2d), bearing (at_1 polygon_2d),
                     bearing (at_2 polygon_2d)) pts pxs in
       s' = if (length pts <? 3)%nat then s3
            else foldl add_factor s3
                   (map (fun pl => ternaryFactor s3 tri (fst pl) (snd pl)) (zip pxs pts)).
Proof.
  unfold processTriangle. cbn [fst snd].
  destruct (getVtxIdForLmkId mesh_2d (getLmkId (at_0 polygon_2d))) as [id0 |] eqn:H0;
    [| by unfold bearingOfVertex; rewrite H0].
  rewrite (bearingOfVertex_Ok _ _ _ _ _ H0). cbn [mbind result_bind].
  destruct (getVtxIdForLmkId mesh_2d (getLmkId (at_1 polygon_2d))) as [id1 |] eqn:H1;
    [| by unfold bearingOfVertex; rewrite H1].
  rewrite (bearingOfVertex_Ok _ _ _ _ _ H1). cbn [mbind result_bind].
  destruct (getVtxIdForLmkId mesh_2d (getLmkId (at_2 polygon_2d))) as [id2 |] eqn:H2;
    [| by unfold bearingOfVertex; rewrite H2].
  rewrite (bearingOfVertex_Ok _ _ _ _ _ H2). cbn [mbind result_bind].
  intros H. exists id0, id1, id2. split_and!; try done. cbn zeta.
  cbn [triangle_datapoints] in H.
  destruct (_ <? 3)%nat.
  - by injection H as <-.
  - rewrite triangleSwitch_gtsam in H. cbn [mbind result_bind fst snd] in H.
    injection H as <-. cbn [datapoint_pixels triangle_datapoints].
    by rewrite foldl_add_factor_map.
Qed.

Lemma pixel_of_set_caches (s : BuildState F D) (id id' : nat) (b : Point3 F) (p : Point2 F) :
  pixel_of (set_caches s id b p) id' = if bool_decide (id' = id) then p else pixel_of s id'.
Proof.
  unfold pixel_of, set_caches. simpl. case_bool_decide as Hid.
  - subst. by rewrite lookup_insert_eq.
  - by rewrite lookup_insert_ne.
Qed.

(** X9: an iteration of the triangle loop of the factor-graph strategy
    appends to the graph and changes nothing before: no factor for a
    triangle with fewer than three samples, otherwise one factor per sample,
    in order, on the three vertex ids of the polygon, with the inverse range
    of the sample as right-hand side and sigma 1.  When the three vertex ids
    are distinct the coefficients are the barycentric coordinates of the
    sample's pixel in the polygon's own three pixels.  The matrix Y and its
    row counter are left alone. *)
Theorem gtsam_data_factors (k : Cal3_S2 D) (mesh_2d : Mesh2D F) (assoc : Association F)
    (s s' : BuildState F D) (tri_idx : nat) (polygon_2d : Polygon (Point2 F)) :
  processTriangle kGtsamMesh k mesh_2d assoc s (tri_idx, polygon_2d) = Ok s' ->
  exists id0 id1 id2 new_factors,
    getVtxIdForLmkId mesh_2d (getLmkId (at_0 polygon_2d)) = Some id0
    /\ getVtxIdForLmkId mesh_2d (getLmkId (at_1 polygon_2d)) = Some id1
    /\ getVtxIdForLmkId mesh_2d (getLmkId (at_2 polygon_2d)) = Some id2
    /\ factor_graph s' = factor_graph s ++ new_factors
    /\ vtx_ids_to_ys s' = vtx_ids_to_ys s
    /\ n_datapoint s' = n_datapoint s
    /\ let pts := default [] (corresp assoc !! tri_idx) in
       let pxs := default [] (pixel_corresp assoc !! tri_idx) in
       length new_factors
       = (if (length pts <? 3)%nat then 0 else min (length pxs) (length pts))
       /\ forall j f, new_factors !! j = Some f ->
            exists pixel lmk,
              pxs !! j = Some pixel /\ pts !! j = Some lmk
              /\ map fst (jf_terms f) = [id0; id1; id2]
              /\ jf_b f = inverse_depth_measurement lmk
              /\ jf_sigma f = s_ofZ 1
              /\ (id0 <> id1 -> id0 <> id2 -> id1 <> id2 ->
                  let '(_, (b0, b1, b2)) :=
                    barycentricCoordinates (getVertexPosition (at_0 polygon_2d))
                                           (getVertexPosition (at_1 polygon_2d))
                                           (getVertexPosition (at_2 polygon_2d)) pixel in
                  map snd (jf_terms f) = [b0; b1; b2]).
Proof.
  intros (id0 & id1 & id2 & H0 & H1 & H2 & Hs')%processTriangle_gtsam.
  simpl in Hs'. exists id0, id1, id2. revert Hs'. cbn zeta.
  destruct (_ <? 3)%nat eqn:Hlen; intros Hs'.
  - exists []. subst s'. simpl. rewrite app_nil_r. split_and!; try done.
  - match type of Hs' with _ = foldl add_factor ?s3 ?fs =>
      exists fs; destruct (add_factors_mesh s3 fs) as (_ & _ & Hy & Hn & Hg) end.
    subst s'. split_and!; try done.
    + by rewrite length_map, length_zip.
    + intros j f Hj. rewrite list_lookup_fmap in Hj.
      destruct (zip _ _ !! j) as [[pixel lmk] |] eqn:Hz; [| done].
      injection Hj as <-. apply lookup_zip_with_Some in Hz as (? & ? & [= <- <-] & Hpx & Hpt).
      exists pixel, lmk. unfold ternaryFactor. simpl.
      destruct (barycentricCoordinates _ _ _ pixel) as [ok [[b0 b1] b2]] eqn:Hb.
      simpl. split_and!; try done.
      intros H01 H02 H12. rewrite !pixel_of_set_caches in Hb.
      repeat (case_bool_decide; try congruence).
      by rewrite Hb.
Qed.
Lemma gtsam_triangle_graph (k : Cal3_S2 D) (mesh_2d : Mesh2D F) (assoc : Association F)
    (s s' : BuildState F D) (indexed : nat * Polygon (Point2 F)) :
  processTriangle kGtsamMesh k mesh_2d assoc s indexed = Ok s' ->
  exists new_factors,
    factor_graph s' = factor_graph s ++ new_factors
    /\ length new_factors
       = (if (length (default [] (corresp assoc !! fst indexed)) <? 3)%nat then 0
          else min (length (default [] (pixel_corresp assoc !! fst indexed)))
                   (length (default [] (corresp assoc !! fst indexed))))
    /\ Forall (fun f => length (jf_terms f) = 3 /\ jf_sigma f = s_ofZ 1) new_factors
    /\ vtx_ids_to_ys s' = vtx_ids_to_ys s
    /\ n_datapoint s' = n_datapoint s.
Proof.
  destruct indexed as [tri_idx polygon_2d].
  intros (id0 & id1 & id2 & _ & _ & _ & Hs')%processTriangle_gtsam.
  simpl in Hs'. revert Hs'. cbn [fst]. destruct (_ <? 3)%nat; intros Hs'.
  - exists []. subst s'. simpl. rewrite app_nil_r. split_and!; done.
  - match type of Hs' with _ = foldl add_factor ?s3 ?fs =>
      exists fs; destruct (add_factors_mesh s3 fs) as (_ & _ & Hy & Hn & Hg) end.
    subst s'. split_and!; try done.
    + by rewrite length_map, length_zip.
    + apply Forall_forall. intros f (pl & <- & _)%list_elem_of_In%in_map_iff.
      unfold ternaryFactor. simpl.
      by destruct (barycentricCoordinates _ _ _ _) as [ok [[b0 b1] b2]].
Qed.

Lemma gtsam_loop (k : Cal3_S2 D) (mesh_2d : Mesh2D F) (assoc : Association F)
    (l : list (nat * Polygon (Point2 F))) (s s' : BuildState F D) :
  foldM (processTriangle kGtsamMesh k mesh_2d assoc) l s = Ok s' ->
  exists new_factors,
    factor_graph s' = factor_graph s ++ new_factors
    /\ length new_factors
       = list_sum (map (fun ip : nat * Polygon (Point2 F) =>
                          if (length (default [] (corresp assoc !! fst ip)) <? 3)%nat then 0
                          else min (length (default [] (pixel_corresp assoc !! fst ip)))
                                   (length (default [] (corresp assoc !! fst ip)))) l)
    /\ Forall (fun f => length (jf_terms f) = 3 /\ jf_sigma f = s_ofZ 1) new_factors
    /\ vtx_ids_to_ys s' = vtx_ids_to_ys s
    /\ n_datapoint s' = n_datapoint s.
Proof.
  revert s. induction l as [| ip l IH]; intros s; simpl.
  - intros [= <-]. exists []. rewrite app_nil_r. split_and!; done.
  - intros (s1 & Hstep & Hrest)%bind_Ok.
    apply IH in Hrest as (fs2 & Hg2 & Hl2 & Hf2 & Hy2 & Hn2).
    apply gtsam_triangle_graph in Hstep as (fs1 & Hg1 & Hl1 & Hf1 & Hy1 & Hn1).
    exists (fs1 ++ fs2). split_and!.
    + by rewrite Hg2, Hg1, app_assoc.
    + rewrite length_app. lia.
    + by apply Forall_app.
    + congruence.
    + congruence.
Qed.

(** X10: over the whole triangle loop, from the state the call starts it
    in, the factor-graph strategy builds a graph with exactly one factor per
    sample of a triangle with three or more samples, so with at most as many
    factors as there are matched samples; each is a ternary factor of
    sigma 1.  The matrix Y stays all zero and its row counter stays 0. *)
Theorem gtsam_loop_graph (st st0 : Statics D) (noisy_point_cloud : PointCloud F)
    (camera_params : CameraParams D) (mesh_2d : Mesh2D F) (k : Cal3_S2 D)
    (s' : BuildState F D) :
  let assoc :=
    fst (collectTriangleDataPoints st noisy_point_cloud mesh_2d camera_params) in
  foldM (processTriangle kGtsamMesh k mesh_2d assoc) (indexed_polygons mesh_2d)
        (initial_state mesh_2d assoc st0) = Ok s' ->
  length (factor_graph s')
  = list_sum (map (samples_used assoc) (seq 0 (getNumberOfPolygons mesh_2d)))
  /\ length (factor_graph s') <= number_of_valid_datapoints assoc
  /\ Forall (fun f => length (jf_terms f) = 3 /\ jf_sigma f = s_ofZ 1) (factor_graph s')
  /\ vtx_ids_to_ys s'
     = mat_zeros (s_ofZ 0) (number_of_valid_datapoints assoc)
                 (getNumberOfUniqueVertices mesh_2d)
  /\ n_datapoint s' = 0.
Proof.
  intros assoc (fs & Hg & Hl & Hf & Hy & Hn)%gtsam_loop. simpl in Hg, Hy, Hn. subst fs.
  pose proof (association_table_lengths st noisy_point_cloud mesh_2d camera_params) as Hpx.
  fold assoc in Hpx.
  assert (Hsum : length (factor_graph s')
                 = list_sum (map (samples_used assoc)
                                 (seq 0 (getNumberOfPolygons mesh_2d)))).
  { rewrite Hl.
    rewrite <- (map_map fst (fun i =>
      if (length (default [] (corresp assoc !! i)) <? 3)%nat then 0
      else min (length (default [] (pixel_corresp assoc !! i)))
               (length (default [] (corresp assoc !! i))))).
    unfold indexed_polygons, getNumberOfPolygons.
    rewrite fst_zip by (by rewrite length_seq). f_equal. apply map_ext. intros i.
    unfold samples_used. rewrite Hpx. destruct (_ <? 3)%nat; lia. }
  split_and!; try done.
  pose proof (association_sum st noisy_point_cloud mesh_2d camera_params) as Htot.
  fold assoc in Htot. rewrite Hsum, Htot.
  apply list_sum_le. intros a. apply samples_used_le.
Qed.
End GtsamFactors.

Section GtsamFactorsRuns.
Existing Instance Numerics_IEEE.
Existing Instance External_ones.

(** The one triangle of the single-triangle mesh, with the four samples
    of the cloud that fall into it. *)
Lemma gtsam_data_factors_witness :
  let assoc := fst (collectTriangleDataPoints fresh_statics cloud_in_triangle
                      single_triangle_mesh (camera_with_focal 1)) in
  let s := initial_state single_triangle_mesh assoc fresh_statics in
  exists s' (id0 id1 id2 : nat) new_factors,
    processTriangle kGtsamMesh (make_intrinsics (camera_with_focal 1))
      single_triangle_mesh assoc s
      (0, triangle_of 0 1 2 (pixel_at 0 0) (pixel_at 10 0) (pixel_at 0 10)) = Ok s'
    /\ factor_graph s' = factor_graph s ++ new_factors
    /\ length new_factors = 4
    /\ id0 <> id1 /\ id0 <> id2 /\ id1 <> id2.
Proof.
  intros assoc s.
  destruct (processTriangle kGtsamMesh (make_intrinsics (camera_with_focal 1))
              single_triangle_mesh assoc s
              (0, triangle_of 0 1 2 (pixel_at 0 0) (pixel_at 10 0) (pixel_at 0 10)))
    as [s' | e] eqn:Hrun; [| by vm_compute in Hrun].
  destruct (gtsam_data_factors _ _ _ _ _ _ _ Hrun)
    as (id0 & id1 & id2 & fs & H0 & H1 & H2 & Hg & _ & _ & Hlen & _).
  exists s', id0, id1, id2, fs.
  vm_compute in H0, H1, H2. injection H0 as <-. injection H1 as <-. injection H2 as <-.
  split; [done |]. split; [done |]. split; [| by repeat split].
  rewrite Hlen. vm_compute. reflexivity.
Defined.
(** The triangle loop over the single-triangle mesh: four factors. *)
Lemma gtsam_loop_graph_witness :
  let assoc := fst (collectTriangleDataPoints fresh_statics cloud_in_triangle
                      single_triangle_mesh (camera_with_focal 1)) in
  exists s',
    foldM (processTriangle kGtsamMesh (make_intrinsics (camera_with_focal 1))
             single_triangle_mesh assoc)
          (indexed_polygons single_triangle_mesh)
          (initial_state single_triangle_mesh assoc fresh_statics) = Ok s'
    /\ length (factor_graph s') = 4
    /\ n_datapoint s' = 0.
Proof.
  intros assoc.
  destruct (foldM (processTriangle kGtsamMesh (make_intrinsics (camera_with_focal 1))
                     single_triangle_mesh assoc)
                  (indexed_polygons single_triangle_mesh)
                  (initial_state single_triangle_mesh assoc fresh_statics))
    as [s' | e] eqn:Hrun; [| by vm_compute in Hrun].
  exists s'. split; [done |].
  destruct (gtsam_loop_graph fresh_statics fresh_statics cloud_in_triangle
              (camera_with_focal 1) single_triangle_mesh _ s' Hrun)
    as (Hlen & _ & _ & _ & Hn).
  split; [| done]. rewrite Hlen. vm_compute. reflexivity.
Defined.
End GtsamFactorsRuns.

(** ** The mesh a call returns *)

Section OutputMesh.
Context {F D : Type} {N : Numerics F D} {E : External F D}.
Local Open Scope num_scope.

(** A returning call: the triangle loop from the initial state, then the
    final switch, whose mesh is returned. *)
Lemma solveOptimalMesh_Ok (mesh_optimizer_type_ : MeshOptimizerType)
    (st st' : Statics D) (noisy_point_cloud : PointCloud F)
    (camera_params : CameraParams D) (mesh_2d : Mesh2D F) (mesh : Mesh3D F D) :
  solveOptimalMesh mesh_optimizer_type_ st noisy_point_cloud camera_params mesh_2d
    = Ok (mesh, st') ->
  exists k assoc st0 s1 s2,
    foldM (processTriangle mesh_optimizer_type_ k mesh_2d assoc)
          (indexed_polygons mesh_2d) (initial_state mesh_2d assoc st0) = Ok s1
    /\ reconstructed_mesh s1 = empty_mesh
    /\ finalSwitch mesh_optimizer_type_ mesh_2d s1 = Ok s2
    /\ mesh = reconstructed_mesh s2.
Proof.
  unfold solveOptimalMesh. intros ([] & _ & H)%bind_Ok. simpl in H.
  destruct (collectTriangleDataPoints _ _ _ _) as [assoc st2].
  apply bind_Ok in H as ([] & _ & H). apply bind_Ok in H as (s1 & Hloop & H).
  apply bind_Ok in H as (s2 & Hfin & H). injection H as <- _.
  eexists _, assoc, st2, s1, s2. split_and!; try done.
  by apply triangle_loop_keeps_mesh in Hloop as [-> _].
Qed.

Lemma reconstructGtsamPolygon_Ok (mesh_2d : Mesh2D F) (s : BuildState F D)
    (actual hessian : gmap nat D) (poly_2d : list (Vertex (Point2 F)))
    (poly_3d : list (Vertex3D F D)) (r : option (list (Vertex3D F D))) :
  reconstructGtsamPolygon mesh_2d s actual hessian poly_2d poly_3d = Ok r ->
  match r with
  | Some out =>
      forallb (vertex_solved mesh_2d actual) poly_2d = true
      /\ exists new, out = poly_3d ++ new
                     /\ map v3_lmk_id new = map getLmkId poly_2d
                     /\ Forall (fun v => is_Some (v3_color v)) new
  | None => forallb (vertex_solved mesh_2d actual) poly_2d = false
  end.
Proof.
  revert poly_3d. induction poly_2d as [| v rest IH]; intros poly_3d; simpl.
  - intros [= <-]. split; [done |]. exists []. by rewrite app_nil_r.
  - unfold reconstructGtsamVertex, vertex_solved.
    destruct (getVtxIdForLmkId mesh_2d (getLmkId v)) as [vtx_id |]; simpl; [| done].
    destruct (actual !! vtx_id) as [inv_depth |] eqn:Ha; simpl.
    + destruct (hessian !! vtx_id); simpl; [| done].
      intros H. apply IH in H.
      destruct r as [out |]; [| done].
      destruct H as (Hall & new & -> & Hids & Hcol). split; [done |].
      eexists (_ :: new). rewrite <- app_assoc. split; [done |]. simpl.
      split; [by rewrite Hids |]. by constructor.
    + by intros [= <-].
Qed.

Lemma addGtsamPolygon_Ok (mesh_2d : Mesh2D F) (actual hessian : gmap nat D)
    (s s' : BuildState F D) (poly_2d : Polygon (Point2 F)) :
  addGtsamPolygon mesh_2d actual hessian s poly_2d = Ok s' ->
  if polygon_solved mesh_2d actual poly_2d then
    exists new, s' = set_mesh s (addPolygonToMesh (reconstructed_mesh s) new)
                /\ map v3_lmk_id new = polygon_lmk_ids poly_2d
                /\ Forall (fun v => is_Some (v3_color v)) new
  else s' = s.
Proof.
  unfold addGtsamPolygon. intros (r & Hr & H)%bind_Ok.
  apply reconstructGtsamPolygon_Ok in Hr. unfold polygon_solved.
  simpl in Hr. rewrite andb_true_r, andb_assoc in Hr.
  destruct r as [out |].
  - destruct Hr as (-> & new & -> & Hids & Hcol). injection H as <-. by exists new.
  - rewrite Hr. by injection H as <-.
Qed.

Lemma addVertex_fold (m : gmap Z (Point3 F * option (Point3 D)))
    (polygon : list (Vertex3D F D)) (lmk : Z) :
  Forall (fun v => is_Some (v3_color v)) polygon ->
  (is_Some (foldl addVertex m polygon !! lmk)
   <-> is_Some (m !! lmk) \/ In lmk (map v3_lmk_id polygon))
  /\ ((forall position color, m !! lmk = Some (position, color) -> is_Some color) ->
      forall position color,
        foldl addVertex m polygon !! lmk = Some (position, color) -> is_Some color).
Proof.
  revert m. induction polygon as [| v polygon IH]; intros m Hcol; simpl.
  - split; [tauto | done].
  - apply Forall_cons in Hcol as [Hv Hcol].
    destruct (IH (addVertex m v) Hcol) as [Hdom Hc]. split.
    + rewrite Hdom. unfold addVertex.
      destruct (decide (v3_lmk_id v = lmk)) as [-> | Hne].
      * rewrite lookup_insert_eq. split; [intros _ | intros _; left; by eexists].
        right. by left.
      * rewrite lookup_insert_ne by done. tauto.
    + intros Hm. apply Hc. unfold addVertex. intros position color.
      destruct (decide (v3_lmk_id v = lmk)) as [-> | Hne].
      * rewrite lookup_insert_eq. by intros [= _ <-].
      * rewrite lookup_insert_ne by done. apply Hm.
Qed.

Lemma addPolygonToMesh_closed (mesh : Mesh3D F D) (polygon : list (Vertex3D F D)) :
  Forall (fun v => is_Some (v3_color v)) polygon ->
  mesh_closed mesh -> mesh_closed (addPolygonToMesh mesh polygon).
Proof.
  intros Hcol [Hdom Hc]. split; simpl.
  - intros lmk. destruct (addVertex_fold (vertices_3d mesh) polygon lmk Hcol) as [-> _].
    rewrite Hdom. split.
    + intros [(p & Hp & Hl) | Hl].
      * exists p. split; [apply in_or_app; by left | done].
      * eexists. split; [apply in_or_app; right; by left | done].
    + intros (p & [Hp | [<- | []]]%in_app_or & Hl); [left; by exists p | by right].
  - intros lmk. destruct (addVertex_fold (vertices_3d mesh) polygon lmk Hcol) as [_ H].
    apply H, Hc.
Qed.

Lemma gtsam_polygons_loop (mesh_2d : Mesh2D F) (actual hessian : gmap nat D)
    (l : list (Polygon (Point2 F))) (s s' : BuildState F D) :
  foldM (addGtsamPolygon mesh_2d actual hessian) l s = Ok s' ->
  polygons_3d (reconstructed_mesh s')
  = polygons_3d (reconstructed_mesh s)
    ++ map polygon_lmk_ids (List.filter (polygon_solved mesh_2d actual) l)
  /\ (mesh_closed (reconstructed_mesh s) -> mesh_closed (reconstructed_mesh s')).
Proof.
  revert s. induction l as [| poly l IH]; intros s; simpl.
  - intros [= <-]. by rewrite app_nil_r.
  - intros (s1 & Hstep & Hrest)%bind_Ok. apply IH in Hrest as [Hp Hclosed].
    apply addGtsamPolygon_Ok in Hstep.
    destruct (polygon_solved mesh_2d actual poly).
    + destruct Hstep as (new & -> & Hids & Hcol). simpl in Hp, Hclosed. split.
      * rewrite Hp, Hids, <- app_assoc. done.
      * intros H. by apply Hclosed, addPolygonToMesh_closed.
    + by subst s1.
Qed.

(** X11: a returning call of the factor-graph strategy returns the
    polygons of the 2D mesh all three of whose vertices have a solved
    variable, in mesh order and by landmark id, and no other; the vertices
    of the returned mesh are exactly the landmarks these polygons name, and
    every one of them carries a colour. *)
Theorem gtsam_output_polygons (st st' : Statics D) (noisy_point_cloud : PointCloud F)
    (camera_params : CameraParams D) (mesh_2d : Mesh2D F) (mesh : Mesh3D F D) :
  solveOptimalMesh kGtsamMesh st noisy_point_cloud camera_params mesh_2d
    = Ok (mesh, st') ->
  exists graph actual,
    gtsam_optimize graph = Some actual
    /\ polygons_3d mesh
       = map polygon_lmk_ids
             (List.filter (polygon_solved mesh_2d actual) (polygons_2d mesh_2d))
    /\ getNumberOfPolygons3D mesh <= getNumberOfPolygons mesh_2d
    /\ (forall lmk, is_Some (vertices_3d mesh !! lmk)
                    <-> exists polygon, In polygon (polygons_3d mesh) /\ In lmk polygon)
    /\ forall lmk position color,
         vertices_3d mesh !! lmk = Some (position, color) -> is_Some color.
Proof.
  intros (k & assoc & st0 & s1 & s2 & _ & Hempty & Hfin & ->)%solveOptimalMesh_Ok.
  simpl in Hfin. unfold solveGtsam in Hfin.
  apply bind_Ok in Hfin as (graph & _ & Hfin).
  apply bind_Ok in Hfin as (actual & Hopt & Hfin).
  exists graph, actual.
  destruct (gtsam_optimize graph) as [a |] eqn:Ha; simpl in Hopt; [| done].
  injection Hopt as ->.
  apply gtsam_polygons_loop in Hfin as [Hp Hclosed]. simpl in Hp, Hclosed.
  rewrite Hempty in Hp, Hclosed. simpl in Hp.
  destruct Hclosed as [Hdom Hcol].
  { split; simpl.
    - intros lmk. rewrite lookup_empty. split; [by intros [? ?] | by intros (? & [] & _)].
    - intros lmk position color. by rewrite lookup_empty. }
  split_and!; try done.
  unfold getNumberOfPolygons3D, getNumberOfPolygons. rewrite Hp, length_map.
  apply filter_length_le.
Qed.

Lemma solveConnected_empty (mesh_2d : Mesh2D F) (s : BuildState F D) :
  reconstructed_mesh s = empty_mesh ->
  solveConnected mesh_2d s
  = match cv_solve DECOMP_QR (vtx_ids_to_ys s)
                   (replicate (length (vtx_ids_to_ys s)) (s_ofZ 1)) with
    | [] => Ok s
    | _ :: _ => Abort CheckFailed
    end.
Proof.
  intros Hempty. unfold solveConnected.
  destruct (cv_solve _ _ _) as [| y psi]; [done |].
  cbn [length seq foldM].
  assert (Hfirst : setConnectedVertex mesh_2d (y :: psi) s 0 = Abort CheckFailed).
  { unfold setConnectedVertex. destruct (getLmkIdForVtxId mesh_2d 0); [| done].
    unfold setVertexPosition. rewrite Hempty. simpl. by rewrite lookup_empty. }
  by rewrite Hfirst.
Qed.

(** X12: the connected strategy never returns a reconstruction.  Its
    final step moves vertices of the output mesh, which at that point is
    still empty, and moving a vertex the mesh does not have is a failed
    check: if the least-squares solution has any row the call aborts with
    [CheckFailed], and a call that returns had a solution without rows and
    returns the empty mesh. *)
Theorem connected_never_reconstructs :
  (forall (mesh_2d : Mesh2D F) (s : BuildState F D),
      reconstructed_mesh s = empty_mesh ->
      cv_solve DECOMP_QR (vtx_ids_to_ys s)
               (replicate (length (vtx_ids_to_ys s)) (s_ofZ 1)) <> [] ->
      finalSwitch kConnectedMesh mesh_2d s = Abort CheckFailed)
  /\ (forall (st st' : Statics D) (noisy_point_cloud : PointCloud F)
        (camera_params : CameraParams D) (mesh_2d : Mesh2D F) (mesh : Mesh3D F D),
        solveOptimalMesh kConnectedMesh st noisy_point_cloud camera_params mesh_2d
          = Ok (mesh, st') ->
        mesh = empty_mesh
        /\ exists Y : list (list F),
             cv_solve DECOMP_QR Y (replicate (length Y) (s_ofZ 1)) = []).
Proof.
  split.
  - intros mesh_2d s Hempty Hpsi. simpl. rewrite solveConnected_empty by done.
    by destruct (cv_solve _ _ _).
  - intros st st' cloud cam mesh_2d mesh
           (k & assoc & st0 & s1 & s2 & _ & Hempty & Hfin & ->)%solveOptimalMesh_Ok.
    simpl in Hfin. rewrite solveConnected_empty in Hfin by done.
    destruct (cv_solve _ _ _) eqn:Hpsi; [| done]. injection Hfin as <-.
    split; [done |]. by exists (vtx_ids_to_ys s1).
Qed.
End OutputMesh.

Section OutputMeshRuns.
Existing Instance Numerics_IEEE.
Existing Instance External_ones.

(** The factor-graph strategy on the square mesh: both polygons returned. *)
Lemma gtsam_output_polygons_witness :
  exists mesh st',
    solveOptimalMesh kGtsamMesh fresh_statics cloud_two_three (camera_with_focal 1)
      square_mesh = Ok (mesh, st')
    /\ getNumberOfPolygons3D mesh <= 2.
Proof.
  destruct (solveOptimalMesh kGtsamMesh fresh_statics cloud_two_three
              (camera_with_focal 1) square_mesh) as [[mesh st'] | e] eqn:Hrun;
    [| by vm_compute in Hrun].
  exists mesh, st'. split; [done |].
  destruct (gtsam_output_polygons _ _ _ _ _ _ Hrun) as (_ & _ & _ & _ & Hle & _).
  exact Hle.
Defined.

(** The connected strategy on the single-triangle mesh: the solution has
    three rows and the final step aborts. *)
Lemma connected_never_reconstructs_witness :
  let assoc := fst (collectTriangleDataPoints fresh_statics cloud_in_triangle
                      single_triangle_mesh (camera_with_focal 1)) in
  finalSwitch kConnectedMesh single_triangle_mesh
    (initial_state single_triangle_mesh assoc fresh_statics) = Abort CheckFailed.
Proof.
  intros assoc. apply (proj1 connected_never_reconstructs).
  - reflexivity.
  - vm_compute. discriminate.
Defined.
End OutputMeshRuns.

(** ** The caches of pixels and bearing vectors *)

Section Caches.
Context {F D : Type} {N : Numerics F D} {E : External F D}.

Lemma add_factors_caches (s : BuildState F D) (fs : list (JacobianFactor D)) :
  vtx_ids_to_bearing_vectors (foldl add_factor s fs) = vtx_ids_to_bearing_vectors s
  /\ vtx_ids_to_pixels (foldl add_factor s fs) = vtx_ids_to_pixels s.
Proof.
  revert s. induction fs as [| f fs IH]; intros s; simpl; [done |].
  by destruct (IH (add_factor s f)) as [-> ->].
Qed.

Lemma solveDatapoint_caches (mesh_optimizer_type_ : MeshOptimizerType) (tri : Triangle F)
    (sY sY' : BuildState F D * list (list F)) (datapoint : Point3 F) :
  solveDatapoint mesh_optimizer_type_ tri sY datapoint = Ok sY' ->
  vtx_ids_to_bearing_vectors (fst sY') = vtx_ids_to_bearing_vectors (fst sY)
  /\ vtx_ids_to_pixels (fst sY') = vtx_ids_to_pixels (fst sY).
Proof.
  unfold solveDatapoint.
  destruct (cv_solve _ _ _) as [| y0 [| y1 [| y2 [| ? ?]]]]; try done.
  destruct mesh_optimizer_type_; try done; intros [= <-]; try done.
  unfold store_ys. by destruct (vtx_ids tri) as [[? ?] ?].
Qed.

Lemma triangleSwitch_caches (mesh_optimizer_type_ : MeshOptimizerType) (tri : Triangle F)
    (s : BuildState F D) (sY' : BuildState F D * list (list F)) :
  c_switch mesh_optimizer_type_ (triangleSwitch mesh_optimizer_type_ tri) (s, []) = Ok sY' ->
  vtx_ids_to_bearing_vectors (fst sY') = vtx_ids_to_bearing_vectors s
  /\ vtx_ids_to_pixels (fst sY') = vtx_ids_to_pixels s.
Proof.
  destruct (decide (mesh_optimizer_type_ = kGtsamMesh)) as [-> | Hty].
  - rewrite triangleSwitch_gtsam. intros [= <-]. cbn [fst].
    rewrite foldl_add_factor_map. apply add_factors_caches.
  - rewrite triangleSwitch_default by done.
    apply (foldM_invariant
             (fun x => vtx_ids_to_bearing_vectors (fst x) = vtx_ids_to_bearing_vectors s
                       /\ vtx_ids_to_pixels (fst x) = vtx_ids_to_pixels s)); [| done].
    intros b a b' [Hb Hp] Hstep. apply solveDatapoint_caches in Hstep as [-> ->]. done.
Qed.

(** An iteration leaves in the caches what step 2.1 wrote. *)
Lemma processTriangle_caches (mesh_optimizer_type_ : MeshOptimizerType)
    (k : Cal3_S2 D) (mesh_2d : Mesh2D F) (assoc : Association F)
    (s s' : BuildState F D) (indexed : nat * Polygon (Point2 F)) :
  processTriangle mesh_optimizer_type_ k mesh_2d assoc s indexed = Ok s' ->
  exists id0 id1 id2,
    getVtxIdForLmkId mesh_2d (getLmkId (at_0 (snd indexed))) = Some id0
    /\ getVtxIdForLmkId mesh_2d (getLmkId (at_1 (snd indexed))) = Some id1
    /\ getVtxIdForLmkId mesh_2d (getLmkId (at_2 (snd indexed))) = Some id2
    /\ let bearing v := getBearingVectorFrom2DPixel k (getVertexPosition v) in
       vtx_ids_to_bearing_vectors s'
       = <[id2 := bearing (at_2 (snd indexed))]>
           (<[id1 := bearing (at_1 (snd indexed))]>
              (<[id0 := bearing (at_0 (snd indexed))]> (vtx_ids_to_bearing_vectors s)))
       /\ vtx_ids_to_pixels s'
          = <[id2 := getVertexPosition (at_2 (snd indexed))]>
              (<[id1 := getVertexPosition (at_1 (snd indexed))]>
                 (<[id0 := getVertexPosition (at_0 (snd indexed))]> (vtx_ids_to_pixels s))).
Proof.
  unfold processTriangle.
  destruct (getVtxIdForLmkId mesh_2d (getLmkId (at_0 (snd indexed)))) as [id0 |] eqn:H0;
    [| by unfold bearingOfVertex; rewrite H0].
  rewrite (bearingOfVertex_Ok _ _ _ _ _ H0). cbn [mbind result_bind].
  destruct (getVtxIdForLmkId mesh_2d (getLmkId (at_1 (snd indexed)))) as [id1 |] eqn:H1;
    [| by unfold bearingOfVertex; rewrite H1].
  rewrite (bearingOfVertex_Ok _ _ _ _ _ H1). cbn [mbind result_bind].
  destruct (getVtxIdForLmkId mesh_2d (getLmkId (at_2 (snd indexed)))) as [id2 |] eqn:H2;
    [| by unfold bearingOfVertex; rewrite H2].
  rewrite (bearingOfVertex_Ok _ _ _ _ _ H2). cbn [mbind result_bind].
  intros H. exists id0, id1, id2.
  split; [done |]. split; [done |]. split; [done |]. cbn zeta.
  destruct (_ <? 3)%nat.
  - by injection H as <-.
  - destruct (c_switch _ _ _) as [sY |] eqn:Hsw; [| done]. simpl in H. injection H as <-.
    apply triangleSwitch_caches in Hsw as [Hb Hp]. by rewrite Hb, Hp.
Qed.

Lemma polygon_vertices_in_mesh (mesh_2d : Mesh2D F) (polygon : Polygon (Point2 F))
    (vtx : Vertex (Point2 F)) :
  In polygon (polygons_2d mesh_2d) -> In vtx (polygon_vertices polygon) ->
  In vtx (mesh_vertices mesh_2d).
Proof. intros Hp Hv. apply in_flat_map. by exists polygon. Qed.

(** The invariant of the triangle loop: whatever a cache holds belongs to
    a vertex of the mesh with that vertex id, and the two caches agree. *)
Lemma processTriangle_cached (mesh_optimizer_type_ : MeshOptimizerType)
    (k : Cal3_S2 D) (mesh_2d : Mesh2D F) (assoc : Association F)
    (s s' : BuildState F D) (indexed : nat * Polygon (Point2 F)) :
  In (snd indexed) (polygons_2d mesh_2d) ->
  processTriangle mesh_optimizer_type_ k mesh_2d assoc s indexed = Ok s' ->
  (forall i, is_Some (vtx_ids_to_bearing_vectors s !! i)
             \/ is_Some (vtx_ids_to_pixels s !! i) ->
             exists vtx, cached k mesh_2d s i vtx) ->
  (forall i, is_Some (vtx_ids_to_bearing_vectors s' !! i)
             \/ is_Some (vtx_ids_to_pixels s' !! i) ->
             exists vtx, cached k mesh_2d s' i vtx)
  /\ (forall i, is_Some (vtx_ids_to_bearing_vectors s !! i) ->
                is_Some (vtx_ids_to_bearing_vectors s' !! i))
  /\ (forall vtx, In vtx (polygon_vertices (snd indexed)) ->
         exists i, getVtxIdForLmkId mesh_2d (getLmkId vtx) = Some i
                   /\ is_Some (vtx_ids_to_bearing_vectors s' !! i)).
Proof.
  intros Hin (id0 & id1 & id2 & H0 & H1 & H2 & Hb & Hp)%processTriangle_caches Hinv.
  simpl in Hb. split_and!.
  - intros i Hi. unfold cached. rewrite Hb, Hp in *.
    destruct (decide (i = id2)) as [-> | Hn2].
    { exists (at_2 (snd indexed)). rewrite !lookup_insert_eq. split_and!; try done.
      eapply polygon_vertices_in_mesh; [done | simpl; tauto]. }
    rewrite !(lookup_insert_ne _ id2) in * by done.
    destruct (decide (i = id1)) as [-> | Hn1].
    { exists (at_1 (snd indexed)). rewrite !lookup_insert_eq. split_and!; try done.
      eapply polygon_vertices_in_mesh; [done | simpl; tauto]. }
    rewrite !(lookup_insert_ne _ id1) in * by done.
    destruct (decide (i = id0)) as [-> | Hn0].
    { exists (at_0 (snd indexed)). rewrite !lookup_insert_eq. split_and!; try done.
      eapply polygon_vertices_in_mesh; [done | simpl; tauto]. }
    rewrite !(lookup_insert_ne _ id0) in * by done.
    apply Hinv in Hi as (vtx & ? & ? & ? & ?). by exists vtx.
  - intros i Hi. rewrite Hb.
    destruct (decide (i = id2)) as [-> | Hn2]; [by rewrite lookup_insert_eq |].
    rewrite lookup_insert_ne by done.
    destruct (decide (i = id1)) as [-> | Hn1]; [by rewrite lookup_insert_eq |].
    rewrite lookup_insert_ne by done.
    destruct (decide (i = id0)) as [-> | Hn0]; [by rewrite lookup_insert_eq |].
    by rewrite lookup_insert_ne.
  - intros vtx [<- | [<- | [<- | []]]]; eexists; (split; [done |]); rewrite Hb.
    + destruct (decide (id0 = id2)) as [-> | Hn2]; [by rewrite lookup_insert_eq |].
      rewrite lookup_insert_ne by done.
      destruct (decide (id0 = id1)) as [-> | Hn1]; [by rewrite lookup_insert_eq |].
      rewrite lookup_insert_ne by done. by rewrite lookup_insert_eq.
    + destruct (decide (id1 = id2)) as [-> | Hn2]; [by rewrite lookup_insert_eq |].
      rewrite lookup_insert_ne by done. by rewrite lookup_insert_eq.
    + by rewrite lookup_insert_eq.
Qed.

Lemma triangle_loop_cached (mesh_optimizer_type_ : MeshOptimizerType)
    (k : Cal3_S2 D) (mesh_2d : Mesh2D F) (assoc : Association F)
    (l : list (nat * Polygon (Point2 F))) (s s' : BuildState F D) :
  (forall ip, In ip l -> In (snd ip) (polygons_2d mesh_2d)) ->
  foldM (processTriangle mesh_optimizer_type_ k mesh_2d assoc) l s = Ok s' ->
  (forall i, is_Some (vtx_ids_to_bearing_vectors s !! i)
             \/ is_Some (vtx_ids_to_pixels s !! i) ->
             exists vtx, cached k mesh_2d s i vtx) ->
  (forall i, is_Some (vtx_ids_to_bearing_vectors s' !! i)
             \/ is_Some (vtx_ids_to_pixels s' !! i) ->
             exists vtx, cached k mesh_2d s' i vtx)
  /\ (forall i, is_Some (vtx_ids_to_bearing_vectors s !! i) ->
                is_Some (vtx_ids_to_bearing_vectors s' !! i))
  /\ (forall ip vtx, In ip l -> In vtx (polygon_vertices (snd ip)) ->
         exists i, getVtxIdForLmkId mesh_2d (getLmkId vtx) = Some i
                   /\ is_Some (vtx_ids_to_bearing_vectors s' !! i)).
Proof.
  revert s. induction l as [| ip l IH]; intros s Hl; simpl.
  - intros [= <-] Hinv. split_and!; [done | done | by intros ? ? []].
  - intros (s1 & Hstep & Hrest)%bind_Ok Hinv.
    apply processTriangle_cached in Hstep as (Hinv1 & Hmono1 & Hcov1);
      [| apply Hl; by left | done].
    apply IH in Hrest as (Hinv' & Hmono' & Hcov'); [| intros; apply Hl; by right | done].
    split_and!; [done | by auto |].
    intros ip' vtx [<- | Hin] Hv; [| by eapply Hcov'].
    destruct (Hcov1 vtx Hv) as (i & Hi & Hsome). exists i. auto.
Qed.

(** X13: when the triangle loop of a call has run, every vertex of every
    polygon of the 2D mesh has its vertex id in both caches, and what the
    caches hold under a vertex id is the pixel of a mesh vertex with that
    vertex id (the last one scanned) and the bearing vector of that pixel:
    the reconstruction never reads a bearing vector that was not written,
    and the caches hold nothing else. *)
Theorem caches_cover_mesh (mesh_optimizer_type_ : MeshOptimizerType)
    (k : Cal3_S2 D) (mesh_2d : Mesh2D F) (assoc : Association F) (st0 : Statics D)
    (s' : BuildState F D) :
  foldM (processTriangle mesh_optimizer_type_ k mesh_2d assoc)
        (indexed_polygons mesh_2d) (initial_state mesh_2d assoc st0) = Ok s' ->
  (forall vtx, In vtx (mesh_vertices mesh_2d) ->
     exists i vtx', getVtxIdForLmkId mesh_2d (getLmkId vtx) = Some i
                    /\ cached k mesh_2d s' i vtx')
  /\ (forall i, is_Some (vtx_ids_to_bearing_vectors s' !! i)
                \/ is_Some (vtx_ids_to_pixels s' !! i) ->
                exists vtx', cached k mesh_2d s' i vtx').
Proof.
  intros Hloop.
  assert (Hsnd : map snd (indexed_polygons mesh_2d) = polygons_2d mesh_2d).
  { unfold indexed_polygons, getNumberOfPolygons. apply snd_zip. by rewrite length_seq. }
  apply triangle_loop_cached in Hloop as (Hinv & _ & Hcov).
  - split; [| done]. intros vtx (polygon & Hp & Hv)%in_flat_map.
    rewrite <- Hsnd in Hp. apply in_map_iff in Hp as (ip & <- & Hip).
    destruct (Hcov ip vtx Hip Hv) as (i & Hi & Hsome).
    destruct (Hinv i (or_introl Hsome)) as [vtx' Hc]. by exists i, vtx'.
  - intros ip Hip. rewrite <- Hsnd. by apply in_map.
  - simpl. intros i. rewrite !lookup_empty. by intros [[? ?] | [? ?]].
Qed.
End Caches.

Section CachesRuns.
Existing Instance Numerics_IEEE.
Existing Instance External_ones.

(** The caches after the triangle loop over the square mesh. *)
Lemma caches_cover_mesh_witness :
  let assoc := fst (collectTriangleDataPoints fresh_statics cloud_two_three
                      square_mesh (camera_with_focal 1)) in
  let k := make_intrinsics (camera_with_focal 1) in
  exists s',
    foldM (processTriangle kGtsamMesh k square_mesh assoc)
          (indexed_polygons square_mesh) (initial_state square_mesh assoc fresh_statics)
      = Ok s'
    /\ forall vtx, In vtx (mesh_vertices square_mesh) ->
         exists i vtx', getVtxIdForLmkId square_mesh (getLmkId vtx) = Some i
                        /\ cached k square_mesh s' i vtx'.
Proof.
  intros assoc k.
  destruct (foldM (processTriangle kGtsamMesh k square_mesh assoc)
                  (indexed_polygons square_mesh)
                  (initial_state square_mesh assoc fresh_statics))
    as [s' | e] eqn:Hrun; [| by vm_compute in Hrun].
  exists s'. split; [done |].
  exact (proj1 (caches_cover_mesh kGtsamMesh k square_mesh assoc fresh_statics s' Hrun)).
Defined.
End CachesRuns.

(** * The monocular frontend *)

Section FrontendMeasurements.
Context {F D : Type} {N : Numerics F D} {T : FrontendTypes} {X : FrontendExternal F D}.

Lemma outcome_bind_Returns {A B} (m : outcome A) (f : A -> outcome B) (b : B) :
  m ≫= f = Returns b -> exists a, m = Returns a /\ f a = Returns b.
Proof. destruct m as [a | e]; simpl; [by exists a | done]. Qed.

Lemma outcome_bind_Fails {A B} (m : outcome A) (f : A -> outcome B) (e : FrontendFailure) :
  m ≫= f = Fails e -> m = Fails e \/ exists a, m = Returns a /\ f a = Fails e.
Proof. destruct m as [a | e']; simpl; [right; by exists a | intros [= ->]; by left]. Qed.

Lemma smartMeasurementOf_step (landmarks : list LandmarkId) (keypoints : list (Point2 F))
    (acc : MonoMeasurements (D := D)) (i : nat) (lmk : LandmarkId) :
  landmarks !! i = Some lmk ->
  smartMeasurementOf landmarks keypoints acc i
  = if valid_landmark lmk then
      match keypoints !! i with
      | Some keypoint => Returns (acc ++ [measurement_of lmk keypoint])
      | None => Fails OutOfRange
      end
    else Returns acc.
Proof.
  intros Hi. unfold smartMeasurementOf, vector_at, valid_landmark. rewrite Hi. simpl.
  destruct (lmk =? -1)%Z; simpl; [done |]. by destruct (keypoints !! i).
Qed.

(** The loop of [getSmartMonoMeasurements] from index [i] on. *)
Lemma smart_loop (landmarks rest : list LandmarkId) (keypoints : list (Point2 F))
    (i : nat) (acc : MonoMeasurements (D := D)) :
  drop i landmarks = rest ->
  for_each (smartMeasurementOf landmarks keypoints) (seq i (length rest)) acc
  = if forallb (fun j => negb (valid_landmark (default (-1)%Z (landmarks !! j)))
                         || (j <? length keypoints)%nat)
               (seq i (length rest))
    then Returns (acc ++ packed_measurements rest (drop i keypoints))
    else Fails OutOfRange.
Proof.
  revert i acc. induction rest as [| lmk rest IH]; intros i acc Hdrop.
  - simpl. unfold packed_measurements. simpl. by rewrite app_nil_r.
  - assert (Hi : landmarks !! i = Some lmk).
    { rewrite <- (Nat.add_0_r i), <- lookup_drop, Hdrop. done. }
    assert (Hrest : drop (S i) landmarks = rest).
    { replace (S i) with (i + 1) by lia. by rewrite <- drop_drop, Hdrop. }
    cbn [length seq for_each forallb].
    rewrite (smartMeasurementOf_step _ _ _ _ _ Hi), Hi.
    change (default (-1)%Z (Some lmk)) with lmk.
    destruct (valid_landmark lmk) eqn:Hv; cbn [negb orb andb].
    + destruct (keypoints !! i) as [kp |] eqn:Hkp.
      * cbn [mbind outcome_bind].
        apply lookup_lt_Some in Hkp as Hlt. apply Nat.ltb_lt in Hlt. rewrite Hlt.
        cbn [andb]. rewrite (IH (S i) _ Hrest). destruct (forallb _ _); [| done].
        f_equal. rewrite <- app_assoc. f_equal. unfold packed_measurements.
        rewrite (drop_S _ _ _ Hkp). simpl. by rewrite Hv.
      * apply lookup_ge_None in Hkp. apply Nat.ltb_ge in Hkp. by rewrite Hkp.
    + cbn [mbind outcome_bind]. rewrite (IH (S i) acc Hrest).
      destruct (forallb _ _); [| done].
      f_equal. f_equal. unfold packed_measurements.
      destruct (keypoints !! i) as [kp |] eqn:Hkp.
      * rewrite (drop_S _ _ _ Hkp). simpl. by rewrite Hv.
      * apply lookup_ge_None in Hkp. rewrite !drop_ge by lia. by destruct rest.
Qed.

Lemma packed_landmarks (landmarks : list LandmarkId) (keypoints : list (Point2 F)) :
  forallb (fun j => negb (valid_landmark (default (-1)%Z (landmarks !! j)))
                    || (j <? length keypoints)%nat)
          (seq 0 (length landmarks)) = true ->
  map fst (packed_measurements (D := D) landmarks keypoints)
  = List.filter valid_landmark landmarks.
Proof.
  intros Hall.
  assert (Hin : forall j lmk, landmarks !! j = Some lmk -> valid_landmark lmk = true ->
                              j < length keypoints).
  { intros j lmk Hj Hv. rewrite forallb_forall in Hall.
    specialize (Hall j). rewrite Hj in Hall. simpl in Hall. rewrite Hv in Hall.
    simpl in Hall. apply Nat.ltb_lt, Hall. apply in_seq.
    apply lookup_lt_Some in Hj. lia. }
  clear Hall. unfold packed_measurements. rewrite map_map. simpl.
  revert keypoints Hin. induction landmarks as [| lmk ls IH]; intros kps Hin; [done |].
  destruct kps as [| kp kps].
  - simpl. destruct (valid_landmark lmk) eqn:Hv.
    + specialize (Hin 0 lmk eq_refl Hv). simpl in Hin. lia.
    + rewrite <- (IH []); [by destruct ls |].
      intros j l Hj Hl. specialize (Hin (S j) l Hj Hl). simpl in Hin. lia.
  - simpl. destruct (valid_landmark lmk); simpl; [f_equal |]; apply IH;
      intros j l Hj Hl; specialize (Hin (S j) l Hj Hl); simpl in Hin; lia.
Qed.

(** X14: [getSmartMonoMeasurements] returns, in the order of the frame,
    one measurement for each landmark of the frame that is not -1 and
    none for the others: the landmark with the keypoint of the same index,
    whose coordinates are widened to double, and a right coordinate that is
    always the NaN.  It fails only when the frame does not pass
    [checkFrame], or with [std::out_of_range] when a landmark that is not -1
    has no keypoint of its index. *)
Theorem smart_measurements_skip_invalid (frame : Frame F) :
  (forall measurements,
      getSmartMonoMeasurements frame = Returns measurements ->
      measurements = packed_measurements (landmarks_ frame) (keypoints_ frame)
      /\ map fst measurements = List.filter valid_landmark (landmarks_ frame)
      /\ Forall (fun m => fst m <> (-1)%Z /\ sp_uR (snd m) = quiet_NaN) measurements)
  /\ (forall e,
        getSmartMonoMeasurements frame = Fails e <->
        (checkFrame frame = false /\ e = FailedCheck)
        \/ (checkFrame frame = true /\ e = OutOfRange
            /\ exists i lmk, landmarks_ frame !! i = Some lmk /\ lmk <> (-1)%Z
                             /\ length (keypoints_ frame) <= i)).
Proof.
  unfold getSmartMonoMeasurements.
  pose proof (smart_loop (landmarks_ frame) (landmarks_ frame) (keypoints_ frame) 0 []
                         eq_refl) as Hloop.
  rewrite drop_0 in Hloop. simpl in Hloop.
  destruct (checkFrame frame); cbn [check mbind outcome_bind].
  - rewrite Hloop.
    destruct (forallb _ _) eqn:Hall.
    + split.
      * intros ms [= <-]. split; [done |]. split; [by apply packed_landmarks |].
        unfold packed_measurements. apply Forall_forall.
        intros m (lk & <- & Hlk)%list_elem_of_In%in_map_iff.
        apply filter_In in Hlk as [_ Hv]. simpl. split; [| done].
        unfold valid_landmark in Hv. apply negb_true_iff, Z.eqb_neq in Hv. done.
      * intros e. split; [done |]. intros [[? _] | (_ & _ & i & lmk & Hi & Hne & Hlen)]; [done |].
        exfalso. rewrite forallb_forall in Hall. specialize (Hall i).
        rewrite Hi in Hall. simpl in Hall.
        assert (Hv : valid_landmark lmk = true)
          by (unfold valid_landmark; by apply negb_true_iff, Z.eqb_neq).
        rewrite Hv in Hall. simpl in Hall.
        assert (i < length (keypoints_ frame)); [| lia].
        apply Nat.ltb_lt, Hall, in_seq. apply lookup_lt_Some in Hi. lia.
    + split; [done |]. intros e. split.
      * intros [= <-]. right. split; [done |]. split; [done |].
        assert (Hex : exists j, In j (seq 0 (length (landmarks_ frame)))
                  /\ (negb (valid_landmark (default (-1)%Z (landmarks_ frame !! j)))
                      || (j <? length (keypoints_ frame))%nat) = false).
        { clear Hloop. revert Hall.
          induction (seq 0 (length (landmarks_ frame))) as [| j js IH]; simpl; [done |].
          destruct (negb _ || _) eqn:Hj; simpl.
          - intros (j' & ? & ?)%IH. exists j'. auto.
          - intros _. exists j. auto. }
        destruct Hex as (j & Hj & Hbad). apply orb_false_iff in Hbad as [Hv Hlt].
        apply negb_false_iff in Hv. apply Nat.ltb_ge in Hlt.
        destruct (landmarks_ frame !! j) as [lmk |] eqn:Hlk; [| done].
        exists j, lmk. split; [done |]. split; [| done].
        unfold valid_landmark in Hv. simpl in Hv. by apply negb_true_iff, Z.eqb_neq in Hv.
      * intros [[? _] | (_ & -> & _)]; done.
  - split; [done |]. intros e. split.
    + intros [= <-]. by left.
    + intros [[_ ->] | (? & _)]; done.
Qed.
End FrontendMeasurements.

(** Projections of updated frontend states, computed in one pass. *)
Ltac fe_norm :=
  cbv beta iota zeta delta
    [set_frames set_mono_frame_k set_mono_frame_km1 set_mono_frame_lkf
     set_keyframe_R_ref_frame set_tracker_status_summary set_last_keyframe_timestamp
     set_frame_count set_keyframe_count set_frontend_state set_collaborators
     frames mono_frame_k_ mono_frame_km1_ mono_frame_lkf_ keyframe_R_ref_frame_
     tracker_status_summary_ last_keyframe_timestamp_ frame_count_ keyframe_count_
     frontend_state_ collaborators
     kfTrackingStatus_mono_ kfTrackingStatus_stereo_ lkf_T_k_mono_
     is_keyframe_ status_mono_measurements_ tracker_status_ frame_lkf_ pim_ feature_tracks_
     deref store make_shared mbind outcome_bind check fst snd].

Section FrontendSteps.
Context {F D : Type} {N : Numerics F D} {T : FrontendTypes} {X : FrontendExternal F D}.

Lemma deref_points_to (fe : MonoVisionFrontEnd F) (p : option nat) :
  points_to_frame fe p -> exists frame, deref fe p = Returns frame.
Proof. intros (a & -> & [frame Hf]). exists frame. simpl. by rewrite Hf. Qed.

Lemma deref_Returns (fe : MonoVisionFrontEnd F) (p : option nat) (frame : Frame F) :
  deref fe p = Returns frame -> exists a, p = Some a /\ frames fe !! a = Some frame.
Proof.
  unfold deref. destruct p as [a |]; [| done].
  destruct (frames fe !! a) eqn:Hf; [| done]. intros [= <-]. by exists a.
Qed.

Lemma store_dom (fe : MonoVisionFrontEnd F) (p : option nat) (frame : Frame F) :
  points_to_frame fe p -> dom (frames (store fe p frame)) = dom (frames fe).
Proof.
  intros (a & -> & Hf). simpl. by apply dom_insert_lookup_L.
Qed.

Lemma points_to_same_store (fe fe' : MonoVisionFrontEnd F) (p : option nat) :
  dom (frames fe') = dom (frames fe) -> points_to_frame fe p -> points_to_frame fe' p.
Proof.
  intros Hdom (a & -> & Hf). exists a. split; [done |].
  apply elem_of_dom. rewrite Hdom. by apply elem_of_dom.
Qed.

Lemma deref_store (fe : MonoVisionFrontEnd F) (a : nat) (frame : Frame F) :
  deref (store fe (Some a) frame) (Some a) = Returns frame.
Proof. simpl. by rewrite lookup_insert_eq. Qed.

(** [outlierRejectionMono] on two frames of the store. *)
Lemma outlierRejectionMono_spec (fe : MonoVisionFrontEnd F) (R : Rot3)
    (frame_lkf frame_k : option nat) :
  points_to_frame fe frame_lkf -> points_to_frame fe frame_k ->
  exists status_pose fe',
    outlierRejectionMono fe R frame_lkf frame_k = Returns (status_pose, fe')
    /\ dom (frames fe') = dom (frames fe)
    /\ mono_frame_k_ fe' = mono_frame_k_ fe
    /\ mono_frame_km1_ fe' = mono_frame_km1_ fe
    /\ mono_frame_lkf_ fe' = mono_frame_lkf_ fe
    /\ keyframe_R_ref_frame_ fe' = keyframe_R_ref_frame_ fe
    /\ last_keyframe_timestamp_ fe' = last_keyframe_timestamp_ fe
    /\ frame_count_ fe' = frame_count_ fe
    /\ keyframe_count_ fe' = keyframe_count_ fe
    /\ frontend_state_ fe' = frontend_state_ fe
    /\ kfTrackingStatus_mono_ (tracker_status_summary_ fe') = fst status_pose
    /\ kfTrackingStatus_stereo_ (tracker_status_summary_ fe')
       = kfTrackingStatus_stereo_ (tracker_status_summary_ fe)
    /\ lkf_T_k_mono_ (tracker_status_summary_ fe')
       = if bool_decide (fst status_pose = VALID) then snd status_pose
         else lkf_T_k_mono_ (tracker_status_summary_ fe).
Proof.
  intros Hl Hk. unfold outlierRejectionMono.
  destruct (deref_points_to _ _ Hl) as [lkf ->].
  destruct (deref_points_to _ _ Hk) as [k ->]. cbn [mbind outcome_bind].
  destruct (if ransac_use_2point_mono_ tracker_params_ && _ then _ else _)
    as [[[w lkf'] k'] status_pose].
  eexists _, _. split; [reflexivity |].
  assert (Hdom : dom (frames (store (store fe frame_lkf lkf') frame_k k'))
                 = dom (frames fe)).
  { rewrite store_dom; [by apply store_dom |].
    eapply points_to_same_store; [| done]. by apply store_dom. }
  destruct frame_lkf as [a |], frame_k as [b |];
    try (by destruct Hl as (? & ? & _)); try (by destruct Hk as (? & ? & _)).
  split; [exact Hdom |].
  by destruct (bool_decide (status_pose.1 = VALID)).
Qed.
(** The keyframe branch of [processFrame] up to the packing of the
    measurements. *)
Lemma processKeyframe_spec (fe : MonoVisionFrontEnd F) (R : Rot3) (a : nat)
    (k0 : Frame F) :
  mono_frame_k_ fe = Some a -> frames fe !! a = Some k0 ->
  points_to_frame fe (mono_frame_lkf_ fe) ->
  exists fe1 kf,
    processKeyframe fe R
    = (smart_mono_measurements ← getSmartMonoMeasurements kf;
       Returns (smart_mono_measurements, fe1))
    /\ frames fe1 !! a = Some kf
    /\ dom (frames fe1) = dom (frames fe)
    /\ mono_frame_k_ fe1 = Some a
    /\ mono_frame_lkf_ fe1 = Some a
    /\ mono_frame_km1_ fe1 = mono_frame_km1_ fe
    /\ keyframe_R_ref_frame_ fe1 = keyframe_R_ref_frame_ fe
    /\ last_keyframe_timestamp_ fe1 = timestamp_ k0
    /\ frame_count_ fe1 = frame_count_ fe
    /\ keyframe_count_ fe1 = (keyframe_count_ fe + 1)%Z
    /\ frontend_state_ fe1 = frontend_state_ fe
    /\ kfTrackingStatus_stereo_ (tracker_status_summary_ fe1)
       = (if useRANSAC_ tracker_params_
          then kfTrackingStatus_stereo_ (tracker_status_summary_ fe) else DISABLED)
    /\ (useRANSAC_ tracker_params_ = false ->
        kfTrackingStatus_mono_ (tracker_status_summary_ fe1) = DISABLED)
    /\ (lkf_T_k_mono_ (tracker_status_summary_ fe1)
        <> lkf_T_k_mono_ (tracker_status_summary_ fe) ->
        useRANSAC_ tracker_params_ = true
        /\ kfTrackingStatus_mono_ (tracker_status_summary_ fe1) = VALID).
Proof.
  intros Hk Hk0 Hlkf. destruct fe as [h pk pkm1 plkf Rref tss ts fc kc stt w0].
  simpl in Hk, Hk0, Hlkf |- *. subst pk. unfold processKeyframe.
  cbn -[getSmartMonoMeasurements outlierRejectionMono]. rewrite Hk0.
  cbn -[getSmartMonoMeasurements outlierRejectionMono]. rewrite lookup_insert_eq.
  cbn -[getSmartMonoMeasurements outlierRejectionMono].
  destruct (featureDetection w0 (set_isKeyframe k0 true)) as [w k1].
  cbn -[getSmartMonoMeasurements outlierRejectionMono].
  set (fe_b := set_collaborators _ w).
  assert (Hdom_b : dom (frames fe_b) = dom h).
  { simpl. rewrite dom_insert_lookup_L by (rewrite lookup_insert_eq; by eexists).
    apply dom_insert_lookup_L. by eexists. }
  assert (Hlb : points_to_frame fe_b plkf).
  { destruct Hlkf as (b & -> & Hb). exists b. split; [done |].
    apply elem_of_dom. rewrite Hdom_b. by apply elem_of_dom. }
  assert (Hpb : points_to_frame fe_b (Some a)).
  { exists a. split; [done |]. simpl. rewrite lookup_insert_eq. by eexists. }
  destruct (useRANSAC_ tracker_params_) eqn:Hransac.
  - destruct (outlierRejectionMono_spec fe_b R _ _ Hlb Hpb)
      as (sp & fe_c & -> & Hdom & Hk_c & Hkm1_c & Hlkf_c & HR & Hts & Hfc & Hkc & Hst
          & Hmono & Hstereo & Hpose).
    cbn -[getSmartMonoMeasurements]. simpl in Hk_c. rewrite Hk_c.
    assert (Hfc_a : is_Some (frames fe_c !! a)).
    { apply elem_of_dom. rewrite Hdom, Hdom_b. apply elem_of_dom. by eexists. }
    destruct Hfc_a as [kf Hkf].
    exists (set_mono_frame_lkf fe_c (Some a)), kf.
    split; [simpl; by rewrite Hkf |].
    simpl in *. rewrite Hkm1_c, HR, Hts, Hfc, Hkc, Hst, Hstereo, Hdom, Hdom_b.
    split_and!; try done.
    intros Hne. split; [done |]. rewrite Hmono. rewrite Hpose in Hne.
    case_bool_decide; [done |]. by destruct Hne.
  - cbn -[getSmartMonoMeasurements]. rewrite lookup_insert_eq.
    cbn -[getSmartMonoMeasurements].
    eexists _, k1. split; [reflexivity |]. simpl.
    rewrite lookup_insert_eq. simpl in Hdom_b. rewrite Hdom_b.
    split_and!; try done.
Qed.
(** What [processFrame] does to a frontend whose previous frame and last
    keyframe exist: it fails only in the packing of the measurements of a
    keyframe; otherwise the new frame sits at a fresh address, is the
    previous frame of the state it leaves, and either became the last
    keyframe or left the keyframe members alone. *)
Lemma processFrame_spec (fe : MonoVisionFrontEnd F) (cur_frame : Frame F) (R : Rot3)
    (feature_tracks : bool) :
  points_to_frame fe (mono_frame_km1_ fe) ->
  points_to_frame fe (mono_frame_lkf_ fe) ->
  forall a, a = fresh (dom (frames fe)) ->
  match processFrame fe cur_frame R feature_tracks with
  | Fails e => exists frame, getSmartMonoMeasurements frame = Fails e
  | Returns (summary, measurements, tracks, fe') =>
      summary = tracker_status_summary_ fe'
      /\ mono_frame_k_ fe' = None
      /\ mono_frame_km1_ fe' = Some a
      /\ dom (frames fe') = {[a]} ∪ dom (frames fe)
      /\ frame_count_ fe' = (frame_count_ fe + 1)%Z
      /\ frontend_state_ fe' = frontend_state_ fe
      /\ (is_Some tracks <-> feature_tracks = true)
      /\ exists kf,
           frames fe' !! a = Some kf
           /\ keyframe_R_ref_frame_ fe' = (if isKeyframe_ kf then Rot3_identity else R)
           /\ ((mono_frame_lkf_ fe' = Some a
                /\ keyframe_count_ fe' = (keyframe_count_ fe + 1)%Z
                /\ getSmartMonoMeasurements kf = Returns measurements
                /\ kfTrackingStatus_stereo_ summary
                   = (if useRANSAC_ tracker_params_ then INVALID else DISABLED)
                /\ (useRANSAC_ tracker_params_ = false ->
                    kfTrackingStatus_mono_ summary = DISABLED)
                /\ (lkf_T_k_mono_ summary <> lkf_T_k_mono_ (tracker_status_summary_ fe) ->
                    useRANSAC_ tracker_params_ = true
                    /\ kfTrackingStatus_mono_ summary = VALID))
               \/ (mono_frame_lkf_ fe' = mono_frame_lkf_ fe
                   /\ keyframe_count_ fe' = keyframe_count_ fe
                   /\ last_keyframe_timestamp_ fe' = last_keyframe_timestamp_ fe
                   /\ measurements = []
                   /\ isKeyframe_ kf = false
                   /\ kfTrackingStatus_mono_ summary = INVALID
                   /\ kfTrackingStatus_stereo_ summary = INVALID
                   /\ lkf_T_k_mono_ summary = lkf_T_k_mono_ (tracker_status_summary_ fe)))
  end.
Proof.
  intros Hkm1 Hlkf a Hfresh. destruct fe as [h pk pkm1 plkf Rref tss ts fc kc stt w0].
  unfold points_to_frame in Hkm1, Hlkf. simpl in Hkm1, Hlkf, Hfresh.
  destruct Hkm1 as (b & -> & [fkm1 Hb]). destruct Hlkf as (c & -> & [flkf Hc]).
  assert (Ha : h !! a = None) by (subst a; apply not_elem_of_dom, is_fresh).
  assert (Hab : a <> b) by (intros ->; congruence).
  assert (Hac : a <> c) by (intros ->; congruence).
  unfold processFrame. cbn -[getSmartMonoMeasurements processKeyframe fresh].
  rewrite <- Hfresh. clear Hfresh. rewrite (lookup_insert_ne _ a b) by done. rewrite Hb.
  cbn -[getSmartMonoMeasurements processKeyframe fresh].
  rewrite lookup_insert_eq. cbn -[getSmartMonoMeasurements processKeyframe fresh].
  destruct (featureTracking w0 fkm1 cur_frame _) as [[w km1'] k'].
  cbn -[getSmartMonoMeasurements processKeyframe fresh].
  set (h1 := <[a:=k']> (<[b:=km1']> (<[a:=cur_frame]> h))).
  assert (Ha1 : h1 !! a = Some k') by apply lookup_insert_eq.
  assert (Hdom1 : dom h1 = {[a]} ∪ dom h).
  { unfold h1.
    rewrite dom_insert_lookup_L
      by (rewrite lookup_insert_ne, lookup_insert_eq by done; by eexists).
    rewrite dom_insert_lookup_L by (rewrite lookup_insert_ne by done; by eexists).
    apply dom_insert_L. }
  assert (Hc1 : is_Some (h1 !! c)).
  { apply elem_of_dom. rewrite Hdom1. apply elem_of_union_r, elem_of_dom. by eexists. }
  destruct Hc1 as [lkf1 Hc1].
  match goal with
  | |- match ?tr ≫= _ with _ => _ end =>
      assert (Htr : exists tracks, tr = Returns tracks
                                   /\ (is_Some tracks <-> feature_tracks = true))
  end.
  { destruct feature_tracks.
    - rewrite Hc1, Ha1. cbn. eexists. split; [done |]. split; [done | by eexists].
    - exists None. split; [done |]. split; [by intros [? ?] | done]. }
  destruct Htr as (tracks & -> & Htracks).
  cbn -[getSmartMonoMeasurements processKeyframe fresh]. rewrite Ha1.
  cbn -[getSmartMonoMeasurements processKeyframe fresh].
  destruct (max_time_elapsed tracker_params_ (timestamp_ k') ts
            || nr_features_low tracker_params_ (getNrValidKeypoints k')
            || isKeyframe_ k').
  - match goal with
    | |- context [processKeyframe ?fe_t R] =>
        destruct (processKeyframe_spec fe_t R a k' eq_refl Ha1)
          as (fe1 & kf & -> & Hkf & Hdom & Hk & Hl & Hkm1 & HR & Hts & Hfc & Hkc & Hst
              & Hstereo & Hmono & Hpose)
    end.
    { exists c. split; [done |]. simpl. fold h1. rewrite Hc1. by eexists. }
    destruct (getSmartMonoMeasurements kf) as [ms | e] eqn:Hms;
      cbn -[getSmartMonoMeasurements fresh]; [| by exists kf].
    rewrite Hk. cbn -[getSmartMonoMeasurements fresh]. rewrite Hkf.
    cbn -[getSmartMonoMeasurements fresh]. simpl in Hdom, Hfc, Hkc, Hst, Hstereo, Hpose.
    fold h1 in Hdom. rewrite Hdom, Hdom1, Hfc, Hst.
    split_and!; try done.
    exists kf. split; [done |]. split; [done |]. left. rewrite Hl, Hkc.
    split_and!; done.
  - cbn -[fresh]. rewrite lookup_insert_eq. cbn -[fresh].
    rewrite dom_insert_lookup_L by (by eexists). rewrite Hdom1.
    split_and!; try done.
    eexists. split; [apply lookup_insert_eq |]. split; [done |]. right.
    split_and!; done.
Qed.
Lemma outcome_Returns_pair {A B} (m : outcome (A * B)) (P : A -> B -> Prop) :
  match m with
  | Fails _ => False
  | Returns (a, b) => P a b
  end ->
  exists a b, m = Returns (a, b) /\ P a b.
Proof. destruct m as [[a b] | e]; [| done]. intros HP. by exists a, b. Qed.

(** A nominal spin on a ready frontend, case by case on what the IMU
    frontend and [processFrame] return. *)
Lemma nominalSpin_spec (fe : MonoVisionFrontEnd F) (input : MonoFrontEndInputPayload) :
  nominal_ready fe ->
  match preintegrateImuMeasurements (collaborators fe) (getImuStamps input)
          (getImuAccGyrs input) with
  | (w, None) => nominalSpin fe input = Fails FailedCheck
  | (w, Some pim) =>
      match processFrame (set_collaborators fe w) (getFrame input)
              (Rot3_compose
                 (Rot3_compose (Rot3_inverse (Pose3_rotation getBodyPoseCamRect))
                               (deltaRij pim))
                 (Pose3_rotation getBodyPoseCamRect)) true with
      | Fails e =>
          nominalSpin fe input = Fails e
          /\ exists frame, getSmartMonoMeasurements frame = Fails e
      | Returns (summary, smart_mono_measurements, tracks, fe1) =>
          exists output fe',
            nominalSpin fe input = Returns (output, fe')
            /\ (nominal_ready fe'
      /\ frame_count_ fe' = (frame_count_ fe + 1)%Z
      /\ mono_frame_km1_ fe' = Some (fresh (dom (frames fe)))
      /\ dom (frames fe') = {[fresh (dom (frames fe))]} ∪ dom (frames fe)
      /\ is_Some (pim_ output)
      /\ is_Some (feature_tracks_ output)
      /\ deref fe' (mono_frame_lkf_ fe') = Returns (frame_lkf_ output)
      /\ (exists measurements,
            status_mono_measurements_ output
            = Some (tracker_status_summary_ fe', measurements)
            /\ (mono_frame_lkf_ fe' = mono_frame_lkf_ fe -> measurements = []))
      /\ (is_keyframe_ output = true ->
          mono_frame_lkf_ fe' = mono_frame_km1_ fe'
          /\ keyframe_count_ fe' = (keyframe_count_ fe + 1)%Z
          /\ isKeyframe_ (frame_lkf_ output) = true
          /\ tracker_status_ output = kfTrackingStatus_mono_ (tracker_status_summary_ fe'))
      /\ (is_keyframe_ output = false -> tracker_status_ output = INVALID)
      /\ (keyframe_count_ fe' = keyframe_count_ fe
          \/ keyframe_count_ fe' = (keyframe_count_ fe + 1)%Z)
      /\ (lkf_T_k_mono_ (tracker_status_summary_ fe')
          <> lkf_T_k_mono_ (tracker_status_summary_ fe) ->
          useRANSAC_ tracker_params_ = true
          /\ kfTrackingStatus_mono_ (tracker_status_summary_ fe') = VALID
          /\ mono_frame_lkf_ fe' = mono_frame_km1_ fe')
      /\ status_mono_measurements_ output = Some (summary, smart_mono_measurements)
      /\ feature_tracks_ output = tracks
      /\ pim_ output = Some pim
      /\ fe' = (if is_keyframe_ output
                then set_collaborators fe1
                       (resetIntegrationWithCachedBias (collaborators fe1))
                else fe1))
      end
  end.
Proof.
  intros (Hstate & Hk & Hkm1 & Hlkf).
  destruct (preintegrateImuMeasurements _ _ _) as [w [pim |]] eqn:Hpre.
  2: { unfold nominalSpin. rewrite Hstate. cbn -[processFrame keyframeChecks fresh].
       by rewrite Hpre. }
  set (fe_w := set_collaborators fe w).
  pose proof (processFrame_spec fe_w (getFrame input)
                (Rot3_compose
                   (Rot3_compose (Rot3_inverse (Pose3_rotation getBodyPoseCamRect))
                                 (deltaRij pim))
                   (Pose3_rotation getBodyPoseCamRect))
                true Hkm1 Hlkf _ eq_refl) as Hspec.
  destruct (processFrame fe_w _ _ true) as [[[[summary ms] tracks] fe'] | e] eqn:Hpf.
  2: { split; [| exact Hspec]. unfold nominalSpin. rewrite Hstate.
       cbn -[processFrame keyframeChecks fresh]. rewrite Hpre.
       cbn -[processFrame keyframeChecks fresh]. fold fe_w. by rewrite Hpf. }
  apply outcome_Returns_pair. unfold nominalSpin. rewrite Hstate.
  cbn -[processFrame keyframeChecks fresh]. rewrite Hpre.
  cbn -[processFrame keyframeChecks fresh]. fold fe_w. rewrite Hpf.
  cbn -[keyframeChecks fresh].
  destruct Hspec as (-> & Hk' & Hkm1' & Hdom & Hfc & Hst & Htracks & kf & Hkf & HR & Hcase).
  change (frames fe_w) with (frames fe) in *.
  change (frame_count_ fe_w) with (frame_count_ fe) in *.
  change (frontend_state_ fe_w) with (frontend_state_ fe) in *.
  change (keyframe_count_ fe_w) with (keyframe_count_ fe) in *.
  change (mono_frame_lkf_ fe_w) with (mono_frame_lkf_ fe) in *.
  change (last_keyframe_timestamp_ fe_w) with (last_keyframe_timestamp_ fe) in *.
  change (tracker_status_summary_ fe_w) with (tracker_status_summary_ fe) in *.
  clearbody fe_w.
  rewrite Hk'. cbn -[keyframeChecks fresh]. rewrite Hkm1'. simpl. rewrite Hkf.
  cbn -[keyframeChecks fresh].
  assert (Hready : points_to_frame fe' (mono_frame_lkf_ fe') -> nominal_ready fe').
  { intros Hp. split; [congruence |]. split; [done |]. split; [| done].
    eexists. split; [done |]. rewrite Hkf. by eexists. }
  assert (Hfresh : mono_frame_lkf_ fe' = Some (fresh (dom (frames fe))) ->
                   mono_frame_lkf_ fe' <> mono_frame_lkf_ fe).
  { intros Hl Heq. rewrite Hl in Heq. destruct Hlkf as (c & Hc & Hin).
    rewrite Hc in Heq. injection Heq as Heq.
    apply elem_of_dom in Hin. rewrite <- Heq in Hin. by apply is_fresh in Hin. }
  destruct Hcase as [(Hl & Hkc & Hms & Hstereo & Hmono & Hpose)
                    | (Hl & Hkc & Hts & -> & Hflag & Hmono & Hstereo & Hpose)].
  - assert (Hpl : points_to_frame fe' (mono_frame_lkf_ fe')).
    { rewrite Hl. eexists. split; [done |]. rewrite Hkf. by eexists. }
    assert (Hd : deref fe' (mono_frame_lkf_ fe') = Returns kf)
      by (rewrite Hl; simpl; by rewrite Hkf).
    destruct (isKeyframe_ kf) eqn:Hflag.
    + unfold keyframeChecks. rewrite Hd, Hkm1', Hk'. simpl. rewrite Hkf. simpl.
      rewrite !Z.eqb_refl, Hflag. simpl.
      change (deref (set_collaborators fe' (resetIntegrationWithCachedBias
                                               (collaborators fe')))
                    (mono_frame_lkf_ fe'))
        with (deref fe' (mono_frame_lkf_ fe')).
      rewrite Hd. simpl.
      split; [exact (Hready Hpl) |].
      split_and!; try done; try (by apply Htracks); try (by eexists); try (by right).
      * exists ms. split; [done |]. intros Heq. by destruct (Hfresh Hl).
      * intros _. rewrite Hl, Hkm1'. done.
      * intros Hne. destruct (Hpose Hne). by rewrite Hl, Hkm1'.
    + rewrite Hd. simpl.
      split; [exact (Hready Hpl) |].
      split_and!; try done; try (by apply Htracks); try (by eexists); try (by right).
      * exists ms. split; [done |]. intros Heq. by destruct (Hfresh Hl).
      * intros Hne. destruct (Hpose Hne). by rewrite Hl, Hkm1'.
  - rewrite Hflag.
    assert (Hpl : points_to_frame fe' (mono_frame_lkf_ fe')).
    { rewrite Hl. destruct Hlkf as (c & -> & Hin). exists c. split; [done |].
      apply elem_of_dom. rewrite Hdom. apply elem_of_union_r. by apply elem_of_dom. }
    destruct (deref_points_to _ _ Hpl) as [lkf Hd]. rewrite Hd. simpl.
    split; [exact (Hready Hpl) |].
    split_and!; try done; try (by apply Htracks); try (by eexists); try (by left).
Qed.
Lemma getSmartMonoMeasurements_Fails (frame : Frame F) (e : FrontendFailure) :
  getSmartMonoMeasurements frame = Fails e -> e = FailedCheck \/ e = OutOfRange.
Proof.
  unfold getSmartMonoMeasurements.
  destruct (checkFrame frame); cbn [check mbind outcome_bind]; [| intros [= <-]; by left].
  rewrite (smart_loop (landmarks_ frame) (landmarks_ frame) (keypoints_ frame) 0 [] eq_refl).
  destruct (forallb _ _); [done | intros [= <-]; by right].
Qed.

Lemma bootstrapSpin_spec (fe : MonoVisionFrontEnd F) (input : MonoFrontEndInputPayload) :
  forall a, a = fresh (dom (frames fe)) ->
  match bootstrapSpin fe input with
  | Fails e =>
      e = FailedCheck
      /\ (frontend_state_ fe <> Bootstrap \/ keypoints_ (getFrame input) <> [])
  | Returns (output, fe') =>
      frontend_state_ fe = Bootstrap
      /\ keypoints_ (getFrame input) = []
      /\ nominal_ready fe'
      /\ mono_frame_km1_ fe' = Some a
      /\ mono_frame_lkf_ fe' = Some a
      /\ frame_count_ fe' = (frame_count_ fe + 1)%Z
      /\ keyframe_count_ fe' = keyframe_count_ fe
      /\ last_keyframe_timestamp_ fe' = timestamp_ (getFrame input)
      /\ tracker_status_summary_ fe' = tracker_status_summary_ fe
      /\ deref fe' (mono_frame_lkf_ fe') = Returns (frame_lkf_ output)
      /\ frame_lkf_ output
         = snd (featureDetection (collaborators fe) (set_isKeyframe (getFrame input) true))
      /\ is_keyframe_ output = isKeyframe_ (frame_lkf_ output)
      /\ tracker_status_ output = DISABLED
      /\ status_mono_measurements_ output = None
      /\ pim_ output = None
  end.
Proof.
  intros a Hfresh. unfold bootstrapSpin.
  destruct (decide (frontend_state_ fe = Bootstrap)) as [Hstate | Hstate].
  2: { rewrite bool_decide_false by done. cbn [check mbind outcome_bind].
       split; [done | by left]. }
  rewrite bool_decide_true by done. cbn [check mbind outcome_bind].
  unfold processFirstFrame, make_shared. rewrite <- Hfresh. clear Hfresh.
  destruct fe as [h pk pkm1 plkf Rref tss ts fc kc stt w0]. simpl in Hstate. subst stt.
  fe_norm. rewrite lookup_insert_eq. fe_norm. rewrite lookup_insert_eq. fe_norm.
  unfold set_isKeyframe at 1. cbn [keypoints_].
  destruct (keypoints_ (getFrame input)) as [| kp kps] eqn:Hkp; cbn [length Nat.eqb];
    [| split; [done | by right]].
  destruct (featureDetection w0 (set_isKeyframe (getFrame input) true)) as [w k1] eqn:Hdet.
  fe_norm. rewrite bool_decide_true by (by eexists). rewrite lookup_insert_eq.
  unfold nominal_ready, points_to_frame. fe_norm.
  split_and!; try done.
  - eexists. split; [done |]. rewrite lookup_insert_eq. by eexists.
  - eexists. split; [done |]. rewrite lookup_insert_eq. by eexists.
  - by rewrite lookup_insert_eq.
Qed.

(** X15: [processFrame], on a frontend whose previous frame and last
    keyframe exist, puts the new frame at a fresh address, makes it the
    previous frame, resets the pointer to the current frame and counts the
    frame.  Either the frame became the last keyframe, the keyframe count
    went up by one and the measurements returned are those of that frame;
    or the last keyframe, the keyframe count and the time of the last
    keyframe are as before, no measurement is returned and the next
    tracking starts from the rotation it was given. *)
Theorem processFrame_bookkeeping (fe fe' : MonoVisionFrontEnd F) (cur_frame : Frame F)
    (keyframe_R_cur_frame : Rot3) (feature_tracks : bool)
    (summary : TrackerStatusSummary) (measurements : MonoMeasurements (D := D))
    (tracks : option Image) :
  points_to_frame fe (mono_frame_km1_ fe) ->
  points_to_frame fe (mono_frame_lkf_ fe) ->
  processFrame fe cur_frame keyframe_R_cur_frame feature_tracks
    = Returns (summary, measurements, tracks, fe') ->
  let a := fresh (dom (frames fe)) in
  frames fe !! a = None
  /\ mono_frame_k_ fe' = None
  /\ mono_frame_km1_ fe' = Some a
  /\ frame_count_ fe' = (frame_count_ fe + 1)%Z
  /\ summary = tracker_status_summary_ fe'
  /\ exists kf,
       frames fe' !! a = Some kf
       /\ ((mono_frame_lkf_ fe' = Some a
            /\ keyframe_count_ fe' = (keyframe_count_ fe + 1)%Z
            /\ getSmartMonoMeasurements kf = Returns measurements)
           \/ (mono_frame_lkf_ fe' = mono_frame_lkf_ fe
               /\ keyframe_count_ fe' = keyframe_count_ fe
               /\ last_keyframe_timestamp_ fe' = last_keyframe_timestamp_ fe
               /\ measurements = []
               /\ isKeyframe_ kf = false
               /\ keyframe_R_ref_frame_ fe' = keyframe_R_cur_frame)).
Proof.
  intros Hkm1 Hlkf Hrun a.
  pose proof (processFrame_spec fe cur_frame keyframe_R_cur_frame feature_tracks
                Hkm1 Hlkf a eq_refl) as Hspec.
  rewrite Hrun in Hspec.
  destruct Hspec as (-> & Hk & Hkm1' & _ & Hfc & _ & _ & kf & Hkf & HR & Hcase).
  split; [apply not_elem_of_dom, is_fresh |]. split_and!; try done.
  exists kf. split; [done |].
  destruct Hcase as [(Hl & Hkc & Hms & _) | (Hl & Hkc & Hts & -> & Hflag & _)].
  - left. done.
  - right. rewrite Hflag in HR. done.
Qed.

(** X16: the tracking status [processFrame] leaves and returns.  When
    the frame did not become the last keyframe both statuses are [INVALID];
    when it did, both are [DISABLED] without RANSAC, and with RANSAC the
    stereo status is [INVALID].  The relative pose of the summary, and with
    it the relative pose of the body, changes only when the frame became
    the last keyframe, RANSAC is on and its status is [VALID]. *)
Theorem processFrame_tracking_status (fe fe' : MonoVisionFrontEnd F) (cur_frame : Frame F)
    (keyframe_R_cur_frame : Rot3) (feature_tracks : bool)
    (summary : TrackerStatusSummary) (measurements : MonoMeasurements (D := D))
    (tracks : option Image) :
  points_to_frame fe (mono_frame_km1_ fe) ->
  points_to_frame fe (mono_frame_lkf_ fe) ->
  processFrame fe cur_frame keyframe_R_cur_frame feature_tracks
    = Returns (summary, measurements, tracks, fe') ->
  (mono_frame_lkf_ fe' = mono_frame_lkf_ fe ->
   kfTrackingStatus_mono_ summary = INVALID /\ kfTrackingStatus_stereo_ summary = INVALID)
  /\ (mono_frame_lkf_ fe' = mono_frame_km1_ fe' ->
      kfTrackingStatus_stereo_ summary
      = (if useRANSAC_ tracker_params_ then INVALID else DISABLED)
      /\ (useRANSAC_ tracker_params_ = false -> kfTrackingStatus_mono_ summary = DISABLED))
  /\ (getRelativePoseBody fe' <> getRelativePoseBody fe ->
      mono_frame_lkf_ fe' = mono_frame_km1_ fe'
      /\ useRANSAC_ tracker_params_ = true
      /\ kfTrackingStatus_mono_ summary = VALID).
Proof.
  intros Hkm1 Hlkf Hrun.
  pose proof (processFrame_spec fe cur_frame keyframe_R_cur_frame feature_tracks
                Hkm1 Hlkf _ eq_refl) as Hspec.
  rewrite Hrun in Hspec.
  destruct Hspec as (-> & Hk & Hkm1' & _ & Hfc & _ & _ & kf & Hkf & HR & Hcase).
  assert (Hfresh : mono_frame_lkf_ fe <> Some (fresh (dom (frames fe)))).
  { destruct Hlkf as (c & -> & Hin). intros [= ->].
    apply elem_of_dom in Hin. by apply is_fresh in Hin. }
  destruct Hcase as [(Hl & Hkc & Hms & Hstereo & Hmono & Hpose)
                    | (Hl & Hkc & Hts & -> & Hflag & Hmono & Hstereo & Hpose)].
  - split_and!.
    + intros Heq. rewrite Hl in Heq. by destruct Hfresh.
    + done.
    + intros Hne. rewrite Hl, Hkm1'. split; [done |]. apply Hpose.
      intros Heq. apply Hne. unfold getRelativePoseBody. by rewrite Heq.
  - split_and!.
    + done.
    + intros Heq. rewrite Hl, Hkm1' in Heq. by destruct Hfresh.
    + intros Hne. destruct Hne. unfold getRelativePoseBody. by rewrite Hpose.
Qed.

(** X17: a nominal spin on a ready frontend, case by case.  When the IMU
    frontend returns no preintegration the spin fails on its [CHECK(pim)].
    When [processFrame] fails the spin fails with the same failure, which is
    a failed check or an access out of range, never a null dereference.
    When [processFrame] returns, the spin returns: [CHECK(!mono_frame_k_)],
    the two [CHECK_EQ] and the [CHECK] on a keyframe pass and no null
    pointer is dereferenced.  The returned output carries the status, the
    measurements and the image of [processFrame] and the preintegration;
    the frontend is the one [processFrame] left, with the integration reset
    on a keyframe, is ready for the next spin and has counted the frame; an
    output flagged as keyframe carries the last keyframe, which is then the
    previous frame and is itself flagged, and an output that is not flagged
    carries the status [INVALID]. *)
Theorem nominalSpin_checks_never_fail (fe : MonoVisionFrontEnd F)
    (input : MonoFrontEndInputPayload) :
  nominal_ready fe ->
  match preintegrateImuMeasurements (collaborators fe) (getImuStamps input)
          (getImuAccGyrs input) with
  | (w, None) => nominalSpin fe input = Fails FailedCheck
  | (w, Some pim) =>
      match processFrame (set_collaborators fe w) (getFrame input)
              (Rot3_compose
                 (Rot3_compose (Rot3_inverse (Pose3_rotation getBodyPoseCamRect))
                               (deltaRij pim))
                 (Pose3_rotation getBodyPoseCamRect)) true with
      | Fails e =>
          nominalSpin fe input = Fails e /\ (e = FailedCheck \/ e = OutOfRange)
      | Returns (summary, smart_mono_measurements, tracks, fe1) =>
          exists output fe',
            nominalSpin fe input = Returns (output, fe')
            /\ status_mono_measurements_ output = Some (summary, smart_mono_measurements)
            /\ feature_tracks_ output = tracks
            /\ pim_ output = Some pim
            /\ fe' = (if is_keyframe_ output
                      then set_collaborators fe1
                             (resetIntegrationWithCachedBias (collaborators fe1))
                      else fe1)
            /\ nominal_ready fe'
            /\ frame_count_ fe' = (frame_count_ fe + 1)%Z
            /\ deref fe' (mono_frame_lkf_ fe') = Returns (frame_lkf_ output)
            /\ (is_keyframe_ output = true ->
                mono_frame_lkf_ fe' = mono_frame_km1_ fe'
                /\ keyframe_count_ fe' = (keyframe_count_ fe + 1)%Z
                /\ isKeyframe_ (frame_lkf_ output) = true)
            /\ (is_keyframe_ output = false -> tracker_status_ output = INVALID)
      end
  end.
Proof.
  intros Hready. pose proof (nominalSpin_spec fe input Hready) as Hspec. revert Hspec.
  destruct (preintegrateImuMeasurements _ _ _) as [w [pim |]]; [| done].
  destruct (processFrame _ _ _ _) as [[[[summary ms] tracks] fe1] | e].
  - intros (output & fe' & Hrun & H1 & H2 & _ & _ & _ & _ & H3 & _ & H4 & H5 & _ & _
            & H6 & H7 & H8 & H9).
    exists output, fe'. split_and!; try done.
    intros Hkf. by destruct (H4 Hkf) as (? & ? & ? & _).
  - intros [Hrun [frame Hf]]. split; [done |].
    exact (getSmartMonoMeasurements_Fails _ _ Hf).
Qed.

(** X18: [bootstrapSpin] returns exactly when the frontend is in its
    bootstrap state and the first frame comes without keypoints, and fails
    a check otherwise.  When it returns, the first frame is both the
    previous frame and the last keyframe, the frontend is ready for nominal
    spins, the frame but no keyframe has been counted, the output has status
    [DISABLED] and no measurements, and a second [bootstrapSpin] fails. *)
Theorem bootstrapSpin_once (fe : MonoVisionFrontEnd F) (input : MonoFrontEndInputPayload) :
  ((exists output fe', bootstrapSpin fe input = Returns (output, fe'))
   <-> frontend_state_ fe = Bootstrap /\ keypoints_ (getFrame input) = [])
  /\ (forall e, bootstrapSpin fe input = Fails e -> e = FailedCheck)
  /\ (forall output fe',
        bootstrapSpin fe input = Returns (output, fe') ->
        nominal_ready fe'
        /\ mono_frame_km1_ fe' = mono_frame_lkf_ fe'
        /\ (forall a, mono_frame_lkf_ fe' = Some a -> frames fe !! a = None)
        /\ frame_count_ fe' = (frame_count_ fe + 1)%Z
        /\ keyframe_count_ fe' = keyframe_count_ fe
        /\ last_keyframe_timestamp_ fe' = timestamp_ (getFrame input)
        /\ tracker_status_ output = DISABLED
        /\ status_mono_measurements_ output = None
        /\ forall input', bootstrapSpin fe' input' = Fails FailedCheck).
Proof.
  pose proof (bootstrapSpin_spec fe input _ eq_refl) as Hspec. split_and!.
  - split.
    + intros (output & fe' & Hrun). rewrite Hrun in Hspec. by destruct Hspec as (? & ? & _).
    + intros [Hstate Hkp].
      destruct (bootstrapSpin fe input) as [[output fe'] | e]; [by eexists _, _ |].
      destruct Hspec as [_ [? | ?]]; done.
  - intros e He. rewrite He in Hspec. by destruct Hspec.
  - intros output fe' Hrun. rewrite Hrun in Hspec.
    destruct Hspec as (_ & _ & Hready & Hkm1 & Hlkf & Hfc & Hkc & Hts & _ & _ & _ & _
                       & Hstatus & Hms & _).
    split_and!; try done.
    + by rewrite Hkm1, Hlkf.
    + rewrite Hlkf. intros a [= <-]. apply not_elem_of_dom, is_fresh.
    + intros input'. destruct Hready as (Hstate & _).
      unfold bootstrapSpin. rewrite Hstate. done.
Qed.
(** X19: a run of nominal spins that returns counts one frame per input
    and at most one keyframe per input, never takes a keyframe back, keeps
    every frame address in use, and leaves the frontend ready for more. *)
Theorem nominalSpins_count_frames (inputs : list MonoFrontEndInputPayload)
    (fe fe' : MonoVisionFrontEnd F) :
  nominal_ready fe ->
  nominalSpins fe inputs = Returns fe' ->
  nominal_ready fe'
  /\ frame_count_ fe' = (frame_count_ fe + Z.of_nat (length inputs))%Z
  /\ (keyframe_count_ fe <= keyframe_count_ fe'
      <= keyframe_count_ fe + Z.of_nat (length inputs))%Z
  /\ dom (frames fe) ⊆ dom (frames fe').
Proof.
  unfold nominalSpins. revert fe. induction inputs as [| input inputs IH]; intros fe Hready.
  - intros [= <-]. split_and!; simpl; try done; lia.
  - cbn [for_each]. pose proof (nominalSpin_spec fe input Hready) as Hspec. revert Hspec.
    destruct (preintegrateImuMeasurements _ _ _) as [w [pim |]]; [| by intros ->].
    destruct (processFrame _ _ _ _) as [[[[summary ms] tracks] fe0] | e];
      [| by intros [-> _]].
    intros (output & fe1 & -> & Hready1 & Hfc & _ & Hdom & _ & _ & _ & _ & _ & _ & Hkc & _).
    cbn [mbind outcome_bind]. intros Hrest.
    destruct (IH fe1 Hready1 Hrest) as (Hready' & Hfc' & Hkc' & Hdom').
    split; [done |]. split; [rewrite Hfc', Hfc; cbn [length]; lia |].
    split; [cbn [length]; lia |].
    etrans; [| exact Hdom']. rewrite Hdom. apply union_subseteq_r.
Qed.
End FrontendSteps.

Section FrontendRuns.
Existing Instance Numerics_IEEE.
Existing Instance FrontendTypes_still.
Existing Instance External_still.

Lemma running_frontend_ready : nominal_ready running_frontend.
Proof.
  split; [done |]. split; [done |].
  split; exists 0; (split; [done |]); vm_compute; by eexists.
Qed.

(** A frame 10 time units after the keyframe becomes the next keyframe. *)
Lemma processFrame_bookkeeping_witness :
  exists summary measurements tracks fe',
    processFrame running_frontend (empty_frame 1 10) true true
      = Returns (summary, measurements, tracks, fe')
    /\ mono_frame_km1_ fe' = Some 1
    /\ frame_count_ fe' = 2%Z.
Proof.
  destruct (processFrame running_frontend (empty_frame 1 10) true true)
    as [[[[summary measurements] tracks] fe'] | e] eqn:Hrun; [| by vm_compute in Hrun].
  exists summary, measurements, tracks, fe'. split; [done |].
  destruct (processFrame_bookkeeping running_frontend fe' (empty_frame 1 10) true true
              summary measurements tracks) as (_ & _ & Hkm1 & Hfc & _).
  - exists 0. split; [done |]. vm_compute. by eexists.
  - exists 0. split; [done |]. vm_compute. by eexists.
  - exact Hrun.
  - split; [| exact Hfc]. rewrite Hkm1. vm_compute. reflexivity.
Defined.

(** A frame 3 time units after the keyframe is no keyframe: both statuses
    are [INVALID]. *)
Lemma processFrame_tracking_status_witness :
  exists summary measurements tracks fe',
    processFrame running_frontend (empty_frame 1 3) true true
      = Returns (summary, measurements, tracks, fe')
    /\ kfTrackingStatus_mono_ summary = INVALID
    /\ kfTrackingStatus_stereo_ summary = INVALID.
Proof.
  destruct (processFrame running_frontend (empty_frame 1 3) true true)
    as [[[[summary measurements] tracks] fe'] | e] eqn:Hrun; [| by vm_compute in Hrun].
  exists summary, measurements, tracks, fe'. split; [done |].
  destruct (processFrame_tracking_status running_frontend fe' (empty_frame 1 3) true true
              summary measurements tracks) as (Hsame & _).
  - exists 0. split; [done |]. vm_compute. by eexists.
  - exists 0. split; [done |]. vm_compute. by eexists.
  - exact Hrun.
  - apply Hsame. vm_compute in Hrun. by injection Hrun as _ _ _ <-.
Defined.

(** A nominal spin on the running frontend returns a keyframe. *)
Lemma nominalSpin_checks_never_fail_witness :
  exists output fe',
    nominalSpin running_frontend (input_of (empty_frame 1 10)) = Returns (output, fe')
    /\ nominal_ready fe'
    /\ frame_count_ fe' = 2%Z.
Proof.
  pose proof (nominalSpin_checks_never_fail running_frontend
                (input_of (empty_frame 1 10)) running_frontend_ready) as Hspin.
  revert Hspin.
  destruct (preintegrateImuMeasurements _ _ _) as [w [pim |]] eqn:Hpre;
    [| by vm_compute in Hpre].
  destruct (processFrame _ _ _ _) as [[[[summary ms] tracks] fe1] | e] eqn:Hpf;
    [| by vm_compute in Hpf].
  intros (output & fe' & Hrun & _ & _ & _ & _ & Hready & Hfc & _).
  exists output, fe'. split; [exact Hrun |]. split; [exact Hready | exact Hfc].
Defined.

(** Three nominal spins, the second of which is no keyframe. *)
Lemma nominalSpins_count_frames_witness :
  exists fe',
    nominalSpins running_frontend
      [input_of (empty_frame 1 10); input_of (empty_frame 2 12);
       input_of (empty_frame 3 20)] = Returns fe'
    /\ frame_count_ fe' = 4%Z.
Proof.
  destruct (nominalSpins running_frontend
              [input_of (empty_frame 1 10); input_of (empty_frame 2 12);
               input_of (empty_frame 3 20)]) as [fe' | e] eqn:Hrun;
    [| by vm_compute in Hrun].
  exists fe'. split; [done |].
  destruct (nominalSpins_count_frames _ _ _ running_frontend_ready Hrun) as (_ & Hfc & _).
  exact Hfc.
Defined.
(** The frame the detector leaves: one measurement, for landmark 7. *)
Lemma smart_measurements_skip_invalid_witness :
  exists measurements,
    getSmartMonoMeasurements
      (mkFrame (T := FrontendTypes_still) 0%Z 0%Z true [pixel_at 1 2; pixel_at 3 4]
               [7%Z; (-1)%Z] tt)
      = Returns measurements
    /\ map fst measurements = [7%Z].
Proof.
  destruct (getSmartMonoMeasurements
              (mkFrame (T := FrontendTypes_still) 0%Z 0%Z true [pixel_at 1 2; pixel_at 3 4]
               [7%Z; (-1)%Z] tt))
    as [measurements | e] eqn:Hrun; [| by vm_compute in Hrun].
  exists measurements. split; [done |].
  destruct (proj1 (smart_measurements_skip_invalid _) measurements Hrun) as (_ & Hids & _).
  exact Hids.
Defined.

(** The first spin of the frontend as constructed. *)
Lemma bootstrapSpin_once_witness :
  exists output fe',
    bootstrapSpin constructed_frontend (input_of (empty_frame 0 0)) = Returns (output, fe')
    /\ nominal_ready fe'
    /\ tracker_status_ output = DISABLED.
Proof.
  destruct (bootstrapSpin constructed_frontend (input_of (empty_frame 0 0)))
    as [[output fe'] | e] eqn:Hrun; [| by vm_compute in Hrun].
  exists output, fe'. split; [done |].
  destruct (proj2 (proj2 (bootstrapSpin_once constructed_frontend
                            (input_of (empty_frame 0 0)))) output fe' Hrun)
    as (Hready & _ & _ & _ & _ & _ & Hstatus & _).
  split; [exact Hready | exact Hstatus].
Defined.
End FrontendRuns.

Section ConnectedRowsRuns.
Existing Instance Numerics_IEEE.
Existing Instance External_ones.

(** The triangle loop of the connected strategy over the single-triangle
    mesh: the four samples take the rows 0 to 3. *)
Lemma connected_rows_never_overwritten_witness :
  let assoc := fst (collectTriangleDataPoints fresh_statics cloud_in_triangle
                      single_triangle_mesh (camera_with_focal 1)) in
  exists s',
    foldM (processTriangle kConnectedMesh (make_intrinsics (camera_with_focal 1))
             single_triangle_mesh assoc)
          (indexed_polygons single_triangle_mesh)
          (initial_state single_triangle_mesh assoc fresh_statics) = Ok s'
    /\ n_datapoint s' = 4.
Proof.
  intros assoc.
  destruct (foldM (processTriangle kConnectedMesh (make_intrinsics (camera_with_focal 1))
                     single_triangle_mesh assoc)
                  (indexed_polygons single_triangle_mesh)
                  (initial_state single_triangle_mesh assoc fresh_statics))
    as [s' | e] eqn:Hrun; [| by vm_compute in Hrun].
  exists s'. split; [done |].
  destruct (proj2 connected_rows_never_overwritten fresh_statics fresh_statics
              cloud_in_triangle (camera_with_focal 1) single_triangle_mesh _ s' Hrun)
    as (Hn & _).
  rewrite Hn. vm_compute. reflexivity.
Defined.
End ConnectedRowsRuns.
